(** * VoiceUpdate: update and model-synchronisation pipeline

    A shallow embedding of the three Python modules of the repository
    ([update_manager.py], [model_sync.py], [auto_updater.py]) and the
    properties of their version resolver, transfer engine, integrity
    verifier, backup manager, install step and scheduler.

    Conventions of the embedding:
    - Python [str] values are [string]s read as ASCII text; [bytes] are
      [list byte].
    - Python [int]s are [Z]; lengths and indices are [nat].
    - a [try]/[except] block is a computation returning [option]: [None]
      stands for a raised exception, and the state reached before the
      exception is kept, as in Python.
    - signals emitted by the Qt objects are appended to a log. *)

From Stdlib Require Import ZArith List String Ascii Bool Lia.
From Stdlib.Strings Require Import Byte.
From stdpp Require Import base option list gmap strings.

Local Open Scope string_scope.
Local Open Scope Z_scope.

(** ** Python primitives used by the three modules *)
Module Py.

(** [str.split(sep)] for a one-character separator: every occurrence
    cuts, empty pieces are kept, and the result is never empty. *)
Fixpoint split_char (sep : ascii) (s : string) : list string :=
match s with
| EmptyString => [EmptyString]
| String c s' =>
    if Ascii.eqb c sep then EmptyString :: split_char sep s'
    else match split_char sep s' with
         | x :: xs => String c x :: xs
         | [] => [String c EmptyString]
         end
end.

(** [str.lstrip(c)] for a one-character argument: all leading copies go. *)
Fixpoint lstrip_char (c : ascii) (s : string) : string :=
match s with
| EmptyString => EmptyString
| String d s' => if Ascii.eqb d c then lstrip_char c s' else s
end.

(** Whitespace as [int()] sees it on ASCII text: TAB..CR and SPACE.  (The
    separators FS..US, which [str.isspace] accepts, are not stripped.) *)
Definition is_space (c : ascii) : bool :=
let n := nat_of_ascii c in
((9 <=? n)%nat && (n <=? 13)%nat) || (n =? 32)%nat.

Fixpoint lstrip_space (s : string) : string :=
match s with
| EmptyString => EmptyString
| String c s' => if is_space c then lstrip_space s' else s
end.

Fixpoint rstrip_space (s : string) : string :=
match s with
| EmptyString => EmptyString
| String c s' =>
    match rstrip_space s' with
    | EmptyString => if is_space c then EmptyString else String c EmptyString
    | t => String c t
    end
end.

Definition strip_space (s : string) : string := rstrip_space (lstrip_space s).

Fixpoint rev_append_string (s acc : string) : string :=
match s with
| EmptyString => acc
| String c s' => rev_append_string s' (String c acc)
end.

Definition rev_string (s : string) : string := rev_append_string s EmptyString.

Definition digit_val (c : ascii) : option Z :=
let n := Z.of_nat (nat_of_ascii c) in
if (48 <=? n) && (n <=? 57) then Some (n - 48) else None.

(** Digits after the first one: single underscores may separate digits. *)
Fixpoint digits_go (acc : Z) (after_underscore : bool) (s : string) : option Z :=
match s with
| EmptyString => if after_underscore then None else Some acc
| String c s' =>
    if Ascii.eqb c "_"%char then
      if after_underscore then None else digits_go acc true s'
    else match digit_val c with
         | Some d => digits_go (10 * acc + d) false s'
         | None => None
         end
end.

Definition parse_digits (s : string) : option Z :=
match s with
| EmptyString => None
| String c s' =>
    match digit_val c with
    | Some d => digits_go d false s'
    | None => None
    end
end.

(** [int(s)] in base 10 on ASCII text; [None] is [ValueError].  Surrounding
    whitespace is dropped, one sign is allowed, leading zeros are allowed.
    The interpreter's optional limit on the number of digits is not
    modelled: the integers are unbounded. *)
Definition int (s : string) : option Z :=
match strip_space s with
| String "+"%char r => parse_digits r
| String "-"%char r => Z.opp <$> parse_digits r
| t => parse_digits t
end.

(** Order of [str] values: lexicographic on code points. *)
Fixpoint str_lt (a b : string) : bool :=
match a, b with
| EmptyString, EmptyString => false
| EmptyString, String _ _ => true
| String _ _, EmptyString => false
| String x a', String y b' =>
    if (nat_of_ascii x <? nat_of_ascii y)%nat then true
    else if (nat_of_ascii y <? nat_of_ascii x)%nat then false
    else str_lt a' b'
end.

Definition str_gt (a b : string) : bool := str_lt b a.

(** [l.extend([x] * n)]; a negative [n] repeats nothing. *)
Definition extend {A} (l : list A) (x : A) (n : Z) : list A :=
l ++ replicate (Z.to_nat n) x.

Definition len {A} (l : list A) : Z := Z.of_nat (length l).

(** [range(n)] *)
Definition range (n : Z) : list nat := seq 0 (Z.to_nat n).

(** Truth value of a [str]: only the empty string is false. *)
Definition truthy (s : string) : bool :=
match s with EmptyString => false | String _ _ => true end.

(** Truth value of an optional [str] (a value that may be [None]). *)
Definition truthy_opt (o : option string) : bool :=
match o with Some s => truthy s | None => false end.

Fixpoint starts_with (p s : string) : bool :=
match p, s with
| EmptyString, _ => true
| String a p', String b s' => Ascii.eqb a b && starts_with p' s'
| String _ _, EmptyString => false
end.

(** [p in s] *)
Fixpoint contains (p s : string) : bool :=
starts_with p s ||
match s with
| EmptyString => false
| String _ s' => contains p s'
end.

Fixpoint skip (n : nat) (s : string) : string :=
match n, s with
| S n', String _ s' => skip n' s'
| _, _ => s
end.

(** The text after the first occurrence of [p] in [s], if there is one. *)
Fixpoint after_first (p s : string) : option string :=
if starts_with p s then Some (skip (String.length p) s)
else match s with
     | EmptyString => None
     | String _ s' => after_first p s'
     end.

(** [str.split(sep)] for a separator of any positive length; [pending]
    counts the characters of a separator just matched that are still to
    be dropped, [cur] is the current piece, reversed. *)
Fixpoint split_go (sep : string) (pending : nat) (cur : string) (s : string) : list string :=
match s with
| EmptyString => [rev_string cur]
| String c s' =>
    match pending with
    | S k => split_go sep k cur s'
    | O =>
        if starts_with sep s
        then rev_string cur :: split_go sep (String.length sep - 1) EmptyString s'
        else split_go sep O (String c cur) s'
    end
end.

Definition split_str (sep s : string) : list string := split_go sep O EmptyString s.

(** [str.endswith(p)] *)
Definition ends_with (p s : string) : bool :=
starts_with (rev_string p) (rev_string s).

(** [str.lower()] on ASCII text. *)
Definition lower_char (c : ascii) : ascii :=
let n := nat_of_ascii c in
if (65 <=? n)%nat && (n <=? 90)%nat then ascii_of_nat (n + 32) else c.

Fixpoint lower (s : string) : string :=
match s with
| EmptyString => EmptyString
| String c s' => String (lower_char c) (lower s')
end.

(** [os.path.join] of two relative paths and [os.path.basename], with
    [/] as the separator. *)
Definition path_join (a b : string) : string := a ++ "/" ++ b.

Definition basename (p : string) : string :=
default EmptyString (last (split_char "/"%char p)).

Definition dirname (p : string) : string :=
match after_first "/" (rev_string p) with
| Some d => rev_string d
| None => EmptyString
end.

(** [l[k:]] *)
Definition slice_from {A} (k : Z) (l : list A) : list A :=
if k <? 0 then drop (length l - Z.to_nat (- k)) l else drop (Z.to_nat k) l.

(** [l.sort(key=key, reverse=True)]: descending by key, and stable (items
    with equal keys keep their order). *)
Fixpoint insert_desc {A} (key : A -> Z) (x : A) (l : list A) : list A :=
match l with
| [] => [x]
| y :: l' => if key y >? key x then y :: insert_desc key x l' else x :: l
end.

Fixpoint sort_desc {A} (key : A -> Z) (l : list A) : list A :=
match l with
| [] => []
| x :: l' => insert_desc key x (sort_desc key l')
end.

(** A value returned by [datetime.now()], seen through what the code does
    with it: its rendering by [strftime("%Y%m%d_%H%M%S")], its rendering
    by [isoformat()], and its position on the time line in microseconds
    (naive local time). *)
Record datetime := { stamp : string; iso : string; micros : Z }.

(** An object of the file system: a regular file with its bytes, or a
    directory with the regular files it holds, by name. *)
Inductive node :=
| File (content : list byte)
| Dir (entries : gmap string (list byte)).

(** [timedelta(hours=h)] for an integer [h], in microseconds.  [None] is
    [OverflowError]: the number of whole days must stay within
    999999999 in magnitude. *)
Definition timedelta_hours (h : Z) : option Z :=
if (-999999999 <=? h / 24) && (h / 24 <=? 999999999)
then Some (h * 3600 * 1000000) else None.

(** A value read by [json.load].  A number with a fraction or an exponent
    is kept as its text. *)
Local Unset Elimination Schemes.
Inductive json :=
| JNull
| JBool (b : bool)
| JInt (n : Z)
| JFloat (text : string)
| JStr (s : string)
| JList (items : list json)
| JObj (fields : list (string * json)).
Local Set Elimination Schemes.

(** [{**a, **b}]: every key of either dictionary, with the value of [b]
    where both have one. *)
Definition dict_merge {V} (a b : gmap string V) : gmap string V := b ∪ a.

(** A JSON file that holds a dictionary: [None] when the file is missing,
    [Some None] when it is there but cannot be read as a JSON object (then
    the [try] block around the reading raises), [Some (Some d)] when it
    holds the object [d]. *)
Definition json_file : Type := option (option (gmap string json)).

End Py.

(** ** hashlib.sha256 (FIPS 180-4), on 32-bit words kept in [Z] *)
Module Sha256.

Definition w32 (x : Z) : Z := x mod 2 ^ 32.
Definition rotr (n x : Z) : Z := Z.lor (Z.shiftr x n) (w32 (Z.shiftl x (32 - n))).
Definition xor3 (a b c : Z) : Z := Z.lxor a (Z.lxor b c).

(** The constants are derived as the standard defines them: from the
    fractional parts of the cube roots and of the square roots of the
    first primes. *)
Definition is_prime (n : Z) : bool :=
(2 <=? n) && forallb (fun d => negb (n mod d =? 0)) (Z.of_nat <$> seq 2 (Z.to_nat n - 2)).

Definition first_primes (n : nat) : list Z :=
take n (List.filter is_prime (Z.of_nat <$> seq 2 310)).

(** The integer cube root, by bisection between [lo] and [hi]. *)
Fixpoint cube_root (fuel : nat) (lo hi n : Z) : Z :=
match fuel with
| O => lo
| S fuel' =>
    let mid := (lo + hi + 1) / 2 in
    if mid * mid * mid <=? n then cube_root fuel' mid hi n
    else cube_root fuel' lo (mid - 1) n
end.

Definition K : list Z :=
Eval vm_compute in
  (fun p => w32 (cube_root 40 0 (2 ^ 36) (p * 2 ^ 96))) <$> first_primes 64.

Definition H0 : list Z :=
Eval vm_compute in (fun p => w32 (Z.sqrt (p * 2 ^ 64))) <$> first_primes 8.

Definition byte_val (b : byte) : Z := Z.of_N (Byte.to_N b).

(** Message padding: one 1 bit, zeros up to 56 mod 64 bytes, then the
    length in bits on 8 bytes, big endian. *)
Definition be_bytes (width : nat) (x : Z) : list Z :=
map (fun i => (x / 2 ^ (8 * Z.of_nat i)) mod 256) (rev (seq 0 width)).

Definition pad (msg : list Z) : list Z :=
let n := Z.of_nat (length msg) in
let zeros := Z.to_nat ((55 - n) mod 64) in
msg ++ [128] ++ replicate zeros 0 ++ be_bytes 8 (8 * n).

Fixpoint be_words (bs : list Z) : list Z :=
match bs with
| a :: b :: c :: d :: rest =>
    (a * 2 ^ 24 + b * 2 ^ 16 + c * 2 ^ 8 + d) :: be_words rest
| _ => []
end.

Definition ssig0 (x : Z) : Z := xor3 (rotr 7 x) (rotr 18 x) (Z.shiftr x 3).
Definition ssig1 (x : Z) : Z := xor3 (rotr 17 x) (rotr 19 x) (Z.shiftr x 10).
Definition bsig0 (x : Z) : Z := xor3 (rotr 2 x) (rotr 13 x) (rotr 22 x).
Definition bsig1 (x : Z) : Z := xor3 (rotr 6 x) (rotr 11 x) (rotr 25 x).
Definition ch (x y z : Z) : Z := Z.lxor (Z.land x y) (Z.land (w32 (Z.lnot x)) z).
Definition maj (x y z : Z) : Z := xor3 (Z.land x y) (Z.land x z) (Z.land y z).

(** The message schedule, newest word first. *)
Fixpoint schedule (n : nat) (ws : list Z) : list Z :=
match n with
| O => ws
| S n' =>
    let at_ i := default 0 (ws !! i) in
    schedule n' (w32 (ssig1 (at_ 1%nat) + at_ 6%nat + ssig0 (at_ 14%nat) + at_ 15%nat) :: ws)
end.

Definition round (st : list Z) (kw : Z * Z) : list Z :=
match st with
| [a; b; c; d; e; f; g; h] =>
    let t1 := h + bsig1 e + ch e f g + kw.1 + kw.2 in
    let t2 := bsig0 a + maj a b c in
    [w32 (t1 + t2); a; b; c; w32 (d + t1); e; f; g]
| _ => st
end.

Definition compress (hs : list Z) (block : list Z) : list Z :=
let w := rev (schedule 48 (rev block)) in
let st := fold_left round (zip K w) hs in
zip_with (fun x y => w32 (x + y)) hs st.

Fixpoint blocks (n : nat) (hs : list Z) (ws : list Z) : list Z :=
match n with
| O => hs
| S n' => blocks n' (compress hs (take 16 ws)) (drop 16 ws)
end.

Definition digest_words (msg : list byte) : list Z :=
let ws := be_words (pad (map byte_val msg)) in
blocks (length ws / 16) H0 ws.

Definition hex_digit (d : Z) : ascii :=
ascii_of_nat (Z.to_nat (if d <? 10 then 48 + d else 87 + d)).

Definition hex_word (x : Z) : string :=
string_of_list_ascii
  (map (fun i => hex_digit ((x / 16 ^ Z.of_nat i) mod 16)) (rev (seq 0 8))).

(** [hashlib.sha256(msg).hexdigest()]: 64 lower-case hexadecimal digits. *)
Definition hexdigest (msg : list byte) : string :=
fold_right String.append EmptyString (map hex_word (digest_words msg)).

End Sha256.

(** ** Effects: state, exceptions and a log *)
Module Eff.

(** A computation over a state [S]: the result is [None] when an
    exception escapes; the state reached is returned either way. *)
Definition M (S A : Type) : Type := S -> option A * S.

Definition ret {S A} (a : A) : M S A := fun w => (Some a, w).

Definition raise {S A} : M S A := fun w => (None, w).

Definition bind {S A B} (m : M S A) (k : A -> M S B) : M S B :=
fun w => match m w with
         | (Some a, w') => k a w'
         | (None, w') => (None, w')
         end.

(** [try: m  except Exception: handler] *)
Definition try_except {S A} (m : M S A) (handler : M S A) : M S A :=
fun w => match m w with
         | (Some a, w') => (Some a, w')
         | (None, w') => handler w'
         end.

Definition get {S} : M S S := fun w => (Some w, w).

Definition modify {S} (f : S -> S) : M S unit := fun w => (Some tt, f w).

(** A value that may be missing: a failed lookup raises. *)
Definition lift {S A} (o : option A) : M S A :=
match o with Some a => ret a | None => raise end.

(** [for x in l: body x] *)
Fixpoint for_each {S A} (l : list A) (body : A -> M S unit) : M S unit :=
match l with
| [] => ret tt
| x :: rest => bind (body x) (fun _ => for_each rest body)
end.

End Eff.

Declare Scope eff_scope.
Delimit Scope eff_scope with eff.
Notation "'let*' x := m 'in' k" := (Eff.bind m (fun x => k))
  (at level 10, x name, m at level 100, k at level 200) : eff_scope.
Notation "'do*' m 'in' k" := (Eff.bind m (fun _ => k))
  (at level 10, m at level 100, k at level 200) : eff_scope.

(** ** update_manager.py: the application updater *)
Module UpdateManager.

(** Body of the [for i in range(max_len)] loop of
    [UpdateChecker.compare_versions].  The outer [option] is the
    exception channel ([IndexError]); the inner one is an early
    [return]. *)
Definition compare_step (v1 v2 : list string) (i : nat) : option (option Z) :=
x ← v1 !! i;
y ← v2 !! i;
match Py.int x, Py.int y with
| Some n1, Some n2 =>
    if n1 >? n2 then Some (Some 1)
    else if n1 <? n2 then Some (Some (-1))
    else Some None
| _, _ =>
    (* except ValueError: compare the two segments as strings *)
    if Py.str_gt x y then Some (Some 1)
    else if Py.str_lt x y then Some (Some (-1))
    else Some None
end.

Fixpoint compare_loop (v1 v2 : list string) (idx : list nat) : option Z :=
match idx with
| [] => Some 0
| i :: rest =>
    match compare_step v1 v2 i with
    | None => None
    | Some (Some r) => Some r
    | Some None => compare_loop v1 v2 rest
    end
end.

(** [UpdateChecker.compare_versions]: 1 when [version1] is the greater,
    -1 when it is the smaller, 0 otherwise. *)
Definition compare_versions (version1 version2 : string) : Z :=
let v1 := Py.split_char "."%char (Py.lstrip_char "v"%char version1) in
let v2 := Py.split_char "."%char (Py.lstrip_char "v"%char version2) in
let max_len := Z.max (Py.len v1) (Py.len v2) in
let v1 := Py.extend v1 "0" (max_len - Py.len v1) in
let v2 := Py.extend v2 "0" (max_len - Py.len v2) in
match compare_loop v1 v2 (Py.range max_len) with
| Some r => r
| None => 0 (* except Exception: return 0 *)
end.

(** *** Data *)
Import Py.
Local Open Scope eff_scope.

(** The release described by the GitHub API.  [tag_name] is [None] when
    the field is present but is not a string. *)
Record release := {
  tag_name : option string;
  html_url : string;
  release_name : string;
  release_body : string }.

(** An entry of the backup directory. *)
Record entry := {
  is_dir : bool;
  ctime : Z;                              (* [os.path.getctime] *)
  files : gmap string (list byte) }.

Definition set_files (f : gmap string (list byte) -> gmap string (list byte)) (e : entry) : entry :=
{| is_dir := is_dir e; ctime := ctime e; files := f (files e) |}.

(** Places where the operating system can refuse an operation. *)
Inductive location :=
| LocBackupDir (name : string)
| LocBackupFile (name file_name : string)
| LocRemove (name : string)
| LocExeNew
| LocExtract (file_name : string)
| LocScript
| LocSpawn
| LocLastCheckFile.

Record env := {
  exe_path : string;                        (* [sys.argv[0]] *)
  current_version : string;
  latest_release : option release;          (* [None]: the request fails *)
  clock : nat -> datetime;
  unzip : list byte -> option (list (string * list byte));
  denied : location -> bool }.

Inductive message :=
| MsgChecking
| MsgUpToDate
| MsgCreatingBackup
| MsgBackupDone
| MsgInstalling
| MsgInstallDone
| ErrRequest
| ErrBackup
| ErrNoExeInUpdate
| ErrInstall.

(** Signals of [UpdateChecker], and the start of the helper process that
    replaces the executable once the application has exited. *)
Inductive event :=
| status_updated (m : message)
| error_occurred (m : message)
| update_available (r : release)
| helper_started (new_exe current_exe : string).

Record check_info := {
  ci_timestamp : string;
  ci_latest_version : string;
  ci_current_version : string }.

(** The state a run changes: the running executable, the staged copy
    beside it ([sys.argv[0] + ".new"]), the files of the application
    directory, the cache directory, the directory the archive is
    extracted to and the backup directory, both in listing order. *)
Record world := {
  exe : option (list byte);
  exe_new : option (list byte);
  app_files : gmap string (list byte);
  cache : gmap string (list byte);
  update_extract : list (string * list byte);
  backup_dir : option (list (string * entry));
  last_check_file : option check_info;
  ticks : nat;
  log : list event }.

Definition set_exe_new (v : option (list byte)) (w : world) : world :=
{| exe := exe w; exe_new := v; app_files := app_files w; cache := cache w;
   update_extract := update_extract w; backup_dir := backup_dir w;
   last_check_file := last_check_file w; ticks := ticks w; log := log w |}.

Definition set_cache (f : gmap string (list byte) -> gmap string (list byte)) (w : world) : world :=
{| exe := exe w; exe_new := exe_new w; app_files := app_files w; cache := f (cache w);
   update_extract := update_extract w; backup_dir := backup_dir w;
   last_check_file := last_check_file w; ticks := ticks w; log := log w |}.

Definition set_update_extract (f : list (string * list byte) -> list (string * list byte))
  (w : world) : world :=
{| exe := exe w; exe_new := exe_new w; app_files := app_files w; cache := cache w;
   update_extract := f (update_extract w); backup_dir := backup_dir w;
   last_check_file := last_check_file w; ticks := ticks w; log := log w |}.

Definition set_backup_dir (v : option (list (string * entry))) (w : world) : world :=
{| exe := exe w; exe_new := exe_new w; app_files := app_files w; cache := cache w;
   update_extract := update_extract w; backup_dir := v;
   last_check_file := last_check_file w; ticks := ticks w; log := log w |}.

Definition set_last_check_file (v : option check_info) (w : world) : world :=
{| exe := exe w; exe_new := exe_new w; app_files := app_files w; cache := cache w;
   update_extract := update_extract w; backup_dir := backup_dir w;
   last_check_file := v; ticks := ticks w; log := log w |}.

Definition set_ticks (n : nat) (w : world) : world :=
{| exe := exe w; exe_new := exe_new w; app_files := app_files w; cache := cache w;
   update_extract := update_extract w; backup_dir := backup_dir w;
   last_check_file := last_check_file w; ticks := n; log := log w |}.

Definition set_log (l : list event) (w : world) : world :=
{| exe := exe w; exe_new := exe_new w; app_files := app_files w; cache := cache w;
   update_extract := update_extract w; backup_dir := backup_dir w;
   last_check_file := last_check_file w; ticks := ticks w; log := l |}.

Definition emit (e : event) : Eff.M world unit :=
Eff.modify (fun w => set_log (log w ++ [e]) w).

(** Association lists in listing order: lookup, and a write that keeps
    the place of a name already there and appends a new one. *)
Fixpoint assoc {A} (name : string) (l : list (string * A)) : option A :=
match l with
| [] => None
| (n, a) :: l' => if String.eqb n name then Some a else assoc name l'
end.

Fixpoint assoc_set {A} (name : string) (a : A) (l : list (string * A)) : list (string * A) :=
match l with
| [] => [(name, a)]
| (n, b) :: l' => if String.eqb n name then (n, a) :: l' else (n, b) :: assoc_set name a l'
end.

Section WithEnv.
Variable E : env.

(** [datetime.now()], and the time the file system stamps on what it
    creates: both read the system clock. *)
Definition now : Eff.M world datetime :=
fun w => (Some (clock E (ticks w)), set_ticks (S (ticks w)) w).

(** [UpdateChecker.save_last_check]: a failed write is swallowed. *)
Definition save_last_check (release_data : release) : Eff.M world unit :=
let* t := now in
let check_info :=
  {| ci_timestamp := iso t;
     ci_latest_version := default EmptyString (tag_name release_data);
     ci_current_version := current_version E |} in
if denied E LocLastCheckFile then Eff.ret tt
else Eff.modify (set_last_check_file (Some check_info)).

(** [UpdateChecker.get_latest_release] *)
Definition get_latest_release : Eff.M world (option release) :=
do* emit (status_updated MsgChecking) in
match latest_release E with
| Some release_data =>
    do* save_last_check release_data in
    Eff.ret (Some release_data)
| None =>
    do* emit (error_occurred ErrRequest) in
    Eff.ret None
end.

(** [UpdateChecker.check_for_updates]; it raises when the tag of the
    release is not a string. *)
Definition check_for_updates : Eff.M world bool :=
let* release_data := get_latest_release in
match release_data with
| None => Eff.ret false
| Some release_data =>
    let* tag := Eff.lift (tag_name release_data) in
    let latest_version := lstrip_char "v"%char tag in
    let current_version := lstrip_char "v"%char (current_version E) in
    if compare_versions latest_version current_version >? 0 then
      do* emit (update_available release_data) in
      Eff.ret true
    else
      do* emit (status_updated MsgUpToDate) in
      Eff.ret false
end.

(** [shutil.copy2(src, backup_path)] for a file of given content. *)
Definition copy_to_backup (backup_name file_name : string) (content : list byte)
  : Eff.M world unit :=
let* w := Eff.get in
if denied E (LocBackupFile backup_name file_name) then Eff.raise
else match assoc backup_name (default [] (backup_dir w)) with
     | Some e =>
         Eff.modify (set_backup_dir
           (Some (assoc_set backup_name (set_files (insert file_name content) e)
                    (default [] (backup_dir w)))))
     | None => Eff.raise
     end.

(** [json.dump] of a dictionary of strings, as bytes (escapes are not
    rendered). *)
Definition json_dump (d : list (string * string)) : list byte :=
let q := String (ascii_of_nat 34) EmptyString in
let field (kv : string * string) := q ++ fst kv ++ q ++ ": " ++ q ++ snd kv ++ q in
list_byte_of_string ("{" ++ String.concat ", " (field <$> d) ++ "}").

Definition important_files : list string :=
["version.json"; "config.json"; "key_cache.json"].

(** The [try] block of [UpdateChecker.create_backup]. *)
Definition create_backup_try : Eff.M world bool :=
do* emit (status_updated MsgCreatingBackup) in
let* t := now in
let timestamp := stamp t in
let backup_name := "backup_" ++ timestamp in
(* os.makedirs(backup_path, exist_ok=True) *)
let* w := Eff.get in
do* (match assoc backup_name (default [] (backup_dir w)) with
     | Some e => if is_dir e then Eff.ret tt else Eff.raise
     | None =>
         if denied E (LocBackupDir backup_name) then Eff.raise
         else
           let* created := now in
           Eff.modify (set_backup_dir
             (Some ((default [] (backup_dir w)
                     ++ [(backup_name,
                          {| is_dir := true; ctime := micros created; files := ∅ |})])%list)))
     end) in
let current_exe := exe_path E in
do* (match exe w with
     | Some content => copy_to_backup backup_name (basename current_exe) content
     | None => Eff.ret tt
     end) in
do* Eff.for_each important_files
      (fun file =>
         match app_files w !! file with
         | Some content => copy_to_backup backup_name file content
         | None => Eff.ret tt
         end) in
let* created := now in
let backup_info :=
  [("timestamp", timestamp); ("version", current_version E);
   ("path", path_join ".backup" backup_name); ("created", iso created)] in
do* copy_to_backup backup_name "backup_info.json" (json_dump backup_info) in
do* emit (status_updated MsgBackupDone) in
Eff.ret true.

(** [UpdateChecker.create_backup] *)
Definition create_backup : Eff.M world bool :=
Eff.try_except create_backup_try
  (do* emit (error_occurred ErrBackup) in Eff.ret false).

(** The text of the helper script: wait, end the running application,
    move the new executable over the old one, start it, and delete the
    script. *)
Definition script_content (new_exe current_exe : string) : string :=
let q := String (ascii_of_nat 34) EmptyString in
let nl := String (ascii_of_nat 10) EmptyString in
String.concat nl
  [ "@echo off";
    "timeout /t 2 /nobreak > nul";
    "taskkill /f /im " ++ q ++ basename current_exe ++ q ++ " > nul 2>&1";
    "timeout /t 1 /nobreak > nul";
    "move /y " ++ q ++ new_exe ++ q ++ " " ++ q ++ current_exe ++ q;
    "start " ++ q ++ q ++ " " ++ q ++ current_exe ++ q;
    "del " ++ q ++ "%~f0" ++ q;
    EmptyString ].

(** [UpdateChecker.create_update_script]: writes the script and starts
    it; the script replaces the executable after the application exits. *)
Definition create_update_script (new_exe current_exe : string) : Eff.M world unit :=
do* (if denied E LocScript then Eff.raise
     else Eff.modify (set_cache (insert "update_script.bat"
                                   (list_byte_of_string (script_content new_exe current_exe))))) in
(* subprocess.Popen(['cmd', '/c', script_path], ...) *)
if denied E LocSpawn then Eff.raise
else emit (helper_started new_exe current_exe).

(** [shutil.copy2(src, current_exe + '.new')] *)
Definition stage (content : list byte) : Eff.M world unit :=
if denied E LocExeNew then Eff.raise
else Eff.modify (set_exe_new (Some content)).

Definition read_cache (path : string) : Eff.M world (list byte) :=
let* w := Eff.get in Eff.lift (cache w !! path).

(** [zip_ref.extractall(extract_path)] *)
Definition extract_member (m : string * list byte) : Eff.M world unit :=
if denied E (LocExtract (fst m)) then Eff.raise
else Eff.modify (set_update_extract (assoc_set (fst m) (snd m))).

(** The [try] block of [UpdateChecker.install_update]. *)
Definition install_update_try (update_file : string) : Eff.M world bool :=
do* emit (status_updated MsgInstalling) in
let* backed_up := create_backup in
if negb backed_up then Eff.ret false
else
  let current_exe := exe_path E in
  let* returned :=
    (if ends_with ".exe" update_file then
       let temp_exe := current_exe ++ ".new" in
       let* content := read_cache update_file in
       do* stage content in
       do* create_update_script temp_exe current_exe in
       Eff.ret None
     else if ends_with ".zip" update_file then
       let* content := read_cache update_file in
       let* members := Eff.lift (unzip E content) in
       do* Eff.for_each members extract_member in
       let* w := Eff.get in
       match find (fun m => ends_with ".exe" (fst m)) (update_extract w) with
       | None =>
           do* emit (error_occurred ErrNoExeInUpdate) in
           Eff.ret (Some false)
       | Some exe_file =>
           let temp_exe := current_exe ++ ".new" in
           do* stage (snd exe_file) in
           do* create_update_script temp_exe current_exe in
           Eff.ret None
       end
     else Eff.ret None) in
  match returned with
  | Some r => Eff.ret r
  | None =>
      do* emit (status_updated MsgInstallDone) in
      Eff.ret true
  end.

(** [UpdateChecker.install_update] *)
Definition install_update (update_file : string) : Eff.M world bool :=
Eff.try_except (install_update_try update_file)
  (do* emit (error_occurred ErrInstall) in Eff.ret false).

(** [shutil.rmtree(backup_path, ignore_errors=True)]: a snapshot that
    cannot be deleted stays, and nothing is raised. *)
Definition rmtree (name : string) (l : list (string * entry)) : list (string * entry) :=
if denied E (LocRemove name) then l
else filter (fun p => negb (String.eqb (fst p) name)) l.

(** [UpdateChecker.cleanup_old_backups] *)
Definition cleanup_old_backups (keep_count : Z) (w : world) : world :=
match backup_dir w with
| None => w
| Some listing =>
    let backups :=
      filter (fun p => is_dir (snd p) && starts_with "backup_" (fst p)) listing in
    let backups := sort_desc (fun p => ctime (snd p)) backups in
    set_backup_dir
      (Some (fold_left (fun l p => rmtree (fst p) l) (slice_from keep_count backups) listing))
      w
end.

End WithEnv.

(** [UpdateChecker.get_last_check_info]: the record of the last check,
    [None] when the file is missing or cannot be read. *)
Definition get_last_check_info (w : world) : option check_info := last_check_file w.

(** *** Downloading an update *)

(** One entry of [release_data['assets']], through the three keys the
    code reads: [asset_name] is [asset.get('name', '')], the empty string
    when the key is missing and [None] when the value is not a string;
    [browser_download_url] is [None] when the key is missing;
    [asset_size] is [asset.get('size', 0)]. *)
Record asset := {
  asset_name : option string;
  browser_download_url : option string;
  asset_size : Z }.

(** The answer to the request for the asset. *)
Record asset_response := {
  asset_status_code : Z;
  asset_chunks : list (list byte);     (* what [iter_content] yields *)
  asset_stream_breaks : bool }.        (* the transfer fails after these chunks *)

(** The surroundings of a download: the server ([None]: the request
    raises) and the files of the cache directory that cannot be opened for
    writing. *)
Record fetcher := {
  fetch : string -> option asset_response;
  cache_write_denied : string -> bool }.

(** The texts that [download_update] sends, by their template. *)
Inductive asset_message :=
| MsgDownloadingAsset (file_name : string)
| MsgDownloadDone
| ErrNoAsset
| ErrNoDownloadUrl
| ErrDownloadCorrupt
| ErrDownloading.

(** The signals [download_update] emits.  A progress value is
    [int((downloaded_size / file_size) * 100)], computed in floating point
    by the source and kept here as its two operands. *)
Inductive asset_signal :=
| progress_updated (downloaded_size file_size : Z)
| asset_status (m : asset_message)     (* [status_updated] *)
| asset_error (m : asset_message)      (* [error_occurred] *)
| update_downloaded (path : string).

(** The state of a download: the files, and the signals sent so far. *)
Record download_state := {
  disk : world;
  signals : list asset_signal }.

Definition signal (s : asset_signal) : Eff.M download_state unit :=
Eff.modify (fun st => {| disk := disk st; signals := (signals st ++ [s])%list |}).

Definition write_cache (f : gmap string (list byte) -> gmap string (list byte))
  : Eff.M download_state unit :=
Eff.modify (fun st => {| disk := set_cache f (disk st); signals := signals st |}).

(** The loop that looks for the asset to download: the first one whose
    name, in lower case, ends with [.exe] or [.zip].  The outer [option]
    is the exception channel: [.lower()] of a name that is not a string
    raises. *)
Fixpoint find_asset (assets : list asset) : option (option asset) :=
match assets with
| [] => Some None
| a :: rest =>
    match asset_name a with
    | None => None
    | Some n =>
        let name := lower n in
        if ends_with ".exe" name || ends_with ".zip" name then Some (Some a)
        else find_asset rest
    end
end.

Section WithFetcher.
Variable F : fetcher.

(** The loop over [response.iter_content] of [download_update]; returns
    [downloaded_size]. *)
Fixpoint save_chunks (download_path : string) (file_size : Z)
  (chunks : list (list byte)) (downloaded_size : Z) : Eff.M download_state Z :=
match chunks with
| [] => Eff.ret downloaded_size
| chunk :: rest =>
    match chunk with
    | [] => save_chunks download_path file_size rest downloaded_size
    | _ :: _ =>
        do* write_cache (fun c =>
              <[download_path := (default [] (c !! download_path) ++ chunk)%list]> c) in
        let downloaded_size := downloaded_size + Py.len chunk in
        do* (if file_size >? 0
             then signal (progress_updated downloaded_size file_size)
             else Eff.ret tt) in
        save_chunks download_path file_size rest downloaded_size
    end
end.

(** The [try] block of [UpdateChecker.download_update]; [assets] is
    [release_data.get('assets', [])].  The path of the downloaded file is
    written relative to the cache directory, as the keys of [cache] are:
    an asset name is a plain file name. *)
Definition download_update_try (assets : list asset) : Eff.M download_state (option string) :=
let* download_asset := Eff.lift (find_asset assets) in
match download_asset with
| None =>
    do* signal (asset_error ErrNoAsset) in
    Eff.ret None
| Some download_asset =>
    let download_url := browser_download_url download_asset in
    let* file_name := Eff.lift (asset_name download_asset) in
    let file_size := asset_size download_asset in
    if negb (truthy_opt download_url) then
      do* signal (asset_error ErrNoDownloadUrl) in
      Eff.ret None
    else
      let download_path := file_name in
      do* signal (asset_status (MsgDownloadingAsset file_name)) in
      let* response := Eff.lift (fetch F (default EmptyString download_url)) in
      (* response.raise_for_status() *)
      do* (if (400 <=? asset_status_code response) && (asset_status_code response <? 600)
           then Eff.raise else Eff.ret tt) in
      (* open(download_path, 'wb') *)
      do* (if cache_write_denied F download_path then Eff.raise
           else write_cache (insert download_path [])) in
      let* downloaded_size :=
        save_chunks download_path file_size (asset_chunks response) 0 in
      do* (if asset_stream_breaks response then Eff.raise else Eff.ret tt) in
      let* st := Eff.get in
      let size_on_disk := Py.len (default [] (cache (disk st) !! download_path)) in
      if (file_size >? 0) && negb (size_on_disk =? file_size) then
        do* signal (asset_error ErrDownloadCorrupt) in
        Eff.ret None
      else
        do* signal (asset_status MsgDownloadDone) in
        do* signal (update_downloaded download_path) in
        Eff.ret (Some download_path)
end.

(** [UpdateChecker.download_update] *)
Definition download_update (assets : list asset) : Eff.M download_state (option string) :=
Eff.try_except (download_update_try assets)
  (do* signal (asset_error ErrDownloading) in Eff.ret None).

End WithFetcher.

End UpdateManager.

(** ** model_sync.py: the model synchroniser *)
Module ModelSync.
Import Py.
Local Open Scope eff_scope.

(** *** Data *)

(** One entry of [config["models"]].  A field is [None] when the key is
    missing from the JSON object. *)
Record model_config := {
  mc_url : option string;
  mc_version : option string;
  mc_type : option string;
  mc_destination : option string;
  mc_filename : option string;
  mc_hash : option string }.

(** [self.config]: the models in the order of the dictionary. *)
Record config := {
  models : list (string * model_config);
  check_interval_hours : Z;
  auto_update : bool;
  backup_old_models : bool }.

(** [self.config["models"][model_name]]; [None] is [KeyError]. *)
Definition models_lookup (cfg : config) (model_name : string) : option model_config :=
snd <$> find (fun p => String.eqb (fst p) model_name) (models cfg).

(** An HTTP response as the downloader reads it. *)
Record response := {
  status_code : Z;
  content_type : option string;
  content_length : option string;
  text : string;
  body_chunks : list (list byte);  (* what [iter_content] yields *)
  stream_breaks : bool }.          (* the transfer fails after these chunks *)

(** Places where a write can be refused by the operating system. *)
Inductive location :=
| LocCacheDir (path : string)
| LocCacheFile (path : string)
| LocBackupDir (model_name : string)
| LocBackupCopy (model_name : string)
| LocDestDir (destination : string)
| LocDestFile (destination file_name : string)
| LocVersionFile
| LocLastSyncFile.

(** The surroundings of one run: the remote servers, the clock, the zip
    decoder, the size a directory reports, and the writes that fail. *)
Record env := {
  http_head : string -> option response;
  http_get : string -> option Z -> option response;
  clock : nat -> datetime;
  unzip : list byte -> option (list (string * list byte));
  dir_size : string -> Z;
  denied : location -> bool }.

Record sync_info := {
  si_timestamp : string;
  si_models_synced : list string;
  si_success : bool }.

(** A progress value: a literal, or [int((num / den) * 100)], which the
    source computes in floating point and which is kept symbolic here. *)
Inductive progress :=
| Exactly (p : Z)
| Percent (num den : Z).

(** The texts of the status and error messages, by their template. *)
Inductive message :=
| MsgNone
| MsgResuming (initial_pos : Z)
| MsgDownloadedMB (downloaded_size total_size : Z)
| MsgBackingUp (model_name : string)
| MsgDownloading (model_name : string)
| MsgVerifying (model_name : string)
| MsgInstalling (model_name : string)
| MsgProcessing (model_name : string)
| MsgAllUpToDate
| MsgSyncDone
| ErrNoUrl (model_name : string)
| ErrCorrupt (model_name : string)
| ErrDownloadFile
| ErrDownloadModel (model_name : string)
| ErrSync.

(** Signals of [ModelDownloader] and [ModelSyncManager]. *)
Inductive event :=
| download_progress (p : progress)
| download_status (m : message)
| download_completed (path : string)
| download_error (m : message)
| sync_started
| sync_completed
| sync_progress (p : progress) (m : message)
| sync_error (m : message)
| model_updated (model_name : string).

(** The state a run changes.  The regions of the disk the manager uses
    are kept apart: the download cache by local path, the install
    destinations by destination path, the snapshots by model and time
    stamp, the version ledger and the last-sync record.  The
    configuration is taken not to make these regions overlap. *)
Record world := {
  cache : gmap string node;
  dest : gmap string node;
  backups : gmap (string * string) (gmap string node);
  version_file : option (gmap string string); (* [None]: missing or unreadable *)
  last_sync_file : option sync_info;
  ticks : nat;                                 (* readings of the clock so far *)
  log : list event }.

Definition set_cache (f : gmap string node -> gmap string node) (w : world) : world :=
{| cache := f (cache w); dest := dest w; backups := backups w;
   version_file := version_file w; last_sync_file := last_sync_file w;
   ticks := ticks w; log := log w |}.

Definition set_dest (f : gmap string node -> gmap string node) (w : world) : world :=
{| cache := cache w; dest := f (dest w); backups := backups w;
   version_file := version_file w; last_sync_file := last_sync_file w;
   ticks := ticks w; log := log w |}.

Definition set_backups
  (f : gmap (string * string) (gmap string node) -> gmap (string * string) (gmap string node))
  (w : world) : world :=
{| cache := cache w; dest := dest w; backups := f (backups w);
   version_file := version_file w; last_sync_file := last_sync_file w;
   ticks := ticks w; log := log w |}.

Definition set_version_file (v : option (gmap string string)) (w : world) : world :=
{| cache := cache w; dest := dest w; backups := backups w;
   version_file := v; last_sync_file := last_sync_file w;
   ticks := ticks w; log := log w |}.

Definition set_last_sync_file (v : option sync_info) (w : world) : world :=
{| cache := cache w; dest := dest w; backups := backups w;
   version_file := version_file w; last_sync_file := v;
   ticks := ticks w; log := log w |}.

Definition set_ticks (n : nat) (w : world) : world :=
{| cache := cache w; dest := dest w; backups := backups w;
   version_file := version_file w; last_sync_file := last_sync_file w;
   ticks := n; log := log w |}.

Definition set_log (l : list event) (w : world) : world :=
{| cache := cache w; dest := dest w; backups := backups w;
   version_file := version_file w; last_sync_file := last_sync_file w;
   ticks := ticks w; log := l |}.

Definition emit (e : event) : Eff.M world unit :=
Eff.modify (fun w => set_log (log w ++ [e]) w).

Definition cache_dir : string := ".cache/models".

(** *** ModelDownloader *)

(** [ModelDownloader.get_google_drive_direct_url] *)
Definition get_google_drive_direct_url (drive_url : string) : string :=
if contains "drive.google.com" drive_url then
  let file_id :=
    if contains "/file/d/" drive_url then
      (* drive_url.split('/file/d/')[1].split('/')[0] *)
      rest ← split_str "/file/d/" drive_url !! 1%nat;
      split_char "/"%char rest !! 0%nat
    else if contains "id=" drive_url then
      rest ← split_str "id=" drive_url !! 1%nat;
      split_char "&"%char rest !! 0%nat
    else None in
  match file_id with
  | Some file_id => "https://drive.google.com/uc?export=download&id=" ++ file_id
  | None => drive_url
  end
else drive_url.

(** *** Version comparison *)

Definition compare_step (v1_parts v2_parts : list Z) (i : nat) : option (option Z) :=
n1 ← v1_parts !! i;
n2 ← v2_parts !! i;
if n1 >? n2 then Some (Some 1)
else if n1 <? n2 then Some (Some (-1))
else Some None.

Fixpoint compare_loop (v1_parts v2_parts : list Z) (idx : list nat) : option Z :=
match idx with
| [] => Some 0
| i :: rest =>
    match compare_step v1_parts v2_parts i with
    | None => None
    | Some (Some r) => Some r
    | Some None => compare_loop v1_parts v2_parts rest
    end
end.

(** The [try] block of [ModelSyncManager.compare_versions]. *)
Definition compare_versions_try (version1 version2 : string) : option Z :=
v1_parts ← mapM Py.int (Py.split_char "."%char version1);
v2_parts ← mapM Py.int (Py.split_char "."%char version2);
let max_len := Z.max (Py.len v1_parts) (Py.len v2_parts) in
let v1_parts := Py.extend v1_parts 0 (max_len - Py.len v1_parts) in
let v2_parts := Py.extend v2_parts 0 (max_len - Py.len v2_parts) in
compare_loop v1_parts v2_parts (Py.range max_len).

(** [ModelSyncManager.compare_versions]: any exception yields 0. *)
Definition compare_versions (version1 version2 : string) : Z :=
match compare_versions_try version1 version2 with
| Some r => r
| None => 0
end.

Section WithEnv.
Variable E : env.

(** [ModelDownloader.get_file_size]: 0 when the size is not known. *)
Definition get_file_size (url : string) : Z :=
match http_head E url with
| Some response =>
    if status_code response =? 200 then
      match content_length response with
      | Some cl => if truthy cl then default 0 (Py.int cl) else 0
      | None => 0
      end
    else 0
| None => 0
end.

(** [os.path.getsize] *)
Definition getsize (path : string) (n : node) : Z :=
match n with
| File content => Py.len content
| Dir _ => dir_size E path
end.

(** [datetime.now()] *)
Definition now : Eff.M world datetime :=
fun w => (Some (clock E (ticks w)), set_ticks (S (ticks w)) w).

(** [open(local_path, 'ab')] or [open(local_path, 'wb')]: the second
    empties the file. *)
Definition open_write (local_path : string) (append : bool) : Eff.M world unit :=
let* w := Eff.get in
if denied E (LocCacheFile local_path) then Eff.raise
else match cache w !! local_path with
     | Some (Dir _) => Eff.raise
     | Some (File _) =>
         if append then Eff.ret tt
         else Eff.modify (set_cache (insert local_path (File [])))
     | None => Eff.modify (set_cache (insert local_path (File [])))
     end.

(** [f.write(chunk)] on the file opened at [local_path]. *)
Definition write_chunk (local_path : string) (chunk : list byte) : Eff.M world unit :=
Eff.modify (set_cache (fun c =>
  match c !! local_path with
  | Some (File content) => <[local_path := File (content ++ chunk)]> c
  | _ => c
  end)).

(** The loop over [response.iter_content]; returns [downloaded_size]. *)
Fixpoint write_chunks (local_path : string) (total_size : Z)
  (chunks : list (list byte)) (downloaded_size : Z) : Eff.M world Z :=
match chunks with
| [] => Eff.ret downloaded_size
| chunk :: rest =>
    match chunk with
    | [] => write_chunks local_path total_size rest downloaded_size
    | _ :: _ =>
        do* write_chunk local_path chunk in
        let downloaded_size := downloaded_size + Py.len chunk in
        do* (if total_size >? 0
             then emit (download_progress (Percent downloaded_size total_size))
             else Eff.ret tt) in
        do* (if downloaded_size mod (1024 * 1024) =? 0
             then emit (download_status (MsgDownloadedMB downloaded_size total_size))
             else Eff.ret tt) in
        write_chunks local_path total_size rest downloaded_size
    end
end.

Definition quote : string := String (ascii_of_nat 34) EmptyString.

(** [re.search] of the confirmation link: the text captured by the
    group, from [/uc?export=download] up to the next double quote. *)
Definition search_confirm (content : string) : option string :=
rest ← after_first ("href=" ++ quote ++ "/uc?export=download") content;
if contains quote rest
then link ← split_str quote rest !! 0%nat; Some ("/uc?export=download" ++ link)
else None.

(** The [try] block of [ModelDownloader.download_file]. *)
Definition download_file_try (url local_path : string) (resume : bool) : Eff.M world bool :=
let direct_url := get_google_drive_direct_url url in
let total_size := get_file_size direct_url in
let* w := Eff.get in
let initial_pos :=
  match cache w !! local_path with
  | Some n => if resume then getsize local_path n else 0
  | None => 0
  end in
let range := if initial_pos >? 0 then Some initial_pos else None in
do* (if initial_pos >? 0
     then emit (download_status (MsgResuming initial_pos))
     else Eff.ret tt) in
(* os.makedirs(os.path.dirname(local_path), exist_ok=True): an empty
   directory name is an error *)
do* (if negb (truthy (dirname local_path)) || denied E (LocCacheDir (dirname local_path))
     then Eff.raise else Eff.ret tt) in
let* response := Eff.lift (http_get E direct_url range) in
let* response :=
  (if contains "text/html" (default EmptyString (content_type response)) then
     let content := text response in
     if contains "download_warning" content then
       match search_confirm content with
       | Some link => Eff.lift (http_get E ("https://drive.google.com" ++ link) None)
       | None => Eff.ret response
       end
     else Eff.ret response
   else Eff.ret response) in
(* response.raise_for_status() *)
do* (if (400 <=? status_code response) && (status_code response <? 600)
     then Eff.raise else Eff.ret tt) in
let append := resume && (initial_pos >? 0) in
do* open_write local_path append in
let* downloaded_size := write_chunks local_path total_size (body_chunks response) initial_pos in
do* (if stream_breaks response then Eff.raise else Eff.ret tt) in
do* emit (download_completed local_path) in
Eff.ret true.

(** [ModelDownloader.download_file] *)
Definition download_file (url local_path : string) (resume : bool) : Eff.M world bool :=
Eff.try_except (download_file_try url local_path resume)
  (do* emit (download_error ErrDownloadFile) in Eff.ret false).

(** The loop [for chunk in iter(lambda: f.read(4096), b""):
    sha256_hash.update(chunk)].  The hash object is the list of the bytes
    it was fed; [rest] is what the file still has to give.  [None]: the
    fuel ran out. *)
Fixpoint hash_chunks (fuel : nat) (fed rest : list byte) : option (list byte) :=
match fuel with
| O => None
| S fuel' =>
    match take 4096 rest with
    | [] => Some fed
    | chunk => hash_chunks fuel' (fed ++ chunk) (drop 4096 rest)
    end
end.

(** [ModelDownloader.verify_file_integrity] *)
Definition verify_file_integrity (w : world) (file_path : string)
  (expected_hash : option string) : bool :=
match cache w !! file_path with
| None => false
| Some n =>
    if truthy_opt expected_hash then
      match n with
      | File content =>
          match hash_chunks (S (length content)) [] content with
          | Some fed =>
              String.eqb (lower (Sha256.hexdigest fed))
                         (lower (default EmptyString expected_hash))
          | None => false
          end
      | Dir _ => false (* open() raises: except Exception: return False *)
      end
    else getsize file_path n >? 0
end.

(** *** ModelSyncManager *)

(** [ModelSyncManager.get_model_versions] *)
Definition get_model_versions (w : world) : gmap string string :=
default ∅ (version_file w).

(** [ModelSyncManager.save_model_versions]: a failed write is printed
    and swallowed. *)
Definition save_model_versions (versions : gmap string string) : Eff.M world unit :=
if denied E LocVersionFile then Eff.ret tt
else Eff.modify (set_version_file (Some versions)).

(** [ModelSyncManager.check_for_model_updates] *)
Definition check_for_model_updates (cfg : config) (w : world) : list string :=
let current_versions := get_model_versions w in
fst <$> filter
  (fun p =>
     let current_version := default "0.0.0" (current_versions !! fst p) in
     let remote_version := default "1.0.0" (mc_version (snd p)) in
     compare_versions remote_version current_version > 0)
  (models cfg).

(** The [try] block of [ModelSyncManager.backup_model]. *)
Definition backup_model_try (cfg : config) (model_name : string) : Eff.M world bool :=
let* model_config := Eff.lift (models_lookup cfg model_name) in
let* destination := Eff.lift (mc_destination model_config) in
let* w := Eff.get in
match dest w !! destination with
| None => Eff.ret true
| Some n =>
    let* t := now in
    let timestamp := stamp t in
    let key := (model_name, timestamp) in
    (* os.makedirs(backup_dir, exist_ok=True) *)
    do* (match backups w !! key with
         | Some _ => Eff.ret tt
         | None =>
             if denied E (LocBackupDir model_name) then Eff.raise
             else Eff.modify (set_backups (insert key ∅))
         end) in
    (* shutil.copy2 of a file, shutil.copytree of a directory *)
    do* (if denied E (LocBackupCopy model_name) then Eff.raise else Eff.ret tt) in
    let* w := Eff.get in
    let snapshot := default ∅ (backups w !! key) in
    let name := basename destination in
    match n, snapshot !! name with
    | File _, None | File _, Some (File _) =>
        do* Eff.modify (set_backups (insert key (<[name := n]> snapshot))) in
        Eff.ret true
    | Dir _, None =>
        (* with an empty base name the target is the snapshot directory
           itself, which exists *)
        if negb (truthy name) then Eff.raise
        else
          do* Eff.modify (set_backups (insert key (<[name := n]> snapshot))) in
          Eff.ret true
    | _, _ => Eff.raise (* the target is in the way *)
    end
end.

(** [ModelSyncManager.backup_model] *)
Definition backup_model (cfg : config) (model_name : string) : Eff.M world bool :=
if negb (backup_old_models cfg) then Eff.ret true
else Eff.try_except (backup_model_try cfg model_name) (Eff.ret false).

(** Writing one file below a destination directory. *)
Definition write_dest (destination file_name : string) (data : list byte) : Eff.M world unit :=
let* w := Eff.get in
if denied E (LocDestFile destination file_name) then Eff.raise
else match dest w !! destination with
     | Some (Dir entries) =>
         Eff.modify (set_dest (insert destination (Dir (<[file_name := data]> entries))))
     | _ => Eff.raise
     end.

(** Reading a downloaded file as a whole. *)
Definition read_cache (path : string) : Eff.M world (list byte) :=
let* w := Eff.get in
match cache w !! path with
| Some (File content) => Eff.ret content
| _ => Eff.raise
end.

(** The [try] block of [ModelSyncManager.install_model]. *)
Definition install_model_try (cfg : config) (model_name temp_path : string) : Eff.M world bool :=
let* model_config := Eff.lift (models_lookup cfg model_name) in
let* destination := Eff.lift (mc_destination model_config) in
(* os.makedirs(dest_dir, exist_ok=True) *)
let* w := Eff.get in
do* (match dest w !! destination with
     | Some (Dir _) => Eff.ret tt
     | Some (File _) => Eff.raise
     | None =>
         if denied E (LocDestDir destination) then Eff.raise
         else Eff.modify (set_dest (insert destination (Dir ∅)))
     end) in
let* type := Eff.lift (mc_type model_config) in
do* (if String.eqb type "file" then
       let filename := default (basename temp_path) (mc_filename model_config) in
       let* content := read_cache temp_path in
       write_dest destination filename content
     else if String.eqb type "zip" then
       let* content := read_cache temp_path in
       let* members := Eff.lift (unzip E content) in
       Eff.for_each members (fun m => write_dest destination (fst m) (snd m))
     else Eff.ret tt) in
Eff.ret true.

(** [ModelSyncManager.install_model] *)
Definition install_model (cfg : config) (model_name temp_path : string) : Eff.M world bool :=
Eff.try_except (install_model_try cfg model_name temp_path) (Eff.ret false).

(** The path the model is downloaded to. *)
Definition temp_path_of (model_name : string) (model_config : model_config) (type : string) : string :=
if String.eqb type "file" then
  let filename := default (model_name ++ ".bin") (mc_filename model_config) in
  path_join (path_join cache_dir "downloads") filename
else path_join (path_join cache_dir "downloads") (model_name ++ ".zip").

(** The [try] block of [ModelSyncManager.download_model]. *)
Definition download_model_try (cfg : config) (model_name : string) : Eff.M world bool :=
let* model_config := Eff.lift (models_lookup cfg model_name) in
let url := mc_url model_config in
if negb (truthy_opt url) then
  do* emit (sync_error (ErrNoUrl model_name)) in Eff.ret false
else
  do* emit (sync_progress (Exactly (-1)) (MsgBackingUp model_name)) in
  let* _ := backup_model cfg model_name in
  let* type := Eff.lift (mc_type model_config) in
  let temp_path := temp_path_of model_name model_config type in
  do* (if denied E (LocCacheDir (dirname temp_path)) then Eff.raise else Eff.ret tt) in
  do* emit (sync_progress (Exactly (-1)) (MsgDownloading model_name)) in
  let* success := download_file (default EmptyString url) temp_path true in
  if negb success then Eff.ret false
  else
    let expected_hash := mc_hash model_config in
    let* intact :=
      (if truthy_opt expected_hash then
         do* emit (sync_progress (Exactly (-1)) (MsgVerifying model_name)) in
         let* w := Eff.get in
         if verify_file_integrity w temp_path expected_hash then Eff.ret true
         else do* emit (sync_error (ErrCorrupt model_name)) in Eff.ret false
       else Eff.ret true) in
    if negb intact then Eff.ret false
    else
      do* emit (sync_progress (Exactly (-1)) (MsgInstalling model_name)) in
      let* installed := install_model cfg model_name temp_path in
      if negb installed then Eff.ret false
      else
        let* w := Eff.get in
        let current_versions := get_model_versions w in
        let* version := Eff.lift (mc_version model_config) in
        do* save_model_versions (<[model_name := version]> current_versions) in
        do* emit (model_updated model_name) in
        Eff.ret true.

(** [ModelSyncManager.download_model] *)
Definition download_model (cfg : config) (model_name : string) : Eff.M world bool :=
Eff.try_except (download_model_try cfg model_name)
  (do* emit (sync_error (ErrDownloadModel model_name)) in Eff.ret false).

(** [ModelSyncManager.save_last_sync_info]: the record always says
    success; a failed write is swallowed. *)
Definition save_last_sync_info (cfg : config) : Eff.M world unit :=
let* t := now in
let sync_info :=
  {| si_timestamp := iso t;
     si_models_synced := fst <$> models cfg;
     si_success := true |} in
if denied E LocLastSyncFile then Eff.ret tt
else Eff.modify (set_last_sync_file (Some sync_info)).

(** The [try] block of [sync_thread] in
    [ModelSyncManager.sync_models_async]. *)
Definition sync_thread_try (cfg : config) (models_to_sync : option (list string)) : Eff.M world unit :=
let* w := Eff.get in
let models_to_sync_list :=
  match models_to_sync with
  | None => check_for_model_updates cfg w
  | Some l => l
  end in
match models_to_sync_list with
| [] =>
    do* emit (sync_progress (Exactly 100) MsgAllUpToDate) in
    emit sync_completed
| _ :: _ =>
    let total_models := Py.len models_to_sync_list in
    do* Eff.for_each (zip (seq 0 (length models_to_sync_list)) models_to_sync_list)
          (fun im =>
             do* emit (sync_progress (Percent (Z.of_nat (fst im)) total_models)
                         (MsgProcessing (snd im))) in
             let* success := download_model cfg (snd im) in
             (* if not success: continue *)
             Eff.ret tt) in
    do* save_last_sync_info cfg in
    do* emit (sync_progress (Exactly 100) MsgSyncDone) in
    emit sync_completed
end.

(** [sync_thread], the body run by [ModelSyncManager.sync_models_async]. *)
Definition sync_thread (cfg : config) (models_to_sync : option (list string)) : Eff.M world unit :=
do* emit sync_started in
Eff.try_except (sync_thread_try cfg models_to_sync) (emit (sync_error ErrSync)).

End WithEnv.

(** [ModelSyncManager.should_auto_sync]; [fromisoformat] is
    [datetime.fromisoformat] ([None] when the [try] block around it
    raises) and [now] the value of [datetime.now()] when the comparison
    is made. *)
Definition should_auto_sync (fromisoformat : string -> option datetime)
  (cfg : config) (w : world) (now : datetime) : bool :=
if negb (auto_update cfg) then false
else
  match last_sync_file w with
  | Some last_sync =>
      match fromisoformat (si_timestamp last_sync) with
      | Some last_sync_time =>
          let interval_hours := check_interval_hours cfg in
          match timedelta_hours interval_hours with
          | Some interval =>
              if micros now - micros last_sync_time <? interval then false else true
          | None => true (* except Exception: pass *)
          end
      | None => true
      end
  | None => true
  end.

(** *** The cache of downloads *)

Section CleanupCache.
(** Times are the floating-point numbers of [time.time()] and
    [os.path.getctime]; the subtraction and the comparison the source
    makes on them are kept abstract. *)
Context {T : Type}.
Variable time_time : T.                     (* the reading of [time.time()] *)
Variable minus : T -> Z -> T.               (* a time minus a number of seconds *)
Variable lt : T -> T -> bool.
Variable remove_denied : string -> bool.    (* the entries that cannot be deleted *)

(** An entry of the downloads directory. *)
Record cached := {
  c_ctime : T;               (* [os.path.getctime] *)
  c_is_file : bool }.        (* [os.path.isfile] *)

Definition unlink (name : string) (l : list (string * cached)) : list (string * cached) :=
filter (fun p => negb (String.eqb (fst p) name)) l.

(** [ModelSyncManager.cleanup_cache], on the listing of the downloads
    directory ([None] when the directory is missing).  [os.remove] of a
    file raises when it is refused, which ends the loop;
    [shutil.rmtree(..., ignore_errors=True)] does not. *)
Definition cleanup_cache (max_age_days : Z)
  : Eff.M (option (list (string * cached))) unit :=
Eff.try_except
  (let* downloads := Eff.get in
   match downloads with
   | None => Eff.ret tt
   | Some listing =>
       let cutoff_time := minus time_time (max_age_days * 24 * 60 * 60) in
       Eff.for_each listing
         (fun p =>
            if lt (c_ctime (snd p)) cutoff_time then
              if c_is_file (snd p) then
                if remove_denied (fst p) then Eff.raise
                else Eff.modify (fmap (unlink (fst p)))
              else
                if remove_denied (fst p) then Eff.ret tt
                else Eff.modify (fmap (unlink (fst p)))
            else Eff.ret tt)
   end)
  (Eff.ret tt).

End CleanupCache.

(** *** The configuration file *)

Definition default_model (type destination : string) (more : list (string * json)) : json :=
JObj ([("url", JStr EmptyString); ("version", JStr "1.0.0"); ("type", JStr type);
       ("destination", JStr destination)] ++ more ++ [("hash", JStr EmptyString)])%list.

(** [load_config]'s [default_config]. *)
Definition default_config : gmap string json :=
{[ "models" :=
     JObj [("vocos_model",
            default_model "zip" "models/vocos_model"
              [("files", JList [JStr "config.yaml"; JStr "pytorch_model.bin"])]);
           ("whisper_medium",
            default_model "file" "models/whisper" [("filename", JStr "medium.pt")]);
           ("secure_model",
            default_model "file" "secure_models" [("filename", JStr "model.enc")]);
           ("secure_vocab",
            default_model "file" "secure_models" [("filename", JStr "vocab.enc")])];
   "check_interval_hours" := JInt 24;
   "auto_update" := JBool true;
   "backup_old_models" := JBool true ]}.

Section ConfigFile.
Variable config_file_denied : bool.     (* the file cannot be opened for writing *)

(** [ModelSyncManager.save_config]: a failed write is printed and
    swallowed. *)
Definition save_config (config : gmap string json) (file : json_file) : json_file :=
if config_file_denied then file else Some (Some config).

(** [ModelSyncManager.load_config]: the configuration, and the file as it
    is left. *)
Definition load_config (file : json_file) : gmap string json * json_file :=
match file with
| Some (Some config) => (dict_merge default_config config, file)
| _ => (default_config, save_config default_config file)
end.

End ConfigFile.

End ModelSync.

(** ** auto_updater.py: the scheduler *)
Module AutoUpdater.
Import Py.
Local Open Scope eff_scope.

(** [self.settings] *)
Record settings := {
  auto_check_updates : bool;
  auto_check_models : bool;
  update_check_interval_hours : Z;
  model_check_interval_hours : Z;
  silent_update : bool;
  auto_install_updates : bool;
  auto_install_models : bool;
  last_update_check : option string;
  last_model_check : option string;
  startup_delay_seconds : Z }.

Definition set_last_update_check (v : option string) (s : settings) : settings :=
{| auto_check_updates := auto_check_updates s;
   auto_check_models := auto_check_models s;
   update_check_interval_hours := update_check_interval_hours s;
   model_check_interval_hours := model_check_interval_hours s;
   silent_update := silent_update s;
   auto_install_updates := auto_install_updates s;
   auto_install_models := auto_install_models s;
   last_update_check := v;
   last_model_check := last_model_check s;
   startup_delay_seconds := startup_delay_seconds s |}.

(** [load_settings]'s defaults. *)
Definition default_settings : settings :=
{| auto_check_updates := true;
   auto_check_models := true;
   update_check_interval_hours := 6;
   model_check_interval_hours := 24;
   silent_update := false;
   auto_install_updates := false;
   auto_install_models := true;
   last_update_check := None;
   last_model_check := None;
   startup_delay_seconds := 30 |}.

(** The surroundings: those of the update checker, the parser
    [datetime.fromisoformat], and whether the settings file can be
    written.  The parser gives [None] when it raises [ValueError], and
    also for a stamp with a UTC offset: the subtraction of such a time
    from the naive [datetime.now()] raises [TypeError], inside the same
    [try] block. *)
Record env := {
  checker_env : UpdateManager.env;
  fromisoformat : string -> option datetime;
  settings_file_denied : bool }.

(** What an observer sees, in order: the signals of [AutoUpdater], the
    signals of the update checker, and the writes of the settings file
    (with the settings written and whether they reached the disk). *)
Inductive event :=
| update_check_started
| update_check_completed (has_update : bool)
| checker_signal (e : UpdateManager.event)
| settings_saved (s : settings) (on_disk : bool).

(** [update_manager] is [None] when [init_managers] failed. *)
Record world := {
  current : settings;                       (* [self.settings] *)
  settings_file : option settings;
  update_manager : option UpdateManager.world;
  log : list event }.

Definition set_current (s : settings) (w : world) : world :=
{| current := s; settings_file := settings_file w;
   update_manager := update_manager w; log := log w |}.

Definition set_settings_file (v : option settings) (w : world) : world :=
{| current := current w; settings_file := v;
   update_manager := update_manager w; log := log w |}.

Definition set_update_manager (v : option UpdateManager.world) (w : world) : world :=
{| current := current w; settings_file := settings_file w;
   update_manager := v; log := log w |}.

Definition set_log (l : list event) (w : world) : world :=
{| current := current w; settings_file := settings_file w;
   update_manager := update_manager w; log := l |}.

Definition emit (e : event) : Eff.M world unit :=
Eff.modify (fun w => set_log (log w ++ [e]) w).

Section WithEnv.
Variable E : env.

(** [AutoUpdater.should_check_updates]; [now] is the value of
    [datetime.now()] when the comparison is made. *)
Definition should_check_updates (s : settings) (now : datetime) : bool :=
if negb (auto_check_updates s) then false
else
  let last_check := last_update_check s in
  if negb (truthy_opt last_check) then true
  else
    match fromisoformat E (default EmptyString last_check) with
    | Some last_check_time =>
        let interval_hours := update_check_interval_hours s in
        match timedelta_hours interval_hours with
        | Some interval => micros now - micros last_check_time >=? interval
        | None => true (* OverflowError; except Exception: return True *)
        end
    | None => true (* except Exception: return True *)
    end.

(** [AutoUpdater.should_check_models] *)
Definition should_check_models (s : settings) (now : datetime) : bool :=
if negb (auto_check_models s) then false
else
  let last_check := last_model_check s in
  if negb (truthy_opt last_check) then true
  else
    match fromisoformat E (default EmptyString last_check) with
    | Some last_check_time =>
        let interval_hours := model_check_interval_hours s in
        match timedelta_hours interval_hours with
        | Some interval => micros now - micros last_check_time >=? interval
        | None => true (* OverflowError; except Exception: return True *)
        end
    | None => true (* except Exception: return True *)
    end.

(** [AutoUpdater.save_settings()]: a failed write is printed and
    swallowed. *)
Definition save_settings : Eff.M world unit :=
let* w := Eff.get in
let on_disk := negb (settings_file_denied E) in
do* (if on_disk then Eff.modify (set_settings_file (Some (current w))) else Eff.ret tt) in
emit (settings_saved (current w) on_disk).

(** A call into the update checker: its state is [self.update_manager]'s,
    and the signals it emits are observed as they come. *)
Definition in_checker {A} (m : Eff.M UpdateManager.world A) : Eff.M world A :=
fun w =>
  match update_manager w with
  | None => (None, w)
  | Some um =>
      let '(r, um') := m um in
      let emitted := drop (length (UpdateManager.log um)) (UpdateManager.log um') in
      (r, set_log (log w ++ (checker_signal <$> emitted))
            (set_update_manager (Some um') w))
  end.

(** The [try] block of [check_thread] in
    [AutoUpdater.check_for_app_updates]. *)
Definition check_thread_try : Eff.M world unit :=
let* t := in_checker (UpdateManager.now (checker_env E)) in
do* Eff.modify (fun w => set_current (set_last_update_check (Some (iso t)) (current w)) w) in
do* save_settings in
let* has_update := in_checker (UpdateManager.check_for_updates (checker_env E)) in
emit (update_check_completed has_update).

(** [AutoUpdater.check_for_app_updates], with the thread it starts run
    to its end. *)
Definition check_for_app_updates : Eff.M world unit :=
let* w := Eff.get in
match update_manager w with
| None => Eff.ret tt
| Some _ =>
    do* emit update_check_started in
    Eff.try_except check_thread_try (emit (update_check_completed false))
end.

End WithEnv.

(** *** The settings file, as the JSON object it holds *)

(** [load_settings]'s [default_settings], as a dictionary. *)
Definition default_settings_dict : gmap string json :=
{[ "auto_check_updates" := JBool true;
   "auto_check_models" := JBool true;
   "update_check_interval_hours" := JInt 6;
   "model_check_interval_hours" := JInt 24;
   "silent_update" := JBool false;
   "auto_install_updates" := JBool false;
   "auto_install_models" := JBool true;
   "last_update_check" := JNull;
   "last_model_check" := JNull;
   "startup_delay_seconds" := JInt 30 ]}.

Section SettingsFile.
Variable cache_dir_denied : bool.         (* the cache directory cannot be created *)
Variable settings_write_denied : bool.    (* the file cannot be opened for writing *)

(** [os.makedirs(os.path.dirname(self.settings_file), exist_ok=True)]
    fails only when the directory is not there and cannot be created;
    where the file is, the directory is. *)
Definition makedirs_fails (file : json_file) : bool :=
match file with
| None => cache_dir_denied
| Some _ => false
end.

(** [AutoUpdater.save_settings(settings)], given the dictionary to
    write: any failure is printed and swallowed. *)
Definition save_settings_given (settings : gmap string json) (file : json_file) : json_file :=
if makedirs_fails file || settings_write_denied then file else Some (Some settings).

(** [AutoUpdater.load_settings]: the settings ([None] when an exception
    escapes: the [os.makedirs] that precedes the writing of the defaults
    is outside the [try] block), and the file as it is left. *)
Definition load_settings (file : json_file) : option (gmap string json) * json_file :=
match file with
| Some (Some settings) => (Some (dict_merge default_settings_dict settings), file)
| _ =>
    if makedirs_fails file then (None, file)
    else (Some default_settings_dict, save_settings_given default_settings_dict file)
end.

End SettingsFile.

End AutoUpdater.

(** ** Notions used to state the properties *)
Module Props.
Import Py.

Definition is_digit (c : ascii) : bool :=
let n := nat_of_ascii c in (48 <=? n)%nat && (n <=? 57)%nat.

(** Well-formed dotted-numeric version strings: one or more non-empty
    runs of decimal digits, separated by single dots.  [in_segment] tells
    whether the current run already has a digit. *)
Fixpoint dotted_go (in_segment : bool) (s : string) : bool :=
match s with
| EmptyString => in_segment
| String c s' =>
    if is_digit c then dotted_go true s'
    else if Ascii.eqb c "."%char then in_segment && dotted_go false s'
    else false
end.

Definition dotted_numeric (s : string) : bool := dotted_go false s.

(** Strings of decimal digits. *)
Fixpoint all_digits (s : string) : bool :=
match s with
| EmptyString => true
| String c s' => is_digit c && all_digits s'
end.

(** A non-empty run of decimal digits. *)
Definition digit_run (s : string) : Prop := s <> EmptyString /\ all_digits s = true.

(** The integer segments of a version string, when all of them parse. *)
Definition segments (s : string) : option (list Z) :=
mapM Py.int (split_char "."%char s).

(** Comparison of two integer lists of one length, first difference
    first. *)
Fixpoint lex (a b : list Z) : Z :=
match a, b with
| x :: a', y :: b' =>
    if x >? y then 1 else if x <? y then -1 else lex a' b'
| _, _ => 0
end.

Definition pad_to (n : nat) (l : list Z) : list Z := l ++ replicate (n - length l) 0.

(** A computation respects a relation between the state it starts from
    and the state it ends in, and a computation that lets no exception
    escape. *)
Definition respects {S A} (R : S -> S -> Prop) (m : Eff.M S A) : Prop :=
forall w, R w (snd (m w)).

Definition total {S A} (m : Eff.M S A) : Prop :=
forall w, is_Some (fst (m w)).

(** The log only grows, by events that satisfy [P]. *)
Definition log_grows {S Ev} (log : S -> list Ev) (P : Ev -> Prop) (w w' : S) : Prop :=
exists evs, log w' = (log w ++ evs)%list /\ Forall P evs.

(** The part [f] of the state is the same before and after. *)
Definition keeps {S X} (f : S -> X) (w w' : S) : Prop := f w' = f w.

(** The model a [sync_progress] signal announces as being processed. *)
Definition processing_name (e : ModelSync.event) : option string :=
match e with
| ModelSync.sync_progress _ (ModelSync.MsgProcessing model_name) => Some model_name
| _ => None
end.

(** The models announced as being processed, in order. *)
Definition processed (evs : list ModelSync.event) : list string :=
omap processing_name evs.

(** A list in descending order of [key]. *)
Fixpoint descending {A} (key : A -> Z) (l : list A) : Prop :=
match l with
| [] => True
| x :: l' => Forall (fun y => key x >= key y) l' /\ descending key l'
end.

(** The entries of the backup directory that [cleanup_old_backups]
    considers: directories whose name starts with [backup_]. *)
Definition is_snapshot (p : string * UpdateManager.entry) : bool :=
UpdateManager.is_dir (snd p) && Py.starts_with "backup_" (fst p).

Definition snapshots (l : list (string * UpdateManager.entry))
  : list (string * UpdateManager.entry) :=
filter (fun p => is_snapshot p) l.

Definition created (p : string * UpdateManager.entry) : Z := UpdateManager.ctime (snd p).

(** The listing of the backup directory (empty when it is missing). *)
Definition listing (w : UpdateManager.world) : list (string * UpdateManager.entry) :=
default [] (UpdateManager.backup_dir w).

(** The state after installing the given update files one after the
    other. *)
Definition after_installs (E : UpdateManager.env) (update_files : list string)
  (w : UpdateManager.world) : UpdateManager.world :=
fold_left (fun w f => snd (UpdateManager.install_update E f w)) update_files w.

(** Every one of these installs reports success, and takes its backup
    under a name not yet in the backup directory. *)
Fixpoint fresh_installs (E : UpdateManager.env) (update_files : list string)
  (w : UpdateManager.world) : Prop :=
match update_files with
| [] => True
| f :: rest =>
    UpdateManager.assoc
      ("backup_" +:+ Py.stamp (UpdateManager.clock E (UpdateManager.ticks w)))
      (listing w) = None /\
    fst (UpdateManager.install_update E f w) = Some true /\
    fresh_installs E rest (snd (UpdateManager.install_update E f w))
end.

(** The names that [rmtree] does delete among those of [doomed]. *)
Definition deleted (E : UpdateManager.env) (doomed : list (string * UpdateManager.entry))
  : list string :=
filter (fun n => UpdateManager.denied E (UpdateManager.LocRemove n) = false) (fst <$> doomed).

(** The snapshots of a listing, most recent first, as
    [cleanup_old_backups] ranks them. *)
Definition ranked (l : list (string * UpdateManager.entry))
  : list (string * UpdateManager.entry) :=
Py.sort_desc created (snapshots l).

(** The backup directory holds [before] followed by one directory
    [name]. *)
Definition holds_new_snapshot (before : list (string * UpdateManager.entry))
  (name : string) (w : UpdateManager.world) : Prop :=
exists e, UpdateManager.backup_dir w = Some (before ++ [(name, e)])%list /\
          UpdateManager.is_dir e = true.

(** No helper process is started by this event. *)
Definition starts_no_helper (e : UpdateManager.event) : Prop :=
match e with
| UpdateManager.helper_started _ _ => False
| _ => True
end.

(** What [download_file] starts from: the bytes already at the path when
    the download resumes, nothing otherwise. *)
Definition kept (w : ModelSync.world) (local_path : string) (resume : bool) : list byte :=
match ModelSync.cache w !! local_path with
| Some (File content) => if resume then content else []
| _ => []
end.

(** The files of a destination directory (none when it is not there). *)
Definition dest_files (w : ModelSync.world) (destination : string) : gmap string (list byte) :=
match ModelSync.dest w !! destination with
| Some (Dir entries) => entries
| _ => ∅
end.

(** A directory after the members of an archive are written into it, one
    after the other. *)
Definition write_members (members : list (string * list byte)) (old : gmap string (list byte))
  : gmap string (list byte) :=
fold_left (fun acc m => <[fst m := snd m]> acc) members old.

(** The extraction directory after the members of an archive are
    extracted into it. *)
Definition extract_all (members : list (string * list byte)) (l : list (string * list byte))
  : list (string * list byte) :=
fold_left (fun l m => UpdateManager.assoc_set (fst m) (snd m) l) members l.

(** A directory with one more file, when there is one to add. *)
Definition opt_insert (k : string) (o : option (list byte)) (m : gmap string (list byte))
  : gmap string (list byte) :=
match o with Some c => <[k := c]> m | None => m end.

(** The character [c] does not occur in [s]. *)
Fixpoint lacks (c : ascii) (s : string) : bool :=
match s with
| EmptyString => true
| String d s' => negb (Ascii.eqb d c) && lacks c s'
end.

(** The asset names that [download_update] takes for an update: those
    that end, in lower case, with [.exe] or [.zip]. *)
Definition is_update_name (n : string) : bool :=
ends_with ".exe" (lower n) || ends_with ".zip" (lower n).

(** A progress signal of a download of declared size [file_size]. *)
Definition progress_of (file_size : Z) (s : UpdateManager.asset_signal) : Prop :=
exists downloaded_size, s = UpdateManager.progress_updated downloaded_size file_size.

Definition add_signals (evs : list UpdateManager.asset_signal)
  (st : UpdateManager.download_state) : UpdateManager.download_state :=
{| UpdateManager.disk := UpdateManager.disk st;
   UpdateManager.signals := (UpdateManager.signals st ++ evs)%list |}.

(** The event is not the announcement of an update. *)
Definition announces_no_update (e : UpdateManager.event) : Prop :=
match e with
| UpdateManager.update_available _ => False
| _ => True
end.

End Props.

(** ** Concrete runs used as examples *)
Module Scenario.
Import Py.

Definition bytes (s : string) : list byte := list_byte_of_string s.

Definition epoch : datetime :=
{| stamp := "20240101_000000"; iso := "2024-01-01T00:00:00"; micros := 0 |}.

(** *** A model server *)

Definition plain (status : Z) (chunks : list (list byte)) : ModelSync.response :=
{| ModelSync.status_code := status;
   ModelSync.content_type := Some "application/octet-stream";
   ModelSync.content_length := None;
   ModelSync.text := EmptyString;
   ModelSync.body_chunks := chunks;
   ModelSync.stream_breaks := false |}.

(** An environment around a server that answers every request by
    [answer], with no write refused except those in [refused]. *)
Definition model_env (answer : option Z -> option ModelSync.response)
  (refused : ModelSync.location -> bool) : ModelSync.env :=
{| ModelSync.http_head := fun _ => None;
   ModelSync.http_get := fun _ range => answer range;
   ModelSync.clock := fun _ => epoch;
   ModelSync.unzip := fun _ => None;
   ModelSync.dir_size := fun _ => 4096;
   ModelSync.denied := refused |}.

Definition empty_world : ModelSync.world :=
{| ModelSync.cache := ∅; ModelSync.dest := ∅; ModelSync.backups := ∅;
   ModelSync.version_file := None; ModelSync.last_sync_file := None;
   ModelSync.ticks := 0; ModelSync.log := [] |}.

Definition nothing_refused : ModelSync.location -> bool := fun _ => false.

(** A file holding [abc], and its SHA-256 digest in upper case. *)
Definition abc_world : ModelSync.world :=
ModelSync.set_cache (insert "abc.bin" (File (bytes "abc"))) empty_world.

Definition abc_digest_upper : string :=
"BA7816BF8F01CFEA414140DE5DAE2223B00361A396177A9CB410FF61F20015AD".

(** *** A model [m1] installed at version 1.0.0, offered at 1.1.0 *)

Definition m1_config : ModelSync.model_config :=
{| ModelSync.mc_url := Some "https://example.org/m1.bin";
   ModelSync.mc_version := Some "1.1.0";
   ModelSync.mc_type := Some "file";
   ModelSync.mc_destination := Some "models/m1";
   ModelSync.mc_filename := Some "m1.bin";
   ModelSync.mc_hash := Some EmptyString |}.

Definition m1_cfg : ModelSync.config :=
{| ModelSync.models := [("m1", m1_config)];
   ModelSync.check_interval_hours := 24;
   ModelSync.auto_update := true;
   ModelSync.backup_old_models := true |}.

Definition m1_world : ModelSync.world :=
ModelSync.set_version_file (Some {[ "m1" := "1.0.0" ]})
  (ModelSync.set_dest (insert "models/m1" (Dir {[ "m1.bin" := bytes "old" ]})) empty_world).

Definition m1_temp_path : string := ".cache/models/downloads/m1.bin".

(** The server delivers the new artifact, and the copy made by the backup
    is refused. *)
Definition backup_refused (l : ModelSync.location) : bool :=
match l with
| ModelSync.LocBackupCopy _ => true
| _ => false
end.

Definition m1_env_backup_fails : ModelSync.env :=
model_env (fun _ => Some (plain 200 [bytes "new"])) backup_refused.

(** The server answers with an empty body and no hash is configured. *)
Definition m1_env_empty_body : ModelSync.env :=
model_env (fun _ => Some (plain 200 [])) nothing_refused.

(** *** A resumed download from a server that ignores [Range] *)

Definition remote_content : list byte := bytes "abcde".

(** The size probe reports 5 bytes; every GET is answered 200 with the
    whole content, whatever the range asked for. *)
Definition range_ignoring_env : ModelSync.env :=
{| ModelSync.http_head := fun _ =>
     Some {| ModelSync.status_code := 200;
             ModelSync.content_type := Some "application/octet-stream";
             ModelSync.content_length := Some "5";
             ModelSync.text := EmptyString;
             ModelSync.body_chunks := [];
             ModelSync.stream_breaks := false |};
   ModelSync.http_get := fun _ _ => Some (plain 200 [remote_content]);
   ModelSync.clock := fun _ => epoch;
   ModelSync.unzip := fun _ => None;
   ModelSync.dir_size := fun _ => 4096;
   ModelSync.denied := nothing_refused |}.

(** The first three bytes are already on disk. *)
Definition partial_world : ModelSync.world :=
ModelSync.set_cache (insert "downloads/m.bin" (File (bytes "abc"))) empty_world.

(** *** A batch in which every model fails *)

(** [m1] has no URL, [m2] is not configured, and the server of [m3] cannot
    be reached. *)
Definition failing_cfg : ModelSync.config :=
{| ModelSync.models :=
     [("m1", {| ModelSync.mc_url := Some EmptyString;
                ModelSync.mc_version := Some "1.1.0";
                ModelSync.mc_type := Some "file";
                ModelSync.mc_destination := Some "models/m1";
                ModelSync.mc_filename := Some "m1.bin";
                ModelSync.mc_hash := Some EmptyString |});
      ("m3", m1_config)];
   ModelSync.check_interval_hours := 24;
   ModelSync.auto_update := true;
   ModelSync.backup_old_models := true |}.

Definition unreachable_env : ModelSync.env := model_env (fun _ => None) nothing_refused.

(** *** The scheduler *)

Definition app_env (release : option UpdateManager.release)
  (times : nat -> datetime) (refused : UpdateManager.location -> bool)
  : UpdateManager.env :=
{| UpdateManager.exe_path := "app/VoiceApp.exe";
   UpdateManager.current_version := "1.0.0";
   UpdateManager.latest_release := release;
   UpdateManager.clock := times;
   UpdateManager.unzip := fun _ => None;
   UpdateManager.denied := refused |}.

Definition app_world : UpdateManager.world :=
{| UpdateManager.exe := Some (bytes "exe-1.0.0");
   UpdateManager.exe_new := None;
   UpdateManager.app_files := {[ "version.json" := bytes "1.0.0" ]};
   UpdateManager.cache := {[ "update.exe" := bytes "exe-1.1.0" ]};
   UpdateManager.update_extract := [];
   UpdateManager.backup_dir := Some [];
   UpdateManager.last_check_file := None;
   UpdateManager.ticks := 0;
   UpdateManager.log := [] |}.

(** The release source cannot be reached. *)
Definition offline_env : AutoUpdater.env :=
{| AutoUpdater.checker_env := app_env None (fun _ => epoch) (fun _ => false);
   AutoUpdater.fromisoformat := fun _ => None;
   AutoUpdater.settings_file_denied := false |}.

Definition scheduler_world : AutoUpdater.world :=
{| AutoUpdater.current := AutoUpdater.default_settings;
   AutoUpdater.settings_file := None;
   AutoUpdater.update_manager := Some app_world;
   AutoUpdater.log := [] |}.

(** *** Four installs in a row *)

Definition two_digits (n : nat) : string :=
String (ascii_of_nat (48 + n / 10)) (String (ascii_of_nat (48 + n mod 10)) EmptyString).

(** A clock that advances by one second at each reading. *)
Definition ticking (n : nat) : datetime :=
{| stamp := "20240101_0000" +:+ two_digits n;
   iso := "2024-01-01T00:00:" +:+ two_digits n;
   micros := Z.of_nat n * 1000000 |}.

Definition installer_env : UpdateManager.env := app_env None ticking (fun _ => false).

Definition four_updates : list string :=
["update.exe"; "update.exe"; "update.exe"; "update.exe"].

(** The backup directory cannot be written. *)
Definition no_backup_env : UpdateManager.env :=
app_env None ticking
  (fun l => match l with UpdateManager.LocBackupDir _ => true | _ => false end).

(** *** More model configurations *)

Definition one_model (mc : ModelSync.model_config) : ModelSync.config :=
{| ModelSync.models := [("m1", mc)];
   ModelSync.check_interval_hours := 24;
   ModelSync.auto_update := true;
   ModelSync.backup_old_models := true |}.

Definition m1_variant (version type hash : string) : ModelSync.model_config :=
{| ModelSync.mc_url := Some "https://example.org/m1.bin";
   ModelSync.mc_version := Some version;
   ModelSync.mc_type := Some type;
   ModelSync.mc_destination := Some "models/m1";
   ModelSync.mc_filename := Some "m1.bin";
   ModelSync.mc_hash := Some hash |}.

(** The configured version carries a [v] prefix. *)
Definition v_cfg : ModelSync.config := one_model (m1_variant "v2.0.0" "file" EmptyString).

(** The configured type is neither [file] nor [zip]. *)
Definition tar_cfg : ModelSync.config := one_model (m1_variant "1.1.0" "tar" EmptyString).

(** A hash is configured that the artifact does not have. *)
Definition hashed_cfg : ModelSync.config := one_model (m1_variant "1.1.0" "file" "00").

(** The server delivers the new artifact and nothing is refused. *)
Definition delivering_env : ModelSync.env :=
model_env (fun _ => Some (plain 200 [bytes "new"])) nothing_refused.

(** The new artifact of [m1] is in the download cache. *)
Definition m1_downloaded : ModelSync.world :=
ModelSync.set_cache (insert m1_temp_path (File (bytes "new"))) m1_world.

(** A server whose first answer breaks off after three bytes of [abcde],
    and which honours the range asked for afterwards. *)
Definition flaky_env : ModelSync.env :=
model_env
  (fun range =>
     match range with
     | None =>
         Some {| ModelSync.status_code := 200;
                 ModelSync.content_type := Some "application/octet-stream";
                 ModelSync.content_length := None;
                 ModelSync.text := EmptyString;
                 ModelSync.body_chunks := [bytes "abc"];
                 ModelSync.stream_breaks := true |}
     | Some _ => Some (plain 206 [bytes "de"])
     end)
  nothing_refused.

(** *** The downloads directory, with times in whole seconds *)

Definition downloads_listing : list (string * ModelSync.cached (T := Z)) :=
[("old.bin", {| ModelSync.c_ctime := 100; ModelSync.c_is_file := true |});
 ("new.bin", {| ModelSync.c_ctime := 999900; ModelSync.c_is_file := true |});
 ("old_dir", {| ModelSync.c_ctime := 50; ModelSync.c_is_file := false |})].

(** *** The download of an application update *)

Definition release_assets (exe_name : string) : list UpdateManager.asset :=
[ {| UpdateManager.asset_name := Some "notes.txt";
     UpdateManager.browser_download_url := Some "https://example.org/notes.txt";
     UpdateManager.asset_size := 5 |};
  {| UpdateManager.asset_name := Some exe_name;
     UpdateManager.browser_download_url := Some "https://example.org/app";
     UpdateManager.asset_size := 9 |} ].

(** The server sends these bytes for every asset. *)
Definition asset_server (content : string) : UpdateManager.fetcher :=
{| UpdateManager.fetch := fun _ =>
     Some {| UpdateManager.asset_status_code := 200;
             UpdateManager.asset_chunks := [bytes content];
             UpdateManager.asset_stream_breaks := false |};
   UpdateManager.cache_write_denied := fun _ => false |}.

Definition download_start : UpdateManager.download_state :=
{| UpdateManager.disk := app_world; UpdateManager.signals := [] |}.

(** The transfer breaks off after the first four bytes. *)
Definition breaking_server : UpdateManager.fetcher :=
{| UpdateManager.fetch := fun _ =>
     Some {| UpdateManager.asset_status_code := 200;
             UpdateManager.asset_chunks := [bytes "exe-"];
             UpdateManager.asset_stream_breaks := true |};
   UpdateManager.cache_write_denied := fun _ => false |}.

(** *** A release newer than the running version *)

Definition release_1_1 : UpdateManager.release :=
{| UpdateManager.tag_name := Some "v1.1.0";
   UpdateManager.html_url := "https://example.org/releases/v1.1.0";
   UpdateManager.release_name := "1.1.0";
   UpdateManager.release_body := "notes" |}.

Definition online_env : UpdateManager.env :=
app_env (Some release_1_1) ticking (fun _ => false).

(** An asset with a suitable name and no download URL. *)
Definition assets_without_url : list UpdateManager.asset :=
[ {| UpdateManager.asset_name := Some "VoiceApp.exe";
     UpdateManager.browser_download_url := None;
     UpdateManager.asset_size := 9 |} ].

(** *** The scheduler after a first check *)

(** The parser reads the stamp of [epoch] and no other. *)
Definition reading_env : AutoUpdater.env :=
{| AutoUpdater.checker_env := app_env None (fun _ => epoch) (fun _ => false);
   AutoUpdater.fromisoformat :=
     fun s => if String.eqb s "2024-01-01T00:00:00" then Some epoch else None;
   AutoUpdater.settings_file_denied := false |}.

(** The settings with automatic checks on, a last check at [epoch] and
    the given interval. *)
Definition checked_at_epoch (interval_hours : Z) : AutoUpdater.settings :=
{| AutoUpdater.auto_check_updates := true;
   AutoUpdater.auto_check_models := true;
   AutoUpdater.update_check_interval_hours := interval_hours;
   AutoUpdater.model_check_interval_hours := 24;
   AutoUpdater.silent_update := false;
   AutoUpdater.auto_install_updates := false;
   AutoUpdater.auto_install_models := true;
   AutoUpdater.last_update_check := Some "2024-01-01T00:00:00";
   AutoUpdater.last_model_check := None;
   AutoUpdater.startup_delay_seconds := 30 |}.

Definition one_hour_later : datetime :=
{| stamp := "20240101_010000"; iso := "2024-01-01T01:00:00"; micros := 3600000000 |}.

Definition six_hours_later : datetime :=
{| stamp := "20240101_060000"; iso := "2024-01-01T06:00:00"; micros := 21600000000 |}.

(** *** A server that refuses with an HTML page *)

(** The page of a 403 answer, with the marker and the confirmation link
    that [download_file] looks for. *)
Definition forbidden_page : ModelSync.response :=
{| ModelSync.status_code := 403;
   ModelSync.content_type := Some "text/html; charset=utf-8";
   ModelSync.content_length := None;
   ModelSync.text :=
     "<html>download_warning <a href=" +:+ ModelSync.quote
     +:+ "/uc?export=download&confirm=t" +:+ ModelSync.quote +:+ ">retry</a></html>";
   ModelSync.body_chunks := [bytes "<html>"];
   ModelSync.stream_breaks := false |}.

(** Every request, the one for the confirmation link too, gets that page. *)
Definition forbidden_env : ModelSync.env :=
model_env (fun _ => Some forbidden_page) nothing_refused.

(** The directory of the downloads cannot be made. *)
Definition no_cache_dir_env : ModelSync.env :=
model_env (fun _ => Some (plain 200 [bytes "new"]))
  (fun l => match l with ModelSync.LocCacheDir _ => true | _ => false end).

End Scenario.

(** * Properties *)

Local Open Scope list_scope.

(** ** The primitives on small inputs *)

Example split_keeps_empty_pieces : Py.split_char "." "1..2." = ["1"; ""; "2"; ""]%string.
Proof. vm_compute. reflexivity. Qed.

Example split_str_file_id :
  Py.split_str "/file/d/" "https://drive.google.com/file/d/abc123/view"
  = ["https://drive.google.com"; "abc123/view"]%string.
Proof. vm_compute. reflexivity. Qed.

Example direct_url_of_sharing_link :
  ModelSync.get_google_drive_direct_url "https://drive.google.com/file/d/abc123/view"
  = "https://drive.google.com/uc?export=download&id=abc123"%string.
Proof. vm_compute. reflexivity. Qed.

Example int_accepts_sign_space_underscore : Py.int " +1_000 " = Some 1000.
Proof. vm_compute. reflexivity. Qed.

Example int_rejects_double_underscore : Py.int "1__0" = None.
Proof. vm_compute. reflexivity. Qed.

Example int_rejects_v : Py.int "v2" = None.
Proof. vm_compute. reflexivity. Qed.

Example int_rejects_separator_before_digits :
  Py.int (String (ascii_of_nat 28) "12") = None /\
  Py.int (String (ascii_of_nat 9) "12") = Some 12.
Proof. split; vm_compute; reflexivity. Qed.

Example app_compare_falls_back_to_strings :
  UpdateManager.compare_versions "1.0.beta" "1.0.alpha" = 1.
Proof. vm_compute. reflexivity. Qed.

Example model_compare_numeric : ModelSync.compare_versions "2.0.0" "1.9.9" = 1.
Proof. vm_compute. reflexivity. Qed.

Example slice_from_negative : Py.slice_from (-1) [1; 2; 3] = [3].
Proof. vm_compute. reflexivity. Qed.

Example sort_desc_is_stable :
  Py.sort_desc snd [("a", 1); ("b", 2); ("c", 1); ("d", 2)]%string
  = [("b", 2); ("d", 2); ("a", 1); ("c", 1)]%string.
Proof. vm_compute. reflexivity. Qed.

(** The SHA-256 model against the digests that [hashlib] gives. *)
Example sha256_abc :
  Sha256.hexdigest (list_byte_of_string "abc")
  = "ba7816bf8f01cfea414140de5dae2223b00361a396177a9cb410ff61f20015ad"%string.
Proof. vm_compute. reflexivity. Qed.

Example sha256_empty :
  Sha256.hexdigest []
  = "e3b0c44298fc1c149afbf4c8996fb92427ae41e4649b934ca495991b7852b855"%string.
Proof. vm_compute. reflexivity. Qed.

Example sha256_two_blocks :
  Sha256.hexdigest (replicate 100 "a"%byte)
  = "2816597888e4a0d3a36b82b83316ab32680eb8f00f8cd3b904d681246d285a0e"%string.
Proof. vm_compute. reflexivity. Qed.

(** ** Version comparison *)
Section Compare.
Import Py Props.

Lemma lex_antisym (a : list Z) : forall b, lex a b = - lex b a.
Proof.
  induction a as [|x a IH]; intros [|y b]; simpl; try reflexivity.
  rewrite (IH b).
  destruct (Z.gtb_spec x y), (Z.ltb_spec x y), (Z.gtb_spec y x), (Z.ltb_spec y x);
    try lia; reflexivity.
Qed.

Lemma lex_refl (a : list Z) : lex a a = 0.
Proof.
  induction a as [|x a IH]; simpl; [reflexivity|].
  destruct (Z.gtb_spec x x), (Z.ltb_spec x x); lia.
Qed.

Lemma lex_range (a : list Z) : forall b, lex a b = 1 \/ lex a b = -1 \/ lex a b = 0.
Proof.
  induction a as [|x a IH]; intros [|y b]; simpl; auto.
  destruct (x >? y); auto. destruct (x <? y); auto.
Qed.

Lemma lex_app_same (z a : list Z) :
  forall b, length a = length b -> lex (a ++ z) (b ++ z) = lex a b.
Proof.
  induction a as [|x a IH]; intros [|y b] Hlen; simpl in *; try discriminate.
  - apply lex_refl.
  - destruct (x >? y); [reflexivity|]. destruct (x <? y); [reflexivity|].
    apply IH. lia.
Qed.

Lemma lex_trans (a : list Z) :
  forall b c, length a = length b -> length b = length c ->
  lex a b >= 0 -> lex b c >= 0 -> lex a c >= 0.
Proof.
  induction a as [|x a IH]; intros [|y b] [|z c] Hab Hbc; simpl in *;
    try discriminate; try lia.
  destruct (Z.gtb_spec x y), (Z.ltb_spec x y), (Z.gtb_spec y z), (Z.ltb_spec y z),
    (Z.gtb_spec x z), (Z.ltb_spec x z); try lia.
  intros. apply (IH b c); lia.
Qed.

Lemma pad_to_length (n : nat) (l : list Z) :
  (length l <= n)%nat -> length (pad_to n l) = n.
Proof. intros H. unfold pad_to. rewrite length_app, length_replicate. lia. Qed.

Lemma pad_to_more (m n : nat) (l : list Z) :
  (length l <= m)%nat -> (m <= n)%nat ->
  pad_to n l = pad_to m l ++ replicate (n - m) 0.
Proof.
  intros H1 H2. unfold pad_to. rewrite <- app_assoc, <- replicate_add.
  do 2 f_equal. lia.
Qed.

(** Padding further, on both sides, does not change the comparison. *)
Lemma lex_pad_more (m n : nat) (a b : list Z) :
  (length a <= m)%nat -> (length b <= m)%nat -> (m <= n)%nat ->
  lex (pad_to n a) (pad_to n b) = lex (pad_to m a) (pad_to m b).
Proof.
  intros Ha Hb Hmn.
  rewrite (pad_to_more m n a), (pad_to_more m n b) by lia.
  apply lex_app_same. rewrite !pad_to_length; lia.
Qed.

(** The index loop of the model synchroniser is [lex] on what is left. *)
Lemma ms_loop_lex (v1 v2 : list Z) (n : nat) :
  forall k, length v1 = (k + n)%nat -> length v2 = (k + n)%nat ->
  ModelSync.compare_loop v1 v2 (seq k n) = Some (lex (drop k v1) (drop k v2)).
Proof.
  induction n as [|n IH]; intros k H1 H2; simpl.
  - rewrite !drop_ge by lia. reflexivity.
  - destruct (lookup_lt_is_Some_2 v1 k) as [x Hx]; [lia|].
    destruct (lookup_lt_is_Some_2 v2 k) as [y Hy]; [lia|].
    unfold ModelSync.compare_step. rewrite Hx, Hy. simpl.
    rewrite (drop_S _ _ _ Hx), (drop_S _ _ _ Hy). simpl.
    destruct (x >? y); [reflexivity|]. destruct (x <? y); [reflexivity|].
    apply IH; lia.
Qed.

Lemma extend_pad_to (x : list Z) (m : nat) :
  Py.extend x 0 (Z.of_nat m - Py.len x) = pad_to m x.
Proof.
  unfold Py.extend, pad_to, Py.len. do 2 f_equal. lia.
Qed.

Lemma max_len_nat {A B} (x : list A) (y : list B) :
  Z.max (Py.len x) (Py.len y) = Z.of_nat (Nat.max (length x) (length y)).
Proof. unfold Py.len. lia. Qed.

(** On integer segments the model synchroniser compares the zero-padded
    lists. *)
Lemma ms_compare_lex (a b : string) (x y : list Z) :
  segments a = Some x -> segments b = Some y ->
  ModelSync.compare_versions a b
  = lex (pad_to (Nat.max (length x) (length y)) x)
        (pad_to (Nat.max (length x) (length y)) y).
Proof.
  intros Ha Hb. unfold ModelSync.compare_versions, ModelSync.compare_versions_try.
  unfold segments in Ha, Hb. rewrite Ha, Hb. simpl.
  rewrite max_len_nat, !extend_pad_to. unfold Py.range. rewrite Nat2Z.id.
  rewrite ms_loop_lex by (rewrite pad_to_length; lia).
  reflexivity.
Qed.

Lemma ms_compare_malformed (a b : string) :
  segments a = None \/ segments b = None -> ModelSync.compare_versions a b = 0.
Proof.
  unfold ModelSync.compare_versions, ModelSync.compare_versions_try, segments.
  intros [H|H]; rewrite H; simpl; [reflexivity|].
  destruct (mapM Py.int (split_char "." a)); reflexivity.
Qed.

(** *** The text side: [int], [split] and [lstrip] *)

Lemma split_char_cons (sep c : ascii) (s : string) :
  Ascii.eqb c sep = false ->
  exists seg rest, split_char sep (String c s) = String c seg :: rest.
Proof.
  intros H. simpl. rewrite H. destruct (split_char sep s) as [|x xs]; eauto.
Qed.

Lemma split_char_nonempty (sep : ascii) (s : string) : split_char sep s <> [].
Proof.
  destruct s as [|c s]; simpl; [discriminate|].
  destruct (Ascii.eqb c sep); [discriminate|].
  destruct (split_char sep s); discriminate.
Qed.

Lemma rstrip_space_cons (c : ascii) (s : string) :
  is_space c = false -> exists t, rstrip_space (String c s) = String c t.
Proof.
  intros H. simpl. rewrite H. destruct (rstrip_space s); eauto.
Qed.

(** [int] reads the stripped text: sign first. *)
Lemma int_unsigned (c : ascii) (t : string) (s : string) :
  strip_space s = String c t ->
  Ascii.eqb c "+" = false -> Ascii.eqb c "-" = false ->
  Py.int s = parse_digits (String c t).
Proof.
  intros Hs Hp Hm. unfold Py.int. rewrite Hs.
  destruct c as [[] [] [] [] [] [] [] []]; try reflexivity; discriminate.
Qed.

Lemma int_v (s : string) : Py.int (String "v" s) = None.
Proof.
  destruct (rstrip_space_cons "v" s eq_refl) as [t Ht].
  rewrite (int_unsigned "v" t); [reflexivity| |reflexivity|reflexivity].
  unfold strip_space. simpl lstrip_space. exact Ht.
Qed.

(** A version whose segments are all integers has no leading [v]. *)
Lemma lstrip_v_segments (a : string) (x : list Z) :
  segments a = Some x -> lstrip_char "v" a = a.
Proof.
  destruct a as [|c a]; [reflexivity|]. intros H. simpl.
  destruct (Ascii.eqb_spec c "v") as [->|Hc]; [|reflexivity].
  exfalso. unfold segments in H.
  destruct (split_char_cons "." "v" a eq_refl) as (seg & rest & Hsplit).
  rewrite Hsplit in H. simpl in H. rewrite int_v in H. discriminate.
Qed.

Lemma is_digit_not_space (c : ascii) : is_digit c = true -> is_space c = false.
Proof.
  unfold is_digit, is_space. intros H.
  apply andb_true_iff in H as [H1 H2].
  apply Nat.leb_le in H1. apply Nat.leb_le in H2.
  apply orb_false_iff. split.
  - apply andb_false_iff. right. apply Nat.leb_gt. lia.
  - apply Nat.eqb_neq. lia.
Qed.

Lemma is_digit_val (c : ascii) : is_digit c = true -> is_Some (digit_val c).
Proof.
  unfold is_digit, digit_val. intros H.
  apply andb_true_iff in H as [H1 H2].
  apply Nat.leb_le in H1. apply Nat.leb_le in H2.
  destruct (Z.leb_spec 48 (Z.of_nat (nat_of_ascii c))); [|lia].
  destruct (Z.leb_spec (Z.of_nat (nat_of_ascii c)) 57); [|lia].
  simpl. eauto.
Qed.

Lemma is_digit_chars (c : ascii) :
  is_digit c = true ->
  Ascii.eqb c "+" = false /\ Ascii.eqb c "-" = false /\
  Ascii.eqb c "_" = false /\ Ascii.eqb c "." = false.
Proof.
  destruct c as [[] [] [] [] [] [] [] []]; intros H; try discriminate H;
    repeat split; reflexivity.
Qed.

Lemma rstrip_space_digits (s : string) : all_digits s = true -> rstrip_space s = s.
Proof.
  induction s as [|c s IH]; [reflexivity|]. simpl. intros H.
  apply andb_true_iff in H as [Hc Hs]. rewrite (IH Hs).
  rewrite (is_digit_not_space c Hc). destruct s; reflexivity.
Qed.

Lemma digits_go_digits (s : string) :
  forall acc, all_digits s = true -> is_Some (digits_go acc false s).
Proof.
  induction s as [|c s IH]; intros acc H; simpl; [eauto|].
  simpl in H. apply andb_true_iff in H as [Hc Hs].
  destruct (is_digit_chars c Hc) as (_ & _ & Hu & _). rewrite Hu.
  destruct (is_digit_val c Hc) as [d Hd]. rewrite Hd. apply IH, Hs.
Qed.

Lemma int_digits (c : ascii) (s : string) :
  all_digits (String c s) = true -> is_Some (Py.int (String c s)).
Proof.
  intros H. pose proof H as H'. simpl in H'.
  apply andb_true_iff in H' as [Hc Hs].
  destruct (is_digit_chars c Hc) as (Hp & Hm & _ & _).
  rewrite (int_unsigned c s); [| |exact Hp|exact Hm].
  - simpl. destruct (is_digit_val c Hc) as [d Hd]. rewrite Hd.
    apply digits_go_digits, Hs.
  - unfold strip_space. simpl lstrip_space.
    rewrite (is_digit_not_space c Hc). apply rstrip_space_digits, H.
Qed.

Lemma dotted_go_split (s : string) :
  forall b, dotted_go b s = true ->
  exists first rest, split_char "." s = first :: rest /\
    all_digits first = true /\ (b = false -> first <> EmptyString) /\
    Forall digit_run rest.
Proof.
  induction s as [|c s IH]; intros b H; simpl in H.
  - exists EmptyString, []. subst b. repeat split; [discriminate|constructor].
  - destruct (is_digit c) eqn:Hc.
    + destruct (IH true H) as (f & r & Hsplit & Hf & _ & Hr).
      destruct (is_digit_chars c Hc) as (_ & _ & _ & Hdot).
      exists (String c f), r. simpl. rewrite Hdot, Hsplit.
      repeat split; [simpl; rewrite Hc; exact Hf|discriminate|exact Hr].
    + destruct (Ascii.eqb c ".") eqn:Hdot; [|discriminate].
      apply andb_true_iff in H as [Hb H].
      destruct (IH false H) as (f & r & Hsplit & Hf & Hne & Hr).
      exists EmptyString, (f :: r). simpl. rewrite Hdot, Hsplit.
      repeat split; [subst b; discriminate|].
      constructor; [split; auto|exact Hr].
Qed.

Lemma digit_run_int (s : string) : digit_run s -> is_Some (Py.int s).
Proof.
  intros [Hne Hd]. destruct s as [|c s]; [contradiction|]. apply int_digits, Hd.
Qed.

(** Every segment of a well-formed dotted-numeric string is an integer. *)
Lemma dotted_numeric_segments (s : string) :
  dotted_numeric s = true -> is_Some (segments s).
Proof.
  intros H. destruct (dotted_go_split s false H) as (f & r & Hsplit & Hf & Hne & Hr).
  unfold segments. rewrite Hsplit.
  assert (Hall : Forall (fun seg => is_Some (Py.int seg)) (f :: r)).
  { constructor; [apply digit_run_int; split; auto|].
    eapply Forall_impl; [exact Hr|]. intros seg. apply digit_run_int. }
  clear -Hall. induction Hall as [|seg l [n Hn] _ [k Hk]]; [eexists; reflexivity|].
  exists (n :: k). simpl. rewrite Hn. simpl. rewrite Hk. reflexivity.
Qed.

(** *** The application updater agrees with the model synchroniser on
    integer segments *)

Lemma um_step_ms (v1 v2 : list string) (x1 x2 : list Z) (i : nat) :
  Forall2 (fun s n => Py.int s = Some n) v1 x1 ->
  Forall2 (fun s n => Py.int s = Some n) v2 x2 ->
  UpdateManager.compare_step v1 v2 i = ModelSync.compare_step x1 x2 i.
Proof.
  intros H1 H2. unfold UpdateManager.compare_step, ModelSync.compare_step.
  destruct (v1 !! i) as [s1|] eqn:E1.
  - destruct (Forall2_lookup_l _ _ _ _ _ H1 E1) as (n1 & Hn1 & Hi1).
    rewrite Hn1. simpl.
    destruct (v2 !! i) as [s2|] eqn:E2.
    + destruct (Forall2_lookup_l _ _ _ _ _ H2 E2) as (n2 & Hn2 & Hi2).
      rewrite Hn2. simpl. rewrite Hi1, Hi2. reflexivity.
    + assert (x2 !! i = None) as ->; [|reflexivity].
      apply lookup_ge_None. apply lookup_ge_None in E2.
      rewrite <- (Forall2_length _ _ _ H2). exact E2.
  - assert (x1 !! i = None) as ->; [|reflexivity].
    apply lookup_ge_None. apply lookup_ge_None in E1.
    rewrite <- (Forall2_length _ _ _ H1). exact E1.
Qed.

Lemma um_loop_ms (v1 v2 : list string) (x1 x2 : list Z) (idx : list nat) :
  Forall2 (fun s n => Py.int s = Some n) v1 x1 ->
  Forall2 (fun s n => Py.int s = Some n) v2 x2 ->
  UpdateManager.compare_loop v1 v2 idx = ModelSync.compare_loop x1 x2 idx.
Proof.
  intros H1 H2. induction idx as [|i idx IH]; simpl; [reflexivity|].
  rewrite (um_step_ms v1 v2 x1 x2 i H1 H2), IH. reflexivity.
Qed.

Lemma extend_int (v : list string) (x : list Z) (k : Z) :
  Forall2 (fun s n => Py.int s = Some n) v x ->
  Forall2 (fun s n => Py.int s = Some n) (Py.extend v "0"%string k) (Py.extend x 0 k).
Proof.
  intros H. unfold Py.extend. apply Forall2_app; [exact H|].
  induction (Z.to_nat k); simpl; constructor; auto.
Qed.

(** Whenever every segment of both versions is an integer, the two
    resolvers return the same result. *)
Lemma um_compare_ms (a b : string) :
  is_Some (segments a) -> is_Some (segments b) ->
  UpdateManager.compare_versions a b = ModelSync.compare_versions a b.
Proof.
  intros [x Hx] [y Hy].
  unfold UpdateManager.compare_versions, ModelSync.compare_versions,
    ModelSync.compare_versions_try.
  rewrite (lstrip_v_segments a x Hx), (lstrip_v_segments b y Hy).
  unfold segments in Hx, Hy. rewrite Hx, Hy. simpl.
  apply mapM_Some in Hx, Hy.
  assert (Hlx : Py.len (split_char "." a) = Py.len x)
    by (unfold Py.len; rewrite (Forall2_length _ _ _ Hx); reflexivity).
  assert (Hly : Py.len (split_char "." b) = Py.len y)
    by (unfold Py.len; rewrite (Forall2_length _ _ _ Hy); reflexivity).
  rewrite Hlx, Hly.
  rewrite (um_loop_ms _ _ _ _ _ (extend_int _ _ _ Hx) (extend_int _ _ _ Hy)).
  reflexivity.
Qed.

Lemma ms_compare_antisym (a b : string) :
  is_Some (segments a) -> is_Some (segments b) ->
  ModelSync.compare_versions a b = - ModelSync.compare_versions b a.
Proof.
  intros [x Hx] [y Hy].
  rewrite (ms_compare_lex a b x y Hx Hy), (ms_compare_lex b a y x Hy Hx).
  rewrite (Nat.max_comm (length y) (length x)). apply lex_antisym.
Qed.

Lemma ms_compare_trans (a b c : string) :
  is_Some (segments a) -> is_Some (segments b) -> is_Some (segments c) ->
  ModelSync.compare_versions a b >= 0 -> ModelSync.compare_versions b c >= 0 ->
  ModelSync.compare_versions a c >= 0.
Proof.
  intros [x Hx] [y Hy] [z Hz].
  rewrite (ms_compare_lex a b x y Hx Hy), (ms_compare_lex b c y z Hy Hz),
    (ms_compare_lex a c x z Hx Hz).
  set (n := Nat.max (length x) (Nat.max (length y) (length z))).
  rewrite <- (lex_pad_more (Nat.max (length x) (length y)) n x y) by lia.
  rewrite <- (lex_pad_more (Nat.max (length y) (length z)) n y z) by lia.
  rewrite <- (lex_pad_more (Nat.max (length x) (length z)) n x z) by lia.
  apply lex_trans; rewrite !pad_to_length; lia.
Qed.

Lemma split_char_app (sep : ascii) (a b : string) :
  split_char sep (a +:+ String sep b) = split_char sep a ++ split_char sep b.
Proof.
  induction a as [|c a IH]; simpl.
  - rewrite Ascii.eqb_refl. reflexivity.
  - destruct (Ascii.eqb c sep); [rewrite IH; reflexivity|].
    change (String.app a (String sep b)) with (a +:+ String sep b). rewrite IH.
    pose proof (split_char_nonempty sep a).
    destruct (split_char sep a); [contradiction|reflexivity].
Qed.

Lemma segments_app_zero (a : string) (x : list Z) :
  segments a = Some x -> segments (a +:+ ".0") = Some (x ++ [0]).
Proof.
  unfold segments. intros H.
  change ".0"%string with (String "."%char "0"). rewrite split_char_app.
  apply mapM_Some. apply mapM_Some in H.
  apply Forall2_app; [exact H|]. repeat constructor.
Qed.

Lemma pad_to_app_zero (x : list Z) : pad_to (S (length x)) x = x ++ [0].
Proof. unfold pad_to. replace (S (length x) - length x)%nat with 1%nat by lia. reflexivity. Qed.

Lemma pad_to_id (n : nat) (x : list Z) : length x = n -> pad_to n x = x.
Proof. intros <-. unfold pad_to. rewrite Nat.sub_diag. apply app_nil_r. Qed.

(** A trailing [.0] segment is what the padding supplies: it never changes
    the outcome. *)
Lemma um_compare_trailing_zero (a : string) :
  is_Some (segments a) -> UpdateManager.compare_versions (a +:+ ".0") a = 0.
Proof.
  intros [x Hx]. pose proof (segments_app_zero a x Hx) as Hx0.
  rewrite um_compare_ms by eauto.
  rewrite (ms_compare_lex _ _ _ _ Hx0 Hx).
  rewrite length_app. simpl length.
  replace (Nat.max (length x + 1) (length x)) with (S (length x)) by lia.
  rewrite pad_to_app_zero, pad_to_id by (rewrite length_app; simpl; lia).
  apply lex_refl.
Qed.

End Compare.

(** C7.  Over well-formed dotted-numeric version strings both resolvers
    are antisymmetric (swapping the arguments negates the result) and
    transitive (if [a] is not older than [b] and [b] is not older than [c],
    then [a] is not older than [c]). *)
Theorem compare_versions_antisymmetric_transitive (a b c : string) :
  Props.dotted_numeric a = true ->
  Props.dotted_numeric b = true ->
  Props.dotted_numeric c = true ->
  UpdateManager.compare_versions a b = - UpdateManager.compare_versions b a /\
  ModelSync.compare_versions a b = - ModelSync.compare_versions b a /\
  (UpdateManager.compare_versions a b >= 0 ->
   UpdateManager.compare_versions b c >= 0 ->
   UpdateManager.compare_versions a c >= 0) /\
  (ModelSync.compare_versions a b >= 0 ->
   ModelSync.compare_versions b c >= 0 ->
   ModelSync.compare_versions a c >= 0).
Proof.
  intros Ha Hb Hc.
  apply dotted_numeric_segments in Ha, Hb, Hc.
  rewrite !um_compare_ms by assumption.
  repeat split.
  - apply ms_compare_antisym; assumption.
  - apply ms_compare_antisym; assumption.
  - apply ms_compare_trans; assumption.
  - apply ms_compare_trans; assumption.
Qed.

Lemma compare_versions_antisymmetric_transitive_witness :
  UpdateManager.compare_versions "2.10" "2.9.1" = - UpdateManager.compare_versions "2.9.1" "2.10" /\
  ModelSync.compare_versions "2.10" "2.9.1" = - ModelSync.compare_versions "2.9.1" "2.10" /\
  (UpdateManager.compare_versions "2.10" "2.9.1" >= 0 ->
   UpdateManager.compare_versions "2.9.1" "2.9" >= 0 ->
   UpdateManager.compare_versions "2.10" "2.9" >= 0) /\
  (ModelSync.compare_versions "2.10" "2.9.1" >= 0 ->
   ModelSync.compare_versions "2.9.1" "2.9" >= 0 ->
   ModelSync.compare_versions "2.10" "2.9" >= 0).
Proof.
  apply (compare_versions_antisymmetric_transitive "2.10" "2.9.1" "2.9"); reflexivity.
Defined.

(** C4, as the code has it.  The two resolvers return the same result
    whenever every dot-separated segment of both versions parses as an
    integer.  Beyond that they differ by design: the model synchroniser
    answers 0 as soon as one segment of either version is not an integer,
    while the application updater drops leading [v] characters (and
    compares such segments as strings). *)
Theorem compare_versions_agree_on_integer_segments (a b : string) :
  (is_Some (Props.segments a) -> is_Some (Props.segments b) ->
   UpdateManager.compare_versions a b = ModelSync.compare_versions a b) /\
  (Props.segments a = None \/ Props.segments b = None ->
   ModelSync.compare_versions a b = 0) /\
  UpdateManager.compare_versions (String "v" a) b = UpdateManager.compare_versions a b /\
  UpdateManager.compare_versions a (String "v" b) = UpdateManager.compare_versions a b.
Proof.
  split; [apply um_compare_ms|]. split; [apply ms_compare_malformed|].
  split; reflexivity.
Qed.

Lemma compare_versions_agree_on_integer_segments_witness :
  UpdateManager.compare_versions "2.0.0" "1.9.9" = ModelSync.compare_versions "2.0.0" "1.9.9" /\
  ModelSync.compare_versions "v2.0.0" "1.9.9" = 0.
Proof.
  pose proof (compare_versions_agree_on_integer_segments "2.0.0" "1.9.9") as H1.
  pose proof (compare_versions_agree_on_integer_segments "v2.0.0" "1.9.9") as H2.
  split.
  - apply (proj1 H1); eexists; reflexivity.
  - apply (proj1 (proj2 H2)). left. reflexivity.
Defined.

(** C4, as stated, fails: on a tag with the usual [v] prefix the
    application updater answers Newer and the model synchroniser Same. *)
Lemma compare_versions_differ_on_v_prefix :
  UpdateManager.compare_versions "v2.0.0" "1.9.9" = 1 /\
  ModelSync.compare_versions "v2.0.0" "1.9.9" = 0.
Proof. split; vm_compute; reflexivity. Qed.

(** C5, as the code has it.  With zero padding, [1.2.0] against [1.2] is
    Same (0), not Newer; the other two vectors are as stated; and in
    general a trailing [.0] segment never changes the outcome. *)
Theorem compare_versions_test_vectors :
  UpdateManager.compare_versions "1.2.0" "1.2" = 0 /\
  UpdateManager.compare_versions "v2.0.0" "1.9.9" = 1 /\
  UpdateManager.compare_versions "1.0" "1.0.0" = 0 /\
  (forall a : string, is_Some (Props.segments a) ->
     UpdateManager.compare_versions (a +:+ ".0") a = 0).
Proof.
  split; [vm_compute; reflexivity|].
  split; [vm_compute; reflexivity|].
  split; [vm_compute; reflexivity|].
  apply um_compare_trailing_zero.
Qed.

Lemma compare_versions_test_vectors_witness :
  UpdateManager.compare_versions ("1.2" +:+ ".0") "1.2" = 0.
Proof.
  apply (proj2 (proj2 (proj2 compare_versions_test_vectors)) "1.2").
  eexists; reflexivity.
Defined.

(** C5, as stated, fails on its first vector: the result is Same (0),
    so it is not Newer (1). *)
Lemma compare_versions_1_2_0_is_same :
  UpdateManager.compare_versions "1.2.0" "1.2" = 0 /\
  (UpdateManager.compare_versions "1.2.0" "1.2" =? 1) = false.
Proof. split; vm_compute; reflexivity. Qed.

(** ** Reasoning about computations *)
Section Respects.
Import Props.
Context {S : Type} (R : S -> S -> Prop).
Hypothesis R_refl : forall w, R w w.
Hypothesis R_trans : forall w1 w2 w3, R w1 w2 -> R w2 w3 -> R w1 w3.

Lemma respects_ret {A} (a : A) : respects R (Eff.ret a).
Proof. intros w. apply R_refl. Qed.

Lemma respects_raise {A} : respects R (@Eff.raise S A).
Proof. intros w. apply R_refl. Qed.

Lemma respects_get : respects R (@Eff.get S).
Proof. intros w. apply R_refl. Qed.

Lemma respects_lift {A} (o : option A) : respects R (Eff.lift o).
Proof. destruct o; intros w; apply R_refl. Qed.

Lemma respects_modify (f : S -> S) : (forall w, R w (f w)) -> respects R (Eff.modify f).
Proof. intros H w. apply H. Qed.

Lemma respects_bind {A B} (m : Eff.M S A) (k : A -> Eff.M S B) :
  respects R m -> (forall a, respects R (k a)) -> respects R (Eff.bind m k).
Proof.
  intros Hm Hk w. unfold Eff.bind. specialize (Hm w).
  destruct (m w) as [[a|] w1]; simpl in *; [|exact Hm].
  eapply R_trans; [exact Hm|apply Hk].
Qed.

Lemma respects_try {A} (m h : Eff.M S A) :
  respects R m -> respects R h -> respects R (Eff.try_except m h).
Proof.
  intros Hm Hh w. unfold Eff.try_except. specialize (Hm w).
  destruct (m w) as [[a|] w1]; simpl in *; [exact Hm|].
  eapply R_trans; [exact Hm|apply Hh].
Qed.

Lemma respects_for_each {A} (l : list A) (body : A -> Eff.M S unit) :
  (forall x, respects R (body x)) -> respects R (Eff.for_each l body).
Proof.
  intros H. induction l as [|x l IH]; simpl.
  - apply respects_ret.
  - apply respects_bind; [apply H|intros _; exact IH].
Qed.

End Respects.

Section Total.
Import Props.
Context {S : Type}.

Lemma total_ret {A} (a : A) : total (@Eff.ret S A a).
Proof. intros w. simpl. eauto. Qed.

Lemma total_try {A} (m h : Eff.M S A) : total h -> total (Eff.try_except m h).
Proof.
  intros Hh w. unfold Eff.try_except.
  destruct (m w) as [[a|] w1]; simpl; [eauto|apply Hh].
Qed.

Lemma total_bind {A B} (m : Eff.M S A) (k : A -> Eff.M S B) :
  total m -> (forall a, total (k a)) -> total (Eff.bind m k).
Proof.
  intros Hm Hk w. unfold Eff.bind. specialize (Hm w).
  destruct (m w) as [[a|] w1]; simpl in *; [apply Hk|].
  destruct Hm as [? Hm]. discriminate Hm.
Qed.

Lemma total_modify (f : S -> S) : total (Eff.modify f).
Proof. intros w. simpl. eauto. Qed.

Lemma total_get : total (@Eff.get S).
Proof. intros w. simpl. eauto. Qed.

Lemma total_for_each {A} (l : list A) (body : A -> Eff.M S unit) :
  (forall x, total (body x)) -> total (Eff.for_each l body).
Proof.
  intros H. induction l as [|x l IH]; simpl.
  - apply total_ret.
  - apply total_bind; [apply H|intros _; exact IH].
Qed.

End Total.

Section LogGrows.
Import Props.
Context {S Ev : Type} (log : S -> list Ev) (P : Ev -> Prop).

Lemma log_grows_refl (w : S) : log_grows log P w w.
Proof. exists []. rewrite app_nil_r. split; [reflexivity|constructor]. Qed.

Lemma log_grows_trans (w1 w2 w3 : S) :
  log_grows log P w1 w2 -> log_grows log P w2 w3 -> log_grows log P w1 w3.
Proof.
  intros (e1 & H1 & F1) (e2 & H2 & F2). exists (e1 ++ e2).
  rewrite H2, H1, app_assoc. split; [reflexivity|]. apply Forall_app; auto.
Qed.

Lemma log_grows_same (w w' : S) : log w' = log w -> log_grows log P w w'.
Proof. intros H. exists []. rewrite app_nil_r. split; [exact H|constructor]. Qed.

Lemma log_grows_one (w w' : S) (e : Ev) :
  log w' = log w ++ [e] -> P e -> log_grows log P w w'.
Proof. intros H He. exists [e]. split; [exact H|repeat constructor; exact He]. Qed.

End LogGrows.

(** One step of a proof that a computation respects a relation: follow the
    structure of the code.  [pre] proves that the relation is reflexive
    and transitive. *)
Ltac respects_step pre :=
  lazymatch goal with
  | |- Props.respects _ (Eff.bind _ _) =>
      apply respects_bind; [solve [pre]| |intros ?]
  | |- Props.respects _ (Eff.try_except _ _) => apply respects_try; [solve [pre]| |]
  | |- Props.respects _ (Eff.ret _) => apply respects_ret; solve [pre]
  | |- Props.respects _ Eff.raise => apply respects_raise; solve [pre]
  | |- Props.respects _ Eff.get => apply respects_get; solve [pre]
  | |- Props.respects _ (Eff.lift _) => apply respects_lift; solve [pre]
  | |- Props.respects _ (Eff.for_each _ _) =>
      apply respects_for_each; [solve [pre]|solve [pre]|intros ?]
  | |- Props.respects _ (match ?x with _ => _ end) => destruct x
  end.

Ltac total_step :=
  lazymatch goal with
  | |- Props.total (Eff.bind _ _) => apply total_bind; [|intros ?]
  | |- Props.total (Eff.try_except _ _) => apply total_try
  | |- Props.total (Eff.ret _) => apply total_ret
  | |- Props.total Eff.get => apply total_get
  | |- Props.total (Eff.modify _) => apply total_modify
  | |- Props.total (Eff.for_each _ _) => apply total_for_each; intros ?
  | |- Props.total (match ?x with _ => _ end) => destruct x
  end.

Section Keeps.
Import Props.
Context {S X : Type} (f : S -> X).

Lemma keeps_refl (w : S) : keeps f w w.
Proof. reflexivity. Qed.

Lemma keeps_trans (w1 w2 w3 : S) : keeps f w1 w2 -> keeps f w2 w3 -> keeps f w1 w3.
Proof. unfold keeps. congruence. Qed.

End Keeps.

Ltac keeps_pre := first [apply keeps_refl | apply keeps_trans].

(** Proves that a computation built from the monad's operations keeps a
    part of the state, given how to unfold its primitives. *)
Ltac keeps_tac unfolder :=
  repeat first
    [ respects_step keeps_pre
    | apply respects_modify; intros ?; reflexivity
    | progress unfolder
    | (intros ?; reflexivity) ].

(** ** The model synchroniser: what each step leaves alone *)
Section ModelSyncFrames.
Import Py Props ModelSync.
Variable E : env.

Ltac ms_unfold :=
  unfold emit, open_write, write_chunk, write_dest, read_cache, save_model_versions.

Lemma write_chunks_keeps {X} (f : world -> X) local_path total_size chunks :
  (forall g w, f (set_cache g w) = f w) ->
  (forall l w, f (set_log l w) = f w) ->
  forall downloaded_size,
  respects (keeps f) (write_chunks local_path total_size chunks downloaded_size).
Proof.
  intros Hc Hl. induction chunks as [|chunk chunks IH]; intros ds; simpl.
  - apply respects_ret, keeps_refl.
  - destruct chunk as [|b chunk]; [apply IH|].
    repeat first
      [ respects_step keeps_pre
      | apply IH
      | apply respects_modify; intros ?; unfold keeps; first [apply Hc|apply Hl]
      | progress ms_unfold ].
Qed.

Lemma download_file_keeps url local_path resume :
  respects (keeps (fun w => (dest w, backups w, version_file w, last_sync_file w, ticks w)))
    (download_file E url local_path resume).
Proof.
  unfold download_file, download_file_try. cbv zeta.
  repeat first
    [ apply write_chunks_keeps; [reflexivity|reflexivity]
    | respects_step keeps_pre
    | apply respects_modify; intros ?; reflexivity
    | progress ms_unfold ].
Qed.

Lemma backup_model_keeps cfg model_name :
  respects (keeps (fun w => (cache w, dest w, version_file w, last_sync_file w, log w)))
    (backup_model E cfg model_name).
Proof.
  unfold backup_model, backup_model_try. cbv zeta.
  keeps_tac ltac:(ms_unfold).
Qed.

Lemma install_model_keeps cfg model_name temp_path :
  respects (keeps (fun w => (cache w, backups w, version_file w, last_sync_file w, ticks w, log w)))
    (install_model E cfg model_name temp_path).
Proof.
  unfold install_model, install_model_try. cbv zeta.
  keeps_tac ltac:(ms_unfold).
Qed.

End ModelSyncFrames.

(** ** Integrity verification *)
Section Integrity.
Import Py ModelSync.

(** The chunked reading loop feeds the hash object the whole file, in
    order, whenever the fuel exceeds the length of what is left. *)
Lemma hash_chunks_whole (fuel : nat) :
  forall fed rest : list byte, (length rest < fuel)%nat ->
  hash_chunks fuel fed rest = Some (fed ++ rest).
Proof.
  induction fuel as [|fuel IH]; intros fed rest Hlen; [lia|].
  cbn [hash_chunks].
  destruct (take 4096 rest) as [|b chunk] eqn:Htake.
  - destruct rest as [|x rest]; [rewrite app_nil_r; reflexivity|].
    change 4096%nat with (S 4095) in Htake. discriminate Htake.
  - rewrite <- Htake. rewrite IH.
    + rewrite <- app_assoc, take_drop. reflexivity.
    + rewrite length_drop. destruct rest as [|x rest]; [discriminate Htake|].
      simpl length in *. lia.
Qed.

Lemma verify_with_hash (E : env) (w : world) (file_path : string) (expected_hash : option string) :
  truthy_opt expected_hash = true ->
  (verify_file_integrity E w file_path expected_hash = true <->
   exists content h,
     expected_hash = Some h /\
     cache w !! file_path = Some (File content) /\
     lower (Sha256.hexdigest content) = lower h).
Proof.
  intros Hh. unfold verify_file_integrity. rewrite Hh.
  destruct expected_hash as [h|]; [|discriminate]. simpl default.
  destruct (cache w !! file_path) as [[content|entries]|] eqn:Hc.
  - rewrite hash_chunks_whole by lia. rewrite app_nil_l.
    rewrite String.eqb_eq. split.
    + intros H. exists content, h. auto.
    + intros (c & h' & Hh' & Hc' & Heq). congruence.
  - split; [discriminate|]. intros (c & h' & _ & Hc' & _). discriminate.
  - split; [discriminate|]. intros (c & h' & _ & Hc' & _). discriminate.
Qed.

Lemma verify_without_hash (E : env) (w : world) (file_path : string) (expected_hash : option string) :
  truthy_opt expected_hash = false ->
  (verify_file_integrity E w file_path expected_hash = true <->
   exists n, cache w !! file_path = Some n /\ getsize E file_path n > 0).
Proof.
  intros Hh. unfold verify_file_integrity. rewrite Hh.
  destruct (cache w !! file_path) as [n|] eqn:Hc.
  - rewrite Z.gtb_gt. split.
    + intros H. exists n. auto.
    + intros (n' & Hn' & H). congruence.
  - split; [discriminate|]. intros (n' & Hn' & _). discriminate.
Qed.

End Integrity.

(** C6.  [verify_file_integrity] answers true exactly when: with an
    expected hash given (a non-empty string), the path holds a regular
    file whose SHA-256 digest over the whole content equals the expected
    hash once both are put in lower case; with no expected hash ([None] or
    the empty string), the path exists and its size is greater than
    zero. *)
Theorem verify_file_integrity_spec (E : ModelSync.env) (w : ModelSync.world)
  (file_path : string) (expected_hash : option string) :
  (Py.truthy_opt expected_hash = true ->
   (ModelSync.verify_file_integrity E w file_path expected_hash = true <->
    exists content h,
      expected_hash = Some h /\
      ModelSync.cache w !! file_path = Some (Py.File content) /\
      Py.lower (Sha256.hexdigest content) = Py.lower h)) /\
  (Py.truthy_opt expected_hash = false ->
   (ModelSync.verify_file_integrity E w file_path expected_hash = true <->
    exists n, ModelSync.cache w !! file_path = Some n /\
              ModelSync.getsize E file_path n > 0)).
Proof.
  split; [apply verify_with_hash|apply verify_without_hash].
Qed.

Lemma verify_file_integrity_spec_witness :
  ModelSync.verify_file_integrity (Scenario.model_env (fun _ => None) Scenario.nothing_refused)
    Scenario.abc_world "abc.bin" (Some Scenario.abc_digest_upper) = true /\
  ModelSync.verify_file_integrity (Scenario.model_env (fun _ => None) Scenario.nothing_refused)
    Scenario.abc_world "abc.bin" None = true.
Proof.
  pose proof (verify_file_integrity_spec
    (Scenario.model_env (fun _ => None) Scenario.nothing_refused)
    Scenario.abc_world "abc.bin" (Some Scenario.abc_digest_upper)) as H1.
  pose proof (verify_file_integrity_spec
    (Scenario.model_env (fun _ => None) Scenario.nothing_refused)
    Scenario.abc_world "abc.bin" None) as H2.
  split.
  - apply (proj1 H1 eq_refl).
    exists (Scenario.bytes "abc"), Scenario.abc_digest_upper.
    repeat split; vm_compute; reflexivity.
  - apply (proj2 H2 eq_refl).
    exists (Py.File (Scenario.bytes "abc")). split; vm_compute; reflexivity.
Defined.

(** ** The model synchroniser: no exception escapes *)
Section ModelSyncTotal.
Import Py Props ModelSync.
Variable E : env.

Lemma emit_total (e : event) : total (emit e).
Proof. apply total_modify. Qed.

Lemma download_file_total url local_path resume :
  total (download_file E url local_path resume).
Proof.
  unfold download_file. apply total_try.
  apply total_bind; [apply emit_total|intros _; apply total_ret].
Qed.

Lemma backup_model_total cfg model_name : total (backup_model E cfg model_name).
Proof.
  unfold backup_model. destruct (negb (backup_old_models cfg)).
  - apply total_ret.
  - apply total_try, total_ret.
Qed.

Lemma install_model_total cfg model_name temp_path :
  total (install_model E cfg model_name temp_path).
Proof. unfold install_model. apply total_try, total_ret. Qed.

Lemma download_model_total cfg model_name : total (download_model E cfg model_name).
Proof.
  unfold download_model. apply total_try.
  apply total_bind; [apply emit_total|intros _; apply total_ret].
Qed.

Lemma save_last_sync_info_total cfg : total (save_last_sync_info E cfg).
Proof.
  intros w. unfold save_last_sync_info, Eff.bind, now. simpl.
  destruct (denied E LocLastSyncFile); simpl; eauto.
Qed.

End ModelSyncTotal.

(** ** Stepping through a computation *)
Section Steps.
Context {S A B : Type}.

Lemma bind_some (m : Eff.M S A) (k : A -> Eff.M S B) (w w1 : S) (a : A) :
  m w = (Some a, w1) -> Eff.bind m k w = k a w1.
Proof. intros H. unfold Eff.bind. rewrite H. reflexivity. Qed.

Lemma bind_none (m : Eff.M S A) (k : A -> Eff.M S B) (w w1 : S) :
  m w = (None, w1) -> Eff.bind m k w = (None, w1).
Proof. intros H. unfold Eff.bind. rewrite H. reflexivity. Qed.

End Steps.

Lemma bind_assoc {S A B C} (m : Eff.M S A) (k : A -> Eff.M S B) (h : B -> Eff.M S C) (w : S) :
  Eff.bind (Eff.bind m k) h w = Eff.bind m (fun a => Eff.bind (k a) h) w.
Proof. unfold Eff.bind. destruct (m w) as [[a|] w1]; reflexivity. Qed.

(** Case analysis on the first step of the computation in [H]. *)
Ltac step_in H a w1 Hm :=
  cbv beta in H;
  lazymatch type of H with
  | Eff.bind ?m ?k ?w = _ =>
      destruct (m w) as [[a|] w1] eqn:Hm;
      [rewrite (bind_some m k w w1 a Hm) in H; cbv beta in H
      |rewrite (bind_none m k w w1 Hm) in H]
  end.

(** The first step of the computation in [H] is one whose outcome is
    known by computation. *)
Ltac pure_in H :=
  cbv beta in H;
  first [ erewrite bind_some in H by reflexivity
        | erewrite bind_none in H by reflexivity ];
  cbv beta in H.

(** ** The version ledger *)
Section Ledger.
Import Py Props ModelSync.
Variable E : env.

Lemma verify_cache_only (w1 w2 : world) file_path expected_hash :
  cache w1 = cache w2 ->
  verify_file_integrity E w1 file_path expected_hash
  = verify_file_integrity E w2 file_path expected_hash.
Proof. intros H. unfold verify_file_integrity. rewrite H. reflexivity. Qed.

Lemma download_model_try_cases cfg model_name (w w' : world) (r : option bool) :
  download_model_try E cfg model_name w = (r, w') ->
  (r <> Some true /\ version_file w' = version_file w) \/
  (r = Some true /\
   exists mc version type w_pre w_got w_in w_out,
     models_lookup cfg model_name = Some mc /\
     mc_version mc = Some version /\
     mc_type mc = Some type /\
     truthy_opt (mc_url mc) = true /\
     download_file E (default EmptyString (mc_url mc))
       (temp_path_of model_name mc type) true w_pre = (Some true, w_got) /\
     (truthy_opt (mc_hash mc) = true ->
      verify_file_integrity E w_got (temp_path_of model_name mc type) (mc_hash mc) = true) /\
     cache w_in = cache w_got /\ dest w_in = dest w_got /\
     install_model E cfg model_name (temp_path_of model_name mc type) w_in = (Some true, w_out) /\
     dest w' = dest w_out /\ cache w' = cache w_got /\
     version_file w' =
       (if denied E LocVersionFile then version_file w
        else Some (<[model_name := version]> (get_model_versions w)))).
Proof.
  intros H. unfold download_model_try in H.
  destruct (models_lookup cfg model_name) as [mc|] eqn:Hlk; pure_in H.
  2:{ left. inversion H; subst. split; [discriminate|reflexivity]. }
  destruct (negb (truthy_opt (mc_url mc))) eqn:Hurl.
  { pure_in H. left. inversion H; subst. split; [discriminate|reflexivity]. }
  apply negb_false_iff in Hurl.
  pure_in H.
  (* the backup: its result is dropped *)
  step_in H backed wb Hb.
  2:{ destruct (backup_model_total E cfg model_name
         (set_log (log w ++ [sync_progress (Exactly (-1)) (MsgBackingUp model_name)]) w))
         as [? Hx].
      rewrite Hb in Hx. discriminate Hx. }
  pose proof (backup_model_keeps E cfg model_name
    (set_log (log w ++ [sync_progress (Exactly (-1)) (MsgBackingUp model_name)]) w)) as Kb.
  rewrite Hb in Kb. unfold keeps in Kb. simpl in Kb.
  injection Kb as Kb_cache Kb_dest Kb_ver Kb_sync Kb_log.
  destruct (mc_type mc) as [type|] eqn:Hty; pure_in H.
  2:{ left. inversion H; subst. split; [discriminate|exact Kb_ver]. }
  destruct (denied E (LocCacheDir (dirname (temp_path_of model_name mc type)))); pure_in H.
  { left. inversion H; subst. split; [discriminate|exact Kb_ver]. }
  pure_in H.
  (* the download *)
  set (w_pre := set_log (log wb ++ [sync_progress (Exactly (-1)) (MsgDownloading model_name)]) wb) in *.
  step_in H success w_got Hd.
  2:{ destruct (download_file_total E (default EmptyString (mc_url mc))
         (temp_path_of model_name mc type) true w_pre) as [? Hx].
      rewrite Hd in Hx. discriminate Hx. }
  pose proof (download_file_keeps E (default EmptyString (mc_url mc))
    (temp_path_of model_name mc type) true w_pre) as Kd.
  rewrite Hd in Kd. unfold keeps in Kd. simpl in Kd.
  injection Kd as Kd_dest Kd_backups Kd_ver Kd_sync Kd_ticks.
  destruct success; cbn [negb] in H.
  2:{ left. inversion H; subst. split; [discriminate|congruence]. }
  (* the verification, only with a hash *)
  step_in H intact w_ver Hv.
  2:{ left. inversion H; subst. split; [discriminate|].
      destruct (truthy_opt (mc_hash mc)); [|discriminate Hv].
      pure_in Hv. pure_in Hv.
      destruct (verify_file_integrity E _ _ _); [discriminate Hv|].
      pure_in Hv. discriminate Hv. }
  assert (Hver : version_file w_ver = version_file w /\ cache w_ver = cache w_got /\
                 dest w_ver = dest w_got /\
                 (intact = true -> truthy_opt (mc_hash mc) = true ->
                  verify_file_integrity E w_got (temp_path_of model_name mc type) (mc_hash mc) = true)).
  { destruct (truthy_opt (mc_hash mc)).
    - pure_in Hv. pure_in Hv.
      destruct (verify_file_integrity E _ _ _) eqn:Hverify.
      + inversion Hv; subst. split; [simpl; congruence|].
        split; [reflexivity|]. split; [reflexivity|].
        intros _ _. rewrite <- Hverify. apply verify_cache_only. reflexivity.
      + pure_in Hv. inversion Hv; subst. split; [simpl; congruence|].
        split; [reflexivity|]. split; [reflexivity|discriminate].
    - inversion Hv; subst. split; [congruence|].
      split; [reflexivity|]. split; [reflexivity|discriminate]. }
  destruct Hver as (Vv & Vc & Vd & Vok).
  destruct intact; cbn [negb] in H.
  2:{ left. inversion H; subst. split; [discriminate|exact Vv]. }
  pure_in H.
  (* the install *)
  set (w_in := set_log (log w_ver ++ [sync_progress (Exactly (-1)) (MsgInstalling model_name)]) w_ver) in *.
  step_in H installed w_out Hi.
  2:{ destruct (install_model_total E cfg model_name (temp_path_of model_name mc type) w_in)
        as [? Hx].
      rewrite Hi in Hx. discriminate Hx. }
  pose proof (install_model_keeps E cfg model_name (temp_path_of model_name mc type) w_in) as Ki.
  rewrite Hi in Ki. unfold keeps in Ki. simpl in Ki.
  injection Ki as Ki_cache Ki_backups Ki_ver Ki_sync Ki_ticks Ki_log.
  destruct installed; cbn [negb] in H.
  2:{ left. inversion H; subst. split; [discriminate|congruence]. }
  (* the ledger *)
  pure_in H.
  destruct (mc_version mc) as [version|] eqn:Hversion; pure_in H.
  2:{ left. inversion H; subst. split; [discriminate|congruence]. }
  right.
  assert (Hget : get_model_versions w_out = get_model_versions w)
    by (unfold get_model_versions; congruence).
  rewrite Hget in H.
  unfold save_model_versions in H.
  destruct (denied E LocVersionFile) eqn:Hden; pure_in H; pure_in H;
    inversion H; subst r w'; (split; [reflexivity|]);
    exists mc, version, type, w_pre, w_got, w_in, w_out; simpl;
    repeat split; auto; congruence.
Qed.

(** No failing path of [download_model] touches the ledger, and the
    successful one writes it after [install_model] has reported success. *)
Lemma download_model_cases cfg model_name (w : world) :
  (fst (download_model E cfg model_name w) = Some false /\
   version_file (snd (download_model E cfg model_name w)) = version_file w) \/
  (fst (download_model E cfg model_name w) = Some true /\
   exists mc version type w_pre w_got w_in w_out,
     models_lookup cfg model_name = Some mc /\
     mc_version mc = Some version /\
     mc_type mc = Some type /\
     truthy_opt (mc_url mc) = true /\
     download_file E (default EmptyString (mc_url mc))
       (temp_path_of model_name mc type) true w_pre = (Some true, w_got) /\
     (truthy_opt (mc_hash mc) = true ->
      verify_file_integrity E w_got (temp_path_of model_name mc type) (mc_hash mc) = true) /\
     cache w_in = cache w_got /\ dest w_in = dest w_got /\
     install_model E cfg model_name (temp_path_of model_name mc type) w_in = (Some true, w_out) /\
     dest (snd (download_model E cfg model_name w)) = dest w_out /\
     cache (snd (download_model E cfg model_name w)) = cache w_got /\
     version_file (snd (download_model E cfg model_name w)) =
       (if denied E LocVersionFile then version_file w
        else Some (<[model_name := version]> (get_model_versions w)))).
Proof.
  unfold download_model, Eff.try_except.
  destruct (download_model_try E cfg model_name w) as [[b|] w1] eqn:Ht.
  - destruct (download_model_try_cases cfg model_name w w1 (Some b) Ht) as [[Hb Hv]|[Hb Hex]].
    + left. destruct b; [congruence|]. split; [reflexivity|exact Hv].
    + right. simpl. split; [exact Hb|exact Hex].
  - destruct (download_model_try_cases cfg model_name w w1 None Ht) as [[Hb Hv]|[Hb _]];
      [|discriminate Hb].
    left. split; [reflexivity|exact Hv].
Qed.

End Ledger.

(** C2, as the code has it.  [download_model] lets no exception escape;
    when it reports failure the ledger file is as before; when it reports
    success, the download had succeeded, the verifier had accepted the
    downloaded file if a hash is configured (no verification is made when
    none is), [install_model] had then returned success, and only then was
    the ledger written with the configured version (a refused write of the
    ledger file is swallowed). *)
Theorem download_model_ledger (E : ModelSync.env) (cfg : ModelSync.config)
  (model_name : string) (w : ModelSync.world) :
  (fst (ModelSync.download_model E cfg model_name w) = Some false /\
   ModelSync.version_file (snd (ModelSync.download_model E cfg model_name w))
   = ModelSync.version_file w) \/
  (fst (ModelSync.download_model E cfg model_name w) = Some true /\
   exists mc version type w_pre w_got w_in w_out,
     ModelSync.models_lookup cfg model_name = Some mc /\
     ModelSync.mc_version mc = Some version /\
     ModelSync.mc_type mc = Some type /\
     Py.truthy_opt (ModelSync.mc_url mc) = true /\
     ModelSync.download_file E (default EmptyString (ModelSync.mc_url mc))
       (ModelSync.temp_path_of model_name mc type) true w_pre = (Some true, w_got) /\
     (Py.truthy_opt (ModelSync.mc_hash mc) = true ->
      ModelSync.verify_file_integrity E w_got
        (ModelSync.temp_path_of model_name mc type) (ModelSync.mc_hash mc) = true) /\
     ModelSync.cache w_in = ModelSync.cache w_got /\
     ModelSync.dest w_in = ModelSync.dest w_got /\
     ModelSync.install_model E cfg model_name
       (ModelSync.temp_path_of model_name mc type) w_in = (Some true, w_out) /\
     ModelSync.dest (snd (ModelSync.download_model E cfg model_name w))
     = ModelSync.dest w_out /\
     ModelSync.cache (snd (ModelSync.download_model E cfg model_name w))
     = ModelSync.cache w_got /\
     ModelSync.version_file (snd (ModelSync.download_model E cfg model_name w)) =
       (if ModelSync.denied E ModelSync.LocVersionFile then ModelSync.version_file w
        else Some (<[model_name := version]> (ModelSync.get_model_versions w)))).
Proof. apply download_model_cases. Qed.

(** C2, as stated, fails: with no hash configured and an empty body
    received, the verifier would reject the downloaded file (its size is
    zero), yet the install goes on and the ledger moves to 1.1.0. *)
Lemma ledger_written_without_verification :
  fst (ModelSync.download_model Scenario.m1_env_empty_body Scenario.m1_cfg "m1"
         Scenario.m1_world) = Some true /\
  ModelSync.version_file
    (snd (ModelSync.download_model Scenario.m1_env_empty_body Scenario.m1_cfg "m1"
            Scenario.m1_world)) = Some {[ "m1" := "1.1.0" ]} /\
  ModelSync.verify_file_integrity Scenario.m1_env_empty_body
    (snd (ModelSync.download_model Scenario.m1_env_empty_body Scenario.m1_cfg "m1"
            Scenario.m1_world))
    Scenario.m1_temp_path (ModelSync.mc_hash Scenario.m1_config) = false.
Proof. repeat split; vm_compute; reflexivity. Qed.

(** C1, on the model path: the backup of [m1] fails, and [download_model]
    goes on all the same; the installed file is replaced and the ledger
    moves to 1.1.0. *)
Theorem download_model_ignores_backup_failure :
  fst (ModelSync.backup_model Scenario.m1_env_backup_fails Scenario.m1_cfg "m1"
         Scenario.m1_world) = Some false /\
  fst (ModelSync.download_model Scenario.m1_env_backup_fails Scenario.m1_cfg "m1"
         Scenario.m1_world) = Some true /\
  ModelSync.dest Scenario.m1_world !! "models/m1"
  = Some (Py.Dir {[ "m1.bin" := Scenario.bytes "old" ]}) /\
  ModelSync.dest
    (snd (ModelSync.download_model Scenario.m1_env_backup_fails Scenario.m1_cfg "m1"
            Scenario.m1_world)) !! "models/m1"
  = Some (Py.Dir {[ "m1.bin" := Scenario.bytes "new" ]}) /\
  ModelSync.version_file Scenario.m1_world = Some {[ "m1" := "1.0.0" ]} /\
  ModelSync.version_file
    (snd (ModelSync.download_model Scenario.m1_env_backup_fails Scenario.m1_cfg "m1"
            Scenario.m1_world)) = Some {[ "m1" := "1.1.0" ]}.
Proof. repeat split; vm_compute; reflexivity. Qed.

(** ** Resumed downloads *)
Section Resume.
Import Py Props ModelSync.
Variable E : env.

Lemma write_chunks_cache local_path total_size (chunks : list (list byte)) :
  forall downloaded_size (w : world) content,
  cache w !! local_path = Some (File content) ->
  fst (write_chunks local_path total_size chunks downloaded_size w)
  = Some (downloaded_size + Py.len (concat chunks)) /\
  cache (snd (write_chunks local_path total_size chunks downloaded_size w))
  = <[local_path := File (content ++ concat chunks)]> (cache w).
Proof.
  induction chunks as [|chunk chunks IH]; intros ds w content Hc.
  - simpl. unfold Py.len. simpl. rewrite Z.add_0_r, app_nil_r.
    split; [reflexivity|]. symmetry. apply insert_id, Hc.
  - destruct chunk as [|b chunk].
    + simpl. apply IH, Hc.
    + cbn [write_chunks].
      set (w1 := set_cache (fun c => <[local_path := File (content ++ b :: chunk)]> c) w).
      assert (H1 : write_chunk local_path (b :: chunk) w = (Some tt, w1)).
      { unfold write_chunk, Eff.modify, w1, set_cache. rewrite Hc. reflexivity. }
      erewrite bind_some by exact H1. cbv beta zeta.
      match goal with
      | |- context [Eff.bind ?m1 (fun _ => Eff.bind ?m2 (fun _ => ?k)) w1] =>
          assert (H2 : exists w2, Eff.bind m1 (fun _ => Eff.bind m2 (fun _ => k)) w1 = k w2
                                  /\ cache w2 = cache w1)
      end.
      { destruct (total_size >? 0); destruct (_ =? 0); eexists; split; reflexivity. }
      destruct H2 as (w2 & -> & Hc2).
      destruct (IH (ds + Py.len (b :: chunk)) w2 (content ++ b :: chunk)) as [Hr Hcache].
      { rewrite Hc2. unfold w1. simpl. apply lookup_insert_eq. }
      split.
      * rewrite Hr. f_equal. unfold Py.len.
        change (concat ((b :: chunk) :: chunks)) with ((b :: chunk) ++ concat chunks).
        rewrite length_app. lia.
      * rewrite Hcache, Hc2. unfold w1. simpl cache. rewrite insert_insert_eq.
        change (concat ((b :: chunk) :: chunks)) with ((b :: chunk) ++ concat chunks).
        rewrite <- app_assoc. reflexivity.
Qed.

(** A resumed download appends whatever the server sends to what is
    already on disk: nothing in the code compares the answer with the
    range that was asked for. *)
Lemma download_file_resume_appends (url local_path : string) (w : world)
  (partial : list byte) (response : response) :
  cache w !! local_path = Some (File partial) ->
  partial <> [] ->
  truthy (dirname local_path) = true ->
  denied E (LocCacheDir (dirname local_path)) = false ->
  denied E (LocCacheFile local_path) = false ->
  http_get E (get_google_drive_direct_url url) (Some (Py.len partial)) = Some response ->
  contains "text/html" (default EmptyString (content_type response)) = false ->
  ((400 <=? status_code response) && (status_code response <? 600)) = false ->
  stream_breaks response = false ->
  fst (download_file E url local_path true w) = Some true /\
  cache (snd (download_file E url local_path true w)) !! local_path
  = Some (File (partial ++ concat (body_chunks response))).
Proof.
  intros Hc Hne Hname Hdir Hfile Hget Hhtml Hstatus Hbreak.
  assert (Hpos : (Py.len partial >? 0) = true).
  { destruct partial; [contradiction|]. unfold Py.len. simpl length. apply Z.gtb_gt. lia. }
  unfold download_file, Eff.try_except, download_file_try. cbv zeta.
  erewrite bind_some by reflexivity. cbv beta.
  rewrite Hc. cbn [getsize]. rewrite Hpos, Hname, Hdir, Hget. cbn [negb orb].
  erewrite bind_some by reflexivity. cbv beta.
  erewrite bind_some by reflexivity. cbv beta.
  erewrite bind_some by reflexivity. cbv beta.
  rewrite Hhtml.
  erewrite bind_some by reflexivity. cbv beta.
  rewrite Hstatus.
  erewrite bind_some by reflexivity. cbv beta.
  cbn [andb].
  set (w1 := set_log _ w).
  assert (Hopen : open_write E local_path true w1 = (Some tt, w1)).
  { unfold open_write. erewrite bind_some by reflexivity. cbv beta.
    rewrite Hfile. unfold w1. cbn [cache set_log]. rewrite Hc. reflexivity. }
  erewrite bind_some by exact Hopen. cbv beta.
  destruct (write_chunks_cache local_path (get_file_size E (get_google_drive_direct_url url))
              (body_chunks response) (Py.len partial) w1 partial) as [Hr Hcache].
  { unfold w1. cbn [cache set_log]. exact Hc. }
  destruct (write_chunks local_path (get_file_size E (get_google_drive_direct_url url))
              (body_chunks response) (Py.len partial) w1) as [r w2] eqn:Hw.
  simpl in Hr, Hcache. subst r.
  erewrite bind_some by exact Hw. cbv beta.
  rewrite Hbreak.
  erewrite bind_some by reflexivity. cbv beta.
  erewrite bind_some by reflexivity. cbv beta.
  simpl. split; [reflexivity|]. rewrite Hcache. apply lookup_insert_eq.
Qed.

(** When the server honours the range, the file is completed. *)
Lemma download_file_resume_completes (url local_path : string) (w : world)
  (content : list byte) (k : nat) (response : response) :
  cache w !! local_path = Some (File (take k content)) ->
  take k content <> [] ->
  truthy (dirname local_path) = true ->
  denied E (LocCacheDir (dirname local_path)) = false ->
  denied E (LocCacheFile local_path) = false ->
  http_get E (get_google_drive_direct_url url) (Some (Py.len (take k content)))
  = Some response ->
  contains "text/html" (default EmptyString (content_type response)) = false ->
  ((400 <=? status_code response) && (status_code response <? 600)) = false ->
  stream_breaks response = false ->
  concat (body_chunks response) = drop k content ->
  fst (download_file E url local_path true w) = Some true /\
  cache (snd (download_file E url local_path true w)) !! local_path = Some (File content).
Proof.
  intros Hc Hne Hname Hdir Hfile Hget Hhtml Hstatus Hbreak Hbody.
  destruct (download_file_resume_appends url local_path w (take k content) response)
    as [Hr Hcache]; auto.
  split; [exact Hr|]. rewrite Hcache, Hbody, take_drop. reflexivity.
Qed.

End Resume.

(** C3, at a server that ignores the byte range: the size probe says 5
    bytes, 3 bytes are on disk, the whole content is sent again, and
    [download_file] reports success with an 8-byte file, the 3 old bytes
    followed by all 5. *)
Theorem download_file_appends_full_response :
  ModelSync.get_file_size Scenario.range_ignoring_env "https://example.org/m.bin" = 5 /\
  fst (ModelSync.download_file Scenario.range_ignoring_env "https://example.org/m.bin"
         "downloads/m.bin" true Scenario.partial_world) = Some true /\
  ModelSync.cache
    (snd (ModelSync.download_file Scenario.range_ignoring_env "https://example.org/m.bin"
            "downloads/m.bin" true Scenario.partial_world)) !! "downloads/m.bin"
  = Some (Py.File (Scenario.bytes "abcabcde")).
Proof. repeat split; vm_compute; reflexivity. Qed.

(** ** The batch synchronisation *)

Ltac log_pre := first [apply log_grows_refl | apply log_grows_trans].

(** Proves that a computation only adds events satisfying a predicate,
    given how to unfold its primitives and how to prove the predicate. *)
Ltac log_tac unfolder ptac :=
  repeat first
    [ respects_step log_pre
    | apply respects_modify; intros ?;
      first [ apply log_grows_same; reflexivity
            | eapply log_grows_one; [reflexivity|ptac] ]
    | progress unfolder
    | (intros ?; apply log_grows_same; reflexivity) ].

Section Batch.
Import Py Props ModelSync.
Variable E : env.

Ltac ms_unfold_all :=
  unfold download_model, download_model_try, backup_model, backup_model_try,
    install_model, install_model_try, download_file, download_file_try,
    emit, open_write, write_chunk, write_dest, read_cache, save_model_versions.

Lemma write_chunks_log (P : event -> Prop) local_path total_size chunks :
  (forall p, P (download_progress p)) -> (forall m, P (download_status m)) ->
  forall downloaded_size,
  respects (log_grows log P) (write_chunks local_path total_size chunks downloaded_size).
Proof.
  intros Hp Hs. induction chunks as [|chunk chunks IH]; intros ds; simpl.
  - apply respects_ret, log_grows_refl.
  - destruct chunk as [|b chunk]; [apply IH|].
    repeat first
      [ respects_step log_pre
      | apply IH
      | apply respects_modify; intros ?;
        first [ apply log_grows_same; reflexivity
              | eapply log_grows_one; [reflexivity|first [apply Hp|apply Hs]] ]
      | progress (unfold emit, write_chunk) ].
Qed.

(** [download_model] announces no model as being processed. *)
Lemma download_model_log cfg model_name :
  respects (log_grows log (fun e => processing_name e = None))
    (download_model E cfg model_name).
Proof.
  ms_unfold_all. cbv zeta.
  repeat first
    [ apply write_chunks_log; [reflexivity|reflexivity]
    | respects_step log_pre
    | apply respects_modify; intros ?;
      first [ apply log_grows_same; reflexivity
            | eapply log_grows_one; [reflexivity|reflexivity] ]
    | (intros ?; apply log_grows_same; reflexivity) ].
Qed.

Lemma download_model_keeps_last_sync cfg model_name :
  respects (keeps last_sync_file) (download_model E cfg model_name).
Proof.
  ms_unfold_all. cbv zeta.
  repeat first
    [ apply write_chunks_keeps; [reflexivity|reflexivity]
    | respects_step keeps_pre
    | apply respects_modify; intros ?; reflexivity
    | (intros ?; reflexivity) ].
Qed.

Lemma processed_none (evs : list event) :
  Forall (fun e => processing_name e = None) evs -> processed evs = [].
Proof.
  induction 1 as [|e evs He _ IH]; [reflexivity|].
  unfold processed in *. simpl. rewrite He. exact IH.
Qed.

Lemma processed_app (a b : list event) : processed (a ++ b) = processed a ++ processed b.
Proof. apply omap_app. Qed.

(** The loop of [sync_thread]: every model of the list is announced and
    handed to [download_model], whatever the earlier ones returned. *)
Lemma sync_loop_spec cfg (total_models : Z) (l : list string) :
  forall (k : nat) (w : world),
  exists w' evs,
    Eff.for_each (zip (seq k (length l)) l)
      (fun im =>
         Eff.bind (emit (sync_progress (Percent (Z.of_nat (fst im)) total_models)
                     (MsgProcessing (snd im))))
           (fun _ => Eff.bind (download_model E cfg (snd im)) (fun _ => Eff.ret tt))) w
    = (Some tt, w') /\
    log w' = log w ++ evs /\
    processed evs = l /\
    last_sync_file w' = last_sync_file w.
Proof.
  induction l as [|x l IH]; intros k w.
  - exists w, []. simpl. rewrite app_nil_r. auto.
  - set (w1 := set_log (log w ++ [sync_progress (Percent (Z.of_nat k) total_models)
                                      (MsgProcessing x)]) w).
    destruct (download_model E cfg x w1) as [[b|] w2] eqn:Hd.
    2:{ destruct (download_model_total E cfg x w1) as [? Hx].
        rewrite Hd in Hx. discriminate Hx. }
    pose proof (download_model_log cfg x w1) as (evs1 & Hlog1 & Hnone).
    pose proof (download_model_keeps_last_sync cfg x w1) as Hkeep.
    rewrite Hd in Hlog1, Hkeep. simpl in Hlog1, Hkeep. unfold keeps in Hkeep.
    destruct (IH (S k) w2) as (w' & evs & Hrun & Hlog & Hproc & Hsync).
    exists w', ([sync_progress (Percent (Z.of_nat k) total_models) (MsgProcessing x)]
                ++ evs1 ++ evs).
    split; [|split; [|split]].
    + simpl. unfold Eff.bind at 1. unfold Eff.bind at 1.
      change (emit (sync_progress (Percent (Z.of_nat k) total_models) (MsgProcessing x)) w)
        with (Some tt, w1).
      cbv beta iota. unfold Eff.bind at 1. rewrite Hd. cbv beta iota.
      unfold Eff.ret at 1. exact Hrun.
    + rewrite Hlog, Hlog1. subst w1. simpl. rewrite <- !app_assoc. reflexivity.
    + rewrite !processed_app, (processed_none evs1 Hnone), Hproc. reflexivity.
    + rewrite Hsync, Hkeep. reflexivity.
Qed.

Lemma sync_thread_spec cfg (models_to_sync : option (list string)) (w : world) :
  match models_to_sync with
  | None => check_for_model_updates cfg w
  | Some l => l
  end <> [] ->
  exists w' evs info,
    sync_thread E cfg models_to_sync w = (Some tt, w') /\
    log w' = log w ++ [sync_started] ++ evs
             ++ [sync_progress (Exactly 100) MsgSyncDone; sync_completed] /\
    processed evs = match models_to_sync with
                    | None => check_for_model_updates cfg w
                    | Some l => l
                    end /\
    si_success info = true /\
    si_models_synced info = fst <$> models cfg /\
    last_sync_file w' =
      (if denied E LocLastSyncFile then last_sync_file w else Some info).
Proof.
  set (l := match models_to_sync with
            | None => check_for_model_updates cfg w
            | Some l => l
            end).
  intros Hne.
  set (w0 := set_log (log w ++ [sync_started]) w).
  assert (Hl : match models_to_sync with
               | None => check_for_model_updates cfg w0
               | Some l => l
               end = l) by reflexivity.
  destruct (sync_loop_spec cfg (Py.len l) l 0 w0) as (w1 & evs & Hrun & Hlog & Hproc & Hsync).
  set (info := {| si_timestamp := iso (clock E (ticks w1));
                  si_models_synced := fst <$> models cfg;
                  si_success := true |}).
  set (w2 := if denied E LocLastSyncFile then set_ticks (S (ticks w1)) w1
             else set_last_sync_file (Some info) (set_ticks (S (ticks w1)) w1)).
  exists (set_log (log w2 ++ [sync_progress (Exactly 100) MsgSyncDone; sync_completed]) w2),
    evs, info.
  assert (Hlog2 : log w2 = log w1) by (unfold w2; destruct (denied E LocLastSyncFile); reflexivity).
  split; [|split; [|split; [|split; [|split]]]]; try reflexivity.
  - unfold sync_thread. erewrite bind_some by reflexivity.
    fold w0. unfold Eff.try_except, sync_thread_try.
    erewrite bind_some by reflexivity. cbv beta. rewrite Hl.
    destruct l as [|x l'] eqn:El; [contradiction|]. rewrite <- El in *.
    erewrite bind_some by exact Hrun.
    assert (Hsave : save_last_sync_info E cfg w1 = (Some tt, w2)).
    { unfold save_last_sync_info. erewrite bind_some by reflexivity. cbv beta.
      fold info. unfold w2. destruct (denied E LocLastSyncFile); reflexivity. }
    erewrite bind_some by exact Hsave.
    erewrite bind_some by reflexivity. cbv beta. simpl.
    rewrite <- app_assoc. reflexivity.
  - simpl log. rewrite Hlog2, Hlog. unfold w0. simpl log.
    rewrite <- !app_assoc. reflexivity.
  - exact Hproc.
  - simpl. unfold w2. destruct (denied E LocLastSyncFile); simpl; [exact Hsync|reflexivity].
Qed.

End Batch.

(** C10.  In the batch synchronisation a model that fails does not stop
    the batch: for every non-empty list of models, each model of the list
    is announced and attempted, in order; then the last-sync record,
    whose success field is true, is written (a refused write of that file
    is swallowed); and the progress of 100 and [sync_completed] are the
    last signals. *)
Theorem sync_continues_after_failures (E : ModelSync.env) (cfg : ModelSync.config)
  (models_to_sync : option (list string)) (w : ModelSync.world) :
  match models_to_sync with
  | None => ModelSync.check_for_model_updates cfg w
  | Some l => l
  end <> [] ->
  exists w' evs info,
    ModelSync.sync_thread E cfg models_to_sync w = (Some tt, w') /\
    ModelSync.log w' =
      ModelSync.log w ++ [ModelSync.sync_started] ++ evs
      ++ [ModelSync.sync_progress (ModelSync.Exactly 100) ModelSync.MsgSyncDone;
          ModelSync.sync_completed] /\
    Props.processed evs = match models_to_sync with
                          | None => ModelSync.check_for_model_updates cfg w
                          | Some l => l
                          end /\
    ModelSync.si_success info = true /\
    ModelSync.si_models_synced info = fst <$> ModelSync.models cfg /\
    ModelSync.last_sync_file w' =
      (if ModelSync.denied E ModelSync.LocLastSyncFile
       then ModelSync.last_sync_file w else Some info).
Proof. apply sync_thread_spec. Qed.

Lemma sync_continues_after_failures_witness :
  exists w' evs info,
    ModelSync.sync_thread Scenario.unreachable_env Scenario.failing_cfg
      (Some ["m1"; "m2"; "m3"]) Scenario.empty_world = (Some tt, w') /\
    ModelSync.log w' =
      ModelSync.log Scenario.empty_world ++ [ModelSync.sync_started] ++ evs
      ++ [ModelSync.sync_progress (ModelSync.Exactly 100) ModelSync.MsgSyncDone;
          ModelSync.sync_completed] /\
    Props.processed evs = ["m1"; "m2"; "m3"] /\
    ModelSync.si_success info = true /\
    ModelSync.si_models_synced info = fst <$> ModelSync.models Scenario.failing_cfg /\
    ModelSync.last_sync_file w' =
      (if ModelSync.denied Scenario.unreachable_env ModelSync.LocLastSyncFile
       then ModelSync.last_sync_file Scenario.empty_world else Some info).
Proof.
  apply (sync_continues_after_failures Scenario.unreachable_env Scenario.failing_cfg
           (Some ["m1"; "m2"; "m3"]) Scenario.empty_world).
  discriminate.
Defined.

(** In that run every model fails, nothing is installed and the ledger is
    not written, yet the record says success. *)
Example all_models_fail_yet_success_recorded :
  fst (ModelSync.download_model Scenario.unreachable_env Scenario.failing_cfg "m1"
         Scenario.empty_world) = Some false /\
  fst (ModelSync.download_model Scenario.unreachable_env Scenario.failing_cfg "m2"
         Scenario.empty_world) = Some false /\
  fst (ModelSync.download_model Scenario.unreachable_env Scenario.failing_cfg "m3"
         Scenario.empty_world) = Some false /\
  ModelSync.version_file
    (snd (ModelSync.sync_thread Scenario.unreachable_env Scenario.failing_cfg
            (Some ["m1"; "m2"; "m3"]) Scenario.empty_world)) = None /\
  ModelSync.si_success <$>
    ModelSync.last_sync_file
      (snd (ModelSync.sync_thread Scenario.unreachable_env Scenario.failing_cfg
              (Some ["m1"; "m2"; "m3"]) Scenario.empty_world)) = Some true.
Proof. repeat split; vm_compute; reflexivity. Qed.

(** ** Install ordering on the application path *)
Section AppInstall.
Import Py Props UpdateManager.
Variable E : env.

Lemma create_backup_keeps :
  respects (keeps (fun w => (exe w, exe_new w, app_files w, cache w, update_extract w,
                             last_check_file w)))
    (create_backup E).
Proof.
  unfold create_backup, create_backup_try. cbv zeta.
  keeps_tac ltac:(unfold emit, copy_to_backup, now).
Qed.

Lemma create_backup_log :
  respects (log_grows log starts_no_helper) (create_backup E).
Proof.
  unfold create_backup, create_backup_try. cbv zeta.
  log_tac ltac:(unfold emit, copy_to_backup, now) ltac:(exact I).
Qed.

(** When the backup fails, [install_update] stops there: it reports
    failure, the executable, the staged copy, the application files and the
    cache are as before, and no helper process is started. *)
Lemma install_update_aborts_on_backup_failure (update_file : string) (w : world) :
  fst (create_backup E (set_log (log w ++ [status_updated MsgInstalling]) w)) = Some false ->
  fst (install_update E update_file w) = Some false /\
  exe (snd (install_update E update_file w)) = exe w /\
  exe_new (snd (install_update E update_file w)) = exe_new w /\
  app_files (snd (install_update E update_file w)) = app_files w /\
  cache (snd (install_update E update_file w)) = cache w /\
  update_extract (snd (install_update E update_file w)) = update_extract w /\
  exists evs, log (snd (install_update E update_file w)) = log w ++ evs /\
              Forall starts_no_helper evs.
Proof.
  intros Hb.
  set (w0 := set_log (log w ++ [status_updated MsgInstalling]) w) in *.
  pose proof (create_backup_keeps w0) as Hk.
  pose proof (create_backup_log w0) as (evs & Hlog & Hevs).
  destruct (create_backup E w0) as [r wb] eqn:Hc. simpl in Hb, Hk, Hlog. subst r.
  unfold keeps in Hk. simpl in Hk.
  injection Hk as Hexe Hnew Hfiles Hcache Hextract _.
  assert (Hrun : install_update E update_file w = (Some false, wb)).
  { unfold install_update, Eff.try_except, install_update_try.
    erewrite bind_some by reflexivity. fold w0.
    erewrite bind_some by exact Hc. reflexivity. }
  rewrite Hrun. simpl.
  repeat split; auto.
  exists (status_updated MsgInstalling :: evs). split.
  - rewrite Hlog. unfold w0. simpl. rewrite <- app_assoc. reflexivity.
  - constructor; [exact I|exact Hevs].
Qed.

End AppInstall.

(** On the application path a failed backup does abort the install. *)
Example install_update_backup_failure_run :
  fst (UpdateManager.install_update Scenario.no_backup_env "update.exe" Scenario.app_world)
  = Some false /\
  UpdateManager.exe
    (snd (UpdateManager.install_update Scenario.no_backup_env "update.exe" Scenario.app_world))
  = UpdateManager.exe Scenario.app_world /\
  UpdateManager.exe_new
    (snd (UpdateManager.install_update Scenario.no_backup_env "update.exe" Scenario.app_world))
  = None.
Proof. repeat split; vm_compute; reflexivity. Qed.

(** ** The scheduler *)

Section Scheduler.
Import Py Props AutoUpdater.
Variable E : env.

Lemma should_check_updates_iff (s : settings) (now : datetime) :
  should_check_updates E s now = true <->
  auto_check_updates s = true /\
  (truthy_opt (last_update_check s) = false \/
   exists last, last_update_check s = Some last /\
     (fromisoformat E last = None \/
      timedelta_hours (update_check_interval_hours s) = None \/
      exists t interval,
        fromisoformat E last = Some t /\
        timedelta_hours (update_check_interval_hours s) = Some interval /\
        micros now - micros t >= interval)).
Proof.
  unfold should_check_updates.
  destruct (auto_check_updates s); simpl; [|split; [discriminate|intros [? _]; discriminate]].
  destruct (last_update_check s) as [last|] eqn:Hlast; simpl;
    [|split; [intros _; split; auto|reflexivity]].
  destruct (truthy last) eqn:Ht; simpl; [|split; [intros _; split; auto|reflexivity]].
  destruct (fromisoformat E last) as [t|] eqn:Hf.
  - destruct (timedelta_hours (update_check_interval_hours s)) as [interval|] eqn:Hi.
    + rewrite Z.geb_le. split.
      * intros H. split; [reflexivity|]. right. exists last. split; [reflexivity|].
        right. right. exists t, interval. repeat split; auto. lia.
      * intros [_ [H|(l & Hl & [Hn|[Hn|(t' & i' & Hs & Hi' & H)]])]].
        -- discriminate.
        -- inversion Hl; subst. congruence.
        -- discriminate.
        -- inversion Hl; subst. rewrite Hf in Hs. inversion Hs; subst.
           inversion Hi'; subst. lia.
    + split; [|reflexivity]. intros _. split; [reflexivity|]. right. eauto.
  - split; [|reflexivity]. intros _. split; [reflexivity|]. right. eauto.
Qed.

(** The update check starts by announcing itself and only adds to the
    checker's log. *)
Lemma check_for_updates_log (um : UpdateManager.world) :
  exists evs,
    UpdateManager.log (snd (UpdateManager.check_for_updates (checker_env E) um))
    = UpdateManager.log um
      ++ UpdateManager.status_updated UpdateManager.MsgChecking :: evs.
Proof.
  unfold UpdateManager.check_for_updates, UpdateManager.get_latest_release.
  rewrite bind_assoc. erewrite bind_some by reflexivity.
  match goal with
  | |- context [snd (?m ?w)] =>
      assert (Hrest : respects (log_grows UpdateManager.log (fun _ => True)) m)
  end.
  { log_tac ltac:(unfold UpdateManager.save_last_check, UpdateManager.emit,
                    UpdateManager.now) ltac:(exact I). }
  match goal with
  | |- context [snd (?m ?w)] => destruct (Hrest w) as (evs & Hevs & _)
  end.
  exists evs. rewrite Hevs. simpl. rewrite <- app_assoc. reflexivity.
Qed.

Lemma check_for_app_updates_spec (w : world) (um : UpdateManager.world) :
  update_manager w = Some um ->
  exists w' has_update evs,
    check_for_app_updates E w = (Some tt, w') /\
    current w'
    = set_last_update_check
        (Some (iso (UpdateManager.clock (checker_env E) (UpdateManager.ticks um))))
        (current w) /\
    settings_file w'
    = (if settings_file_denied E then settings_file w else Some (current w')) /\
    log w' = log w
      ++ [update_check_started;
          settings_saved (current w') (negb (settings_file_denied E))]
      ++ (checker_signal <$> (UpdateManager.status_updated UpdateManager.MsgChecking :: evs))
      ++ [update_check_completed has_update].
Proof.
  intros Hum. destruct w as [cur sf umo lg]. simpl in Hum. subst umo.
  set (t := UpdateManager.clock (checker_env E) (UpdateManager.ticks um)).
  set (s' := set_last_update_check (Some (iso t)) cur).
  set (um1 := UpdateManager.set_ticks (S (UpdateManager.ticks um)) um).
  destruct (check_for_updates_log um1) as (evs & Hevs).
  destruct (UpdateManager.check_for_updates (checker_env E) um1) as [r um2] eqn:Hcheck.
  simpl in Hevs.
  set (on_disk := negb (settings_file_denied E)).
  set (w1 := {| current := cur; settings_file := sf; update_manager := Some um1;
                log := lg ++ [update_check_started] |}).
  set (w3 := {| current := s';
                settings_file := if settings_file_denied E then sf else Some s';
                update_manager := Some um1;
                log := (lg ++ [update_check_started]) ++ [settings_saved s' on_disk] |}).
  set (w4 := {| current := s';
                settings_file := if settings_file_denied E then sf else Some s';
                update_manager := Some um2;
                log := ((lg ++ [update_check_started]) ++ [settings_saved s' on_disk])
                       ++ (checker_signal <$>
                           UpdateManager.status_updated UpdateManager.MsgChecking :: evs) |}).
  assert (H1 : in_checker (UpdateManager.now (checker_env E))
                 (set_log (lg ++ [update_check_started])
                    {| current := cur; settings_file := sf;
                       update_manager := Some um; log := lg |})
               = (Some t, w1)).
  { unfold in_checker. cbn. rewrite drop_all. cbn. rewrite app_nil_r. reflexivity. }
  assert (H3 : save_settings E (set_current s' w1) = (Some tt, w3)).
  { unfold save_settings, w3, on_disk.
    destruct (settings_file_denied E); reflexivity. }
  assert (H4 : in_checker (UpdateManager.check_for_updates (checker_env E)) w3 = (r, w4)).
  { unfold in_checker. cbn [update_manager w3]. rewrite Hcheck.
    replace (drop (length (UpdateManager.log um1)) (UpdateManager.log um2))
      with (UpdateManager.status_updated UpdateManager.MsgChecking :: evs)
      by (rewrite Hevs; symmetry; apply drop_app_length).
    reflexivity. }
  unfold check_for_app_updates.
  erewrite bind_some by reflexivity. cbv beta. cbn [update_manager].
  erewrite bind_some by reflexivity. cbv beta.
  unfold Eff.try_except, check_thread_try.
  erewrite bind_some by exact H1. cbv beta.
  erewrite bind_some by reflexivity. cbv beta.
  erewrite bind_some by exact H3. cbv beta.
  destruct r as [has_update|].
  - erewrite bind_some by exact H4. cbv beta.
    exists (set_log (log w4 ++ [update_check_completed has_update]) w4), has_update, evs.
    split; [reflexivity|]. split; [reflexivity|]. split; [reflexivity|].
    cbn. rewrite <- !app_assoc. reflexivity.
  - erewrite bind_none by exact H4.
    exists (set_log (log w4 ++ [update_check_completed false]) w4), false, evs.
    split; [reflexivity|]. split; [reflexivity|]. split; [reflexivity|].
    cbn. rewrite <- !app_assoc. reflexivity.
Qed.

End Scheduler.

(** C9, as the code has it.  A scheduled application check is due exactly
    when automatic checking is enabled and one of these holds: no
    last-check stamp is stored (or an empty one); the stored stamp cannot
    be read as a time; the configured interval is not a duration that
    [timedelta] accepts; or the time elapsed since the stored stamp is at
    least the configured interval.  And every run of
    [check_for_app_updates] with an update manager, whatever the check
    then does (no release reached, an exception, update or no update),
    first stores the current time as last-check stamp in the settings and
    saves them, and only then lets the checker run: its first signal comes
    right after the save. *)
Theorem scheduled_check_due_and_stamped (E : AutoUpdater.env) (s : AutoUpdater.settings)
  (now : Py.datetime) (w : AutoUpdater.world) (um : UpdateManager.world) :
  (AutoUpdater.should_check_updates E s now = true <->
   AutoUpdater.auto_check_updates s = true /\
   (Py.truthy_opt (AutoUpdater.last_update_check s) = false \/
    exists last, AutoUpdater.last_update_check s = Some last /\
      (AutoUpdater.fromisoformat E last = None \/
       Py.timedelta_hours (AutoUpdater.update_check_interval_hours s) = None \/
       exists t interval,
         AutoUpdater.fromisoformat E last = Some t /\
         Py.timedelta_hours (AutoUpdater.update_check_interval_hours s) = Some interval /\
         Py.micros now - Py.micros t >= interval))) /\
  (AutoUpdater.update_manager w = Some um ->
   exists w' has_update evs,
     AutoUpdater.check_for_app_updates E w = (Some tt, w') /\
     AutoUpdater.current w'
     = AutoUpdater.set_last_update_check
         (Some (Py.iso (UpdateManager.clock (AutoUpdater.checker_env E)
                          (UpdateManager.ticks um))))
         (AutoUpdater.current w) /\
     AutoUpdater.settings_file w'
     = (if AutoUpdater.settings_file_denied E then AutoUpdater.settings_file w
        else Some (AutoUpdater.current w')) /\
     AutoUpdater.log w' = AutoUpdater.log w
       ++ [AutoUpdater.update_check_started;
           AutoUpdater.settings_saved (AutoUpdater.current w')
             (negb (AutoUpdater.settings_file_denied E))]
       ++ (AutoUpdater.checker_signal <$>
           (UpdateManager.status_updated UpdateManager.MsgChecking :: evs))
       ++ [AutoUpdater.update_check_completed has_update]).
Proof.
  split; [apply should_check_updates_iff|apply check_for_app_updates_spec].
Qed.

Lemma scheduled_check_due_and_stamped_witness :
  AutoUpdater.should_check_updates Scenario.offline_env AutoUpdater.default_settings
    Scenario.epoch = true /\
  AutoUpdater.should_check_updates Scenario.reading_env (Scenario.checked_at_epoch 6)
    Scenario.six_hours_later = true /\
  AutoUpdater.should_check_updates Scenario.reading_env (Scenario.checked_at_epoch 6)
    Scenario.one_hour_later = false /\
  exists w' has_update evs,
    AutoUpdater.check_for_app_updates Scenario.offline_env Scenario.scheduler_world
    = (Some tt, w') /\
    AutoUpdater.current w'
    = AutoUpdater.set_last_update_check (Some "2024-01-01T00:00:00")
        AutoUpdater.default_settings /\
    AutoUpdater.settings_file w' = Some (AutoUpdater.current w') /\
    AutoUpdater.log w' =
      [AutoUpdater.update_check_started;
       AutoUpdater.settings_saved (AutoUpdater.current w') true]
      ++ (AutoUpdater.checker_signal <$>
          (UpdateManager.status_updated UpdateManager.MsgChecking :: evs))
      ++ [AutoUpdater.update_check_completed has_update].
Proof.
  pose proof (scheduled_check_due_and_stamped Scenario.offline_env
    AutoUpdater.default_settings Scenario.epoch Scenario.scheduler_world
    Scenario.app_world) as [Hfirst Hrun].
  pose proof (scheduled_check_due_and_stamped Scenario.reading_env
    (Scenario.checked_at_epoch 6) Scenario.six_hours_later Scenario.scheduler_world
    Scenario.app_world) as [Hdue _].
  pose proof (scheduled_check_due_and_stamped Scenario.reading_env
    (Scenario.checked_at_epoch 6) Scenario.one_hour_later Scenario.scheduler_world
    Scenario.app_world) as [Hearly _].
  split; [|split; [|split]].
  - apply Hfirst. split; [reflexivity|]. left. reflexivity.
  - apply Hdue. split; [reflexivity|]. right.
    exists "2024-01-01T00:00:00". split; [reflexivity|]. right. right.
    exists Scenario.epoch, (6 * 3600 * 1000000). repeat split. vm_compute. discriminate.
  - destruct (AutoUpdater.should_check_updates Scenario.reading_env
                (Scenario.checked_at_epoch 6) Scenario.one_hour_later) eqn:Hnow;
      [|reflexivity].
    exfalso. pose proof (proj1 Hearly eq_refl) as Hwhy.
    destruct Hwhy as [_ [Hnone|(last & Hlast & [Hparse|[Hover|(t & i & Hparse & Hi & Hge)]])]].
    + discriminate Hnone.
    + injection Hlast as <-. discriminate Hparse.
    + discriminate Hover.
    + injection Hlast as <-. injection Hparse as <-. injection Hi as <-.
      vm_compute in Hge. apply Hge. reflexivity.
  - apply (Hrun eq_refl).
Defined.

(** C9, as stated, fails.  With automatic checks on and a stamp that is
    read and one hour old, an interval of 10^12 hours is far from elapsed,
    yet the check is due: [timedelta] refuses the interval and the [except]
    clause answers [True].  And a stored stamp that cannot be read makes
    the check due although a stamp exists and no time has passed. *)
Lemma scheduled_check_due_before_interval :
  AutoUpdater.auto_check_updates (Scenario.checked_at_epoch 1000000000000) = true /\
  AutoUpdater.fromisoformat Scenario.reading_env "2024-01-01T00:00:00" = Some Scenario.epoch /\
  Py.micros Scenario.one_hour_later - Py.micros Scenario.epoch
  < 1000000000000 * 3600 * 1000000 /\
  AutoUpdater.should_check_updates Scenario.reading_env
    (Scenario.checked_at_epoch 1000000000000) Scenario.one_hour_later = true /\
  AutoUpdater.last_update_check (Scenario.checked_at_epoch 6) = Some "2024-01-01T00:00:00" /\
  AutoUpdater.should_check_updates Scenario.offline_env (Scenario.checked_at_epoch 6)
    Scenario.epoch = true.
Proof. repeat split; vm_compute; reflexivity. Qed.

(** ** Backup retention *)
Section Sorting.
Import Py Props.
Context {A : Type} (key : A -> Z).

Lemma insert_desc_perm (x : A) (l : list A) : Permutation (insert_desc key x l) (x :: l).
Proof.
  induction l as [|y l IH]; simpl; [reflexivity|].
  destruct (key y >? key x); [|reflexivity].
  rewrite IH. apply perm_swap.
Qed.

Lemma sort_desc_perm (l : list A) : Permutation (sort_desc key l) l.
Proof.
  induction l as [|x l IH]; simpl; [reflexivity|].
  rewrite insert_desc_perm, IH. reflexivity.
Qed.

Lemma insert_desc_descending (x : A) (l : list A) :
  descending key l -> descending key (insert_desc key x l).
Proof.
  induction l as [|y l IH]; simpl; [auto|]. intros [Hy Hl].
  destruct (Z.gtb_spec (key y) (key x)) as [Hgt|Hle]; simpl.
  - split; [|apply IH, Hl].
    rewrite insert_desc_perm. constructor; [lia|exact Hy].
  - split; [|split; [exact Hy|exact Hl]].
    constructor; [lia|]. eapply Forall_impl; [exact Hy|]. simpl. intros; lia.
Qed.

Lemma sort_desc_descending (l : list A) : descending key (sort_desc key l).
Proof.
  induction l as [|x l IH]; simpl; [exact I|]. apply insert_desc_descending, IH.
Qed.

(** In a descending list, what comes first is at least as recent as what
    comes later. *)
Lemma descending_split (l1 l2 : list A) :
  descending key (l1 ++ l2) ->
  forall a b, a ∈ l1 -> b ∈ l2 -> key a >= key b.
Proof.
  induction l1 as [|x l1 IH]; simpl; intros H a b Ha Hb.
  - inversion Ha.
  - destruct H as [Hx Hl]. apply elem_of_cons in Ha as [->|Ha].
    + rewrite Forall_forall in Hx. apply Hx. apply elem_of_app. auto.
    + apply (IH Hl a b Ha Hb).
Qed.

End Sorting.

Section Cleanup.
Import Py Props UpdateManager.
Variable E : env.

Lemma filter_all {A} (P : A -> Prop) `{forall x, Decision (P x)} (l : list A) :
  (forall x, x ∈ l -> P x) -> filter P l = l.
Proof.
  induction l as [|x l IH]; intros HP; [reflexivity|].
  rewrite filter_cons_True by (apply HP; left).
  f_equal. apply IH. intros y Hy. apply HP. right. exact Hy.
Qed.

Lemma rmtree_filter (name : string) (l : list (string * entry)) :
  denied E (LocRemove name) = false ->
  rmtree E name l = filter (fun q => q.1 <> name) l.
Proof.
  intros Hd. unfold rmtree. rewrite Hd. apply list_filter_iff. intros q.
  destruct (String.eqb_spec q.1 name); simpl; intuition.
Qed.

Lemma fold_rmtree (doomed : list (string * entry)) :
  forall l, fold_left (fun l p => rmtree E p.1 l) doomed l
            = filter (fun q => q.1 ∉ deleted E doomed) l.
Proof.
  induction doomed as [|p doomed IH]; intros l; simpl.
  - symmetry. apply filter_all. intros q _. unfold deleted. simpl. apply not_elem_of_nil.
  - rewrite IH. unfold deleted. rewrite fmap_cons.
    destruct (denied E (LocRemove p.1)) eqn:Hd.
    + rewrite filter_cons_False by (rewrite Hd; discriminate).
      unfold rmtree. rewrite Hd. reflexivity.
    + rewrite filter_cons_True by exact Hd.
      rewrite (rmtree_filter _ _ Hd), list_filter_filter.
      apply list_filter_iff. intros q. rewrite not_elem_of_cons. tauto.
Qed.

Lemma unique_by_name (l : list (string * entry)) (p q : string * entry) :
  NoDup (fst <$> l) -> p ∈ l -> q ∈ l -> p.1 = q.1 -> p = q.
Proof.
  induction l as [|x l IH]; intros Hnd Hp Hq Heq; [inversion Hp|].
  rewrite fmap_cons in Hnd. apply NoDup_cons in Hnd as [Hx Hnd].
  apply elem_of_cons in Hp as [->|Hp]; apply elem_of_cons in Hq as [->|Hq]; auto.
  - exfalso. apply Hx. rewrite Heq. apply list_elem_of_fmap. eauto.
  - exfalso. apply Hx. rewrite <- Heq. apply list_elem_of_fmap. eauto.
Qed.

Lemma slice_from_drop {A} (n : Z) (l : list A) : 0 <= n -> slice_from n l = drop (Z.to_nat n) l.
Proof. intros H. unfold slice_from. destruct (Z.ltb_spec n 0); [lia|reflexivity]. Qed.

Lemma cleanup_listing (keep_count : Z) (w : world) :
  listing (cleanup_old_backups E keep_count w)
  = filter (fun q => q.1 ∉ deleted E (slice_from keep_count (ranked (listing w)))) (listing w).
Proof.
  unfold cleanup_old_backups, listing. destruct (backup_dir w) as [l|] eqn:Hb; simpl.
  - apply fold_rmtree.
  - rewrite Hb. reflexivity.
Qed.

(** Without deletion failures, pruning keeps exactly the [keep_count] most
    recent snapshots and nothing else changes. *)
Lemma cleanup_keeps_most_recent (keep_count : Z) (w : world) :
  0 <= keep_count ->
  NoDup (fst <$> listing w) ->
  (forall name, denied E (LocRemove name) = false) ->
  let kept := take (Z.to_nat keep_count) (ranked (listing w)) in
  let removed := drop (Z.to_nat keep_count) (ranked (listing w)) in
  let after := listing (cleanup_old_backups E keep_count w) in
  Permutation (snapshots after) kept /\
  length (snapshots after) = Nat.min (Z.to_nat keep_count) (length (snapshots (listing w))) /\
  (forall k r, k ∈ kept -> r ∈ removed -> created k >= created r) /\
  (forall q, q ∈ listing w -> is_snapshot q = false -> q ∈ after) /\
  sublist after (listing w).
Proof.
  intros Hk Hnd Hden kept removed after.
  assert (Hrank : ranked (listing w) ≡ₚ snapshots (listing w))
    by apply sort_desc_perm.
  assert (Hsub : snapshots (listing w) `sublist_of` listing w) by apply sublist_filter.
  assert (Hnd_l : NoDup (listing w)) by (eapply NoDup_fmap_1; exact Hnd).
  assert (Hnd_r : NoDup (ranked (listing w))).
  { rewrite Hrank. eapply sublist_NoDup; eauto. }
  assert (Hsplit : ranked (listing w) = kept ++ removed)
    by (symmetry; apply take_drop).
  assert (Hdel : deleted E (slice_from keep_count (ranked (listing w))) = fst <$> removed).
  { rewrite slice_from_drop by exact Hk. unfold deleted. apply filter_all.
    intros n _. apply Hden. }
  assert (Hafter : forall q, q ∈ after <-> q ∈ listing w /\ q ∉ removed).
  { intros q. unfold after. rewrite cleanup_listing, Hdel, list_elem_of_filter.
    split.
    - intros [H1 H2]. split; [exact H2|].
      intros Hin. apply H1. apply list_elem_of_fmap. eauto.
    - intros [H1 H2]. split; [|exact H1].
      intros Hin. apply list_elem_of_fmap in Hin as (p & Hp1 & Hp2).
      apply H2. replace q with p; [exact Hp2|].
      symmetry. apply (unique_by_name (listing w)); auto.
      eapply elem_of_sublist; [|exact Hsub]. rewrite <- Hrank, Hsplit.
      apply elem_of_app. auto. }
  assert (Hperm : snapshots after ≡ₚ kept).
  { apply NoDup_Permutation.
    - apply NoDup_filter. unfold after. rewrite cleanup_listing. apply NoDup_filter, Hnd_l.
    - rewrite Hsplit in Hnd_r. apply NoDup_app in Hnd_r. tauto.
    - intros q. unfold snapshots at 1. rewrite list_elem_of_filter, Hafter.
      rewrite Hsplit in Hnd_r. apply NoDup_app in Hnd_r as (_ & Hdisj & _).
      split.
      + intros (Hs & Hl & Hr).
        assert (q ∈ ranked (listing w)) as Hq
          by (rewrite Hrank; apply list_elem_of_filter; auto).
        rewrite Hsplit in Hq. apply elem_of_app in Hq as [Hq|Hq]; [exact Hq|contradiction].
      + intros Hq.
        assert (q ∈ snapshots (listing w)) as Hq'
          by (rewrite <- Hrank, Hsplit; apply elem_of_app; auto).
        apply list_elem_of_filter in Hq' as [Hs Hl].
        split; [exact Hs|]. split; [exact Hl|]. apply Hdisj, Hq. }
  split; [exact Hperm|]. split; [|split; [|split]].
  - rewrite Hperm. unfold kept. rewrite length_take, Hrank. reflexivity.
  - intros k r Hkk Hr. apply (descending_split created kept removed); auto.
    rewrite <- Hsplit. apply sort_desc_descending.
  - intros q Hq Hs. apply Hafter. split; [exact Hq|]. intros Hr.
    assert (q ∈ snapshots (listing w)) as Hq'
      by (rewrite <- Hrank, Hsplit; apply elem_of_app; auto).
    apply list_elem_of_filter in Hq' as [Hs' _]. rewrite Hs in Hs'. exact Hs'.
  - unfold after. rewrite cleanup_listing. apply sublist_filter.
Qed.

(** A snapshot whose deletion fails stays, and so does everything that is
    not handed to [rmtree]: a failure is never fatal. *)
Lemma cleanup_failure_not_fatal (keep_count : Z) (w : world) (q : string * entry) :
  q ∈ listing w -> denied E (LocRemove q.1) = true ->
  q ∈ listing (cleanup_old_backups E keep_count w).
Proof.
  intros Hq Hd. rewrite cleanup_listing. apply list_elem_of_filter. split; [|exact Hq].
  unfold deleted. rewrite list_elem_of_filter. intros [Hf _]. congruence.
Qed.

End Cleanup.

Section Installs.
Import Py Props UpdateManager.
Variable E : env.

Lemma assoc_app_fresh {A} (name : string) (a : A) (l : list (string * A)) :
  assoc name l = None -> assoc name (l ++ [(name, a)]) = Some a.
Proof.
  induction l as [|[n b] l IH]; simpl.
  - rewrite String.eqb_refl. reflexivity.
  - destruct (String.eqb n name); [discriminate|exact IH].
Qed.

Lemma assoc_set_app_fresh {A} (name : string) (a b : A) (l : list (string * A)) :
  assoc name l = None -> assoc_set name b (l ++ [(name, a)]) = l ++ [(name, b)].
Proof.
  induction l as [|[n c] l IH]; simpl.
  - rewrite String.eqb_refl. reflexivity.
  - destruct (String.eqb n name); [discriminate|]. intros H. rewrite (IH H). reflexivity.
Qed.

Lemma assoc_None_names {A} (name : string) (l : list (string * A)) :
  assoc name l = None <-> name ∉ (fst <$> l).
Proof.
  induction l as [|[n c] l IH]; simpl.
  - split; [intros _; apply not_elem_of_nil|reflexivity].
  - rewrite not_elem_of_cons. destruct (String.eqb_spec n name) as [->|Hne].
    + split; [discriminate|]. intros [H _]. contradiction.
    + rewrite IH. split; [intros H; split; auto|tauto].
Qed.

Ltac um_unfold := unfold emit, copy_to_backup, now, stage, create_update_script,
  read_cache, extract_member.

Lemma copy_to_backup_new before name file_name content :
  assoc name before = None ->
  respects (fun w1 w2 => holds_new_snapshot before name w1 -> holds_new_snapshot before name w2)
    (copy_to_backup E name file_name content).
Proof.
  intros Hfresh w (e & Hb & Hd). unfold copy_to_backup, Eff.bind, Eff.get. simpl.
  destruct (denied E (LocBackupFile name file_name)); simpl; [exists e; auto|].
  rewrite Hb. simpl. rewrite (assoc_app_fresh name e before Hfresh). simpl.
  rewrite (assoc_set_app_fresh name e _ before Hfresh).
  eexists. split; [reflexivity|exact Hd].
Qed.

Ltac new_pre := solve [auto].

Lemma create_backup_appends (w w' : world) :
  create_backup E w = (Some true, w') ->
  assoc ("backup_" +:+ stamp (clock E (ticks w))) (listing w) = None ->
  holds_new_snapshot (listing w) ("backup_" +:+ stamp (clock E (ticks w))) w'.
Proof.
  intros H Hfresh. unfold create_backup, Eff.try_except in H.
  destruct (create_backup_try E w) as [[b|] w1] eqn:Ht.
  2:{ unfold Eff.bind, emit, Eff.modify, Eff.ret in H. inversion H. }
  inversion H; subst b w1. clear H.
  unfold create_backup_try in Ht.
  pure_in Ht. pure_in Ht. cbv zeta in Ht. pure_in Ht.
  cbn [backup_dir set_ticks set_log ticks] in Ht.
  change (default [] (backup_dir w)) with (listing w) in Ht.
  rewrite Hfresh in Ht.
  destruct (denied E (LocBackupDir ("backup_" +:+ stamp (clock E (ticks w))))).
  { pure_in Ht. discriminate Ht. }
  pure_in Ht.
  match type of Ht with
  | ?mm ?ww = _ =>
      assert (Hr : respects
        (fun w1 w2 => holds_new_snapshot (listing w)
                        ("backup_" +:+ stamp (clock E (ticks w))) w1 ->
                      holds_new_snapshot (listing w)
                        ("backup_" +:+ stamp (clock E (ticks w))) w2) mm);
      [|specialize (Hr ww); rewrite Ht in Hr; apply Hr]
  end.
  - repeat first
      [ apply copy_to_backup_new; exact Hfresh
      | respects_step new_pre
      | apply respects_modify; intros ? (e & He & Hd); exists e; split; [exact He|exact Hd]
      | progress (unfold emit, now)
      | (intros ? (e & He & Hd); exists e; split; [exact He|exact Hd]) ].
  - eexists. split; [reflexivity|reflexivity].
Qed.

Lemma create_backup_total : total (create_backup E).
Proof.
  unfold create_backup. apply total_try.
  apply total_bind; [apply total_modify|intros _; apply total_ret].
Qed.

Lemma install_update_appends (update_file : string) (w w' : world) :
  install_update E update_file w = (Some true, w') ->
  assoc ("backup_" +:+ stamp (clock E (ticks w))) (listing w) = None ->
  holds_new_snapshot (listing w) ("backup_" +:+ stamp (clock E (ticks w))) w'.
Proof.
  intros H Hfresh. unfold install_update, Eff.try_except in H.
  destruct (install_update_try E update_file w) as [[b|] w1] eqn:Ht.
  2:{ unfold Eff.bind, emit, Eff.modify, Eff.ret in H. inversion H. }
  inversion H; subst b w1. clear H.
  unfold install_update_try in Ht.
  pure_in Ht.
  step_in Ht backed wb Hb.
  2:{ destruct (create_backup_total
         (set_log (log w ++ [status_updated MsgInstalling]) w)) as [? Hx].
      rewrite Hb in Hx. discriminate Hx. }
  destruct backed; cbn [negb] in Ht; [|inversion Ht].
  apply create_backup_appends in Hb; [|exact Hfresh].
  change (listing (set_log (log w ++ [status_updated MsgInstalling]) w))
    with (listing w) in Hb.
  change (ticks (set_log (log w ++ [status_updated MsgInstalling]) w))
    with (ticks w) in Hb.
  match type of Ht with
  | ?mm ?ww = _ =>
      assert (Hr : respects
        (fun w1 w2 => holds_new_snapshot (listing w)
                        ("backup_" +:+ stamp (clock E (ticks w))) w1 ->
                      holds_new_snapshot (listing w)
                        ("backup_" +:+ stamp (clock E (ticks w))) w2) mm);
      [|specialize (Hr ww); rewrite Ht in Hr; apply Hr; exact Hb]
  end.
  cbv zeta.
  repeat first
    [ respects_step new_pre
    | apply respects_modify; intros ? (e & He & Hd); exists e; split; [exact He|exact Hd]
    | progress (unfold emit, now, stage, create_update_script, read_cache, extract_member)
    | (intros ? (e & He & Hd); exists e; split; [exact He|exact Hd]) ].
Qed.

(** Successive successful installs, each under a fresh name, add one
    snapshot each to the backup directory and remove none. *)
Lemma installs_accumulate (update_files : list string) :
  forall w, fresh_installs E update_files w ->
  exists added,
    listing (after_installs E update_files w) = listing w ++ added /\
    length added = length update_files /\
    Forall (fun p => is_snapshot p = true) added /\
    (NoDup (fst <$> listing w) ->
     NoDup (fst <$> listing (after_installs E update_files w))).
Proof.
  induction update_files as [|f rest IH]; intros w Hfresh.
  - exists []. simpl. rewrite app_nil_r. auto.
  - destruct Hfresh as (Hnew & Hok & Hrest).
    destruct (install_update E f w) as [r w1] eqn:Hi. simpl in Hok, Hrest. subst r.
    destruct (install_update_appends f w w1 Hi Hnew) as (e & Hdir & Hisdir).
    assert (Hl1 : listing w1 = listing w ++ [("backup_" +:+ stamp (clock E (ticks w)), e)])
      by (unfold listing at 1; rewrite Hdir; reflexivity).
    destruct (IH w1 Hrest) as (added & Hafter & Hlen & Hsnap & Hnd).
    exists (("backup_" +:+ stamp (clock E (ticks w)), e) :: added).
    unfold after_installs in *. simpl fold_left. rewrite Hi. simpl snd.
    split; [|split; [|split]].
    + rewrite Hafter, Hl1, <- app_assoc. reflexivity.
    + simpl. rewrite Hlen. reflexivity.
    + constructor; [|exact Hsnap]. unfold is_snapshot. simpl. rewrite Hisdir. reflexivity.
    + intros Hw. apply Hnd. rewrite Hl1, fmap_app. apply NoDup_app.
      split; [exact Hw|]. split; [|apply NoDup_singleton].
      intros n Hn Hn'. simpl in Hn'. apply list_elem_of_singleton in Hn'. subst n.
      apply assoc_None_names in Hnew. contradiction.
Qed.

End Installs.

Section Retention.
Import Py Props UpdateManager.
Variable E : env.

(** Installs never prune: after successive successful installs, each under
    a fresh name, from an empty backup directory, there are as many
    snapshots as installs; pruning them then leaves exactly [keep] of
    them, the most recent ones. *)
Lemma installs_then_cleanup (keep : nat) (update_files : list string) (w : world) :
  listing w = [] ->
  fresh_installs E update_files w ->
  length update_files = (keep + 3)%nat ->
  length (snapshots (listing (after_installs E update_files w))) = (keep + 3)%nat /\
  ((forall name, denied E (LocRemove name) = false) ->
   length (snapshots (listing (cleanup_old_backups E (Z.of_nat keep)
                                 (after_installs E update_files w)))) = keep /\
   Permutation
     (snapshots (listing (cleanup_old_backups E (Z.of_nat keep)
                            (after_installs E update_files w))))
     (take keep (ranked (listing (after_installs E update_files w)))) /\
   (forall k r,
      k ∈ take keep (ranked (listing (after_installs E update_files w))) ->
      r ∈ drop keep (ranked (listing (after_installs E update_files w))) ->
      created k >= created r)).
Proof.
  intros Hempty Hfresh Hlen.
  destruct (installs_accumulate E update_files w Hfresh) as (added & Hafter & Hadded & Hsnap & Hnd).
  rewrite Hempty in Hafter, Hnd. simpl in Hafter.
  assert (Hcount : length (snapshots (listing (after_installs E update_files w)))
                   = (keep + 3)%nat).
  { rewrite Hafter. unfold snapshots. rewrite filter_all; [lia|].
    intros p Hp. rewrite Forall_forall in Hsnap. rewrite (Hsnap p Hp). exact I. }
  split; [exact Hcount|]. intros Hden.
  destruct (cleanup_keeps_most_recent E (Z.of_nat keep) (after_installs E update_files w))
    as (Hperm & Hl & Hord & _ & _).
  - lia.
  - apply Hnd. constructor.
  - exact Hden.
  - rewrite Nat2Z.id in *. split; [|split].
    + rewrite Hl, Hcount. lia.
    + exact Hperm.
    + exact Hord.
Qed.

End Retention.

(** C8, as the code has it.  [cleanup_old_backups] with keep count [N]
    leaves exactly the [N] most recent snapshots by creation time and
    touches nothing else, and a snapshot whose deletion fails simply
    stays: the failure is not fatal.  Installs do not prune: after [N+3]
    successive successful installs (each under a fresh time stamp, from
    an empty backup directory) there are [N+3] snapshots, and exactly
    [N], the most recent ones, remain once [cleanup_old_backups] is
    called with keep count [N]. *)
Theorem backup_retention_by_explicit_cleanup (E : UpdateManager.env) :
  (forall (keep_count : Z) (w : UpdateManager.world),
     0 <= keep_count ->
     NoDup (fst <$> Props.listing w) ->
     (forall name, UpdateManager.denied E (UpdateManager.LocRemove name) = false) ->
     Permutation
       (Props.snapshots (Props.listing (UpdateManager.cleanup_old_backups E keep_count w)))
       (take (Z.to_nat keep_count) (Props.ranked (Props.listing w))) /\
     length (Props.snapshots
               (Props.listing (UpdateManager.cleanup_old_backups E keep_count w)))
     = Nat.min (Z.to_nat keep_count) (length (Props.snapshots (Props.listing w))) /\
     (forall k r,
        k ∈ take (Z.to_nat keep_count) (Props.ranked (Props.listing w)) ->
        r ∈ drop (Z.to_nat keep_count) (Props.ranked (Props.listing w)) ->
        Props.created k >= Props.created r) /\
     (forall q, q ∈ Props.listing w -> Props.is_snapshot q = false ->
        q ∈ Props.listing (UpdateManager.cleanup_old_backups E keep_count w)) /\
     sublist (Props.listing (UpdateManager.cleanup_old_backups E keep_count w))
       (Props.listing w)) /\
  (forall (keep_count : Z) (w : UpdateManager.world) (q : string * UpdateManager.entry),
     q ∈ Props.listing w ->
     UpdateManager.denied E (UpdateManager.LocRemove q.1) = true ->
     q ∈ Props.listing (UpdateManager.cleanup_old_backups E keep_count w)) /\
  (forall (keep : nat) (update_files : list string) (w : UpdateManager.world),
     Props.listing w = [] ->
     Props.fresh_installs E update_files w ->
     length update_files = (keep + 3)%nat ->
     length (Props.snapshots (Props.listing (Props.after_installs E update_files w)))
     = (keep + 3)%nat /\
     ((forall name, UpdateManager.denied E (UpdateManager.LocRemove name) = false) ->
      length (Props.snapshots
                (Props.listing (UpdateManager.cleanup_old_backups E (Z.of_nat keep)
                                  (Props.after_installs E update_files w)))) = keep /\
      Permutation
        (Props.snapshots
           (Props.listing (UpdateManager.cleanup_old_backups E (Z.of_nat keep)
                             (Props.after_installs E update_files w))))
        (take keep (Props.ranked (Props.listing (Props.after_installs E update_files w)))) /\
      (forall k r,
         k ∈ take keep (Props.ranked (Props.listing (Props.after_installs E update_files w))) ->
         r ∈ drop keep (Props.ranked (Props.listing (Props.after_installs E update_files w))) ->
         Props.created k >= Props.created r))).
Proof.
  split; [|split].
  - intros keep_count w. apply cleanup_keeps_most_recent.
  - intros keep_count w q. apply cleanup_failure_not_fatal.
  - intros keep update_files w. apply installs_then_cleanup.
Qed.

Lemma backup_retention_by_explicit_cleanup_witness :
  length (Props.snapshots
            (Props.listing (Props.after_installs Scenario.installer_env
                              Scenario.four_updates Scenario.app_world))) = 4%nat /\
  length (Props.snapshots
            (Props.listing
               (UpdateManager.cleanup_old_backups Scenario.installer_env 1
                  (Props.after_installs Scenario.installer_env Scenario.four_updates
                     Scenario.app_world)))) = 1%nat.
Proof.
  destruct (proj2 (proj2 (backup_retention_by_explicit_cleanup Scenario.installer_env))
              1%nat Scenario.four_updates Scenario.app_world) as [Hcount Hprune].
  - reflexivity.
  - vm_compute. repeat split.
  - reflexivity.
  - split; [exact Hcount|]. apply Hprune. reflexivity.
Defined.

(** C8, as stated, fails: with retention 1, four successive successful
    installs leave four snapshots in the backup directory, since nothing
    in the install path prunes. *)
Lemma four_installs_leave_four_snapshots :
  Props.fresh_installs Scenario.installer_env Scenario.four_updates Scenario.app_world /\
  length (Props.snapshots
            (Props.listing (Props.after_installs Scenario.installer_env
                              Scenario.four_updates Scenario.app_world))) = 4%nat /\
  (length (Props.snapshots
             (Props.listing (Props.after_installs Scenario.installer_env
                               Scenario.four_updates Scenario.app_world))) =? 1)%nat = false.
Proof. split; [vm_compute; repeat split|]. split; vm_compute; reflexivity. Qed.

(** * Further properties of the three modules *)

(** ** Version comparison on arbitrary strings *)
Section CompareEverywhere.
Import Py Props.

Lemma str_lt_asym (a : string) : forall b, str_lt a b = true -> str_lt b a = false.
Proof.
  induction a as [|x a IH]; intros [|y b]; simpl; try discriminate; try reflexivity.
  destruct (Nat.ltb_spec (nat_of_ascii x) (nat_of_ascii y)),
           (Nat.ltb_spec (nat_of_ascii y) (nat_of_ascii x)); try lia; try discriminate; auto.
Qed.

(** Swapping the two versions negates the verdict of one step. *)
Lemma um_step_flip (v1 v2 : list string) (i : nat) :
  UpdateManager.compare_step v2 v1 i
  = fmap (M := option) Z.opp <$> UpdateManager.compare_step v1 v2 i.
Proof.
  unfold UpdateManager.compare_step.
  destruct (v1 !! i) as [x|], (v2 !! i) as [y|]; simpl; try reflexivity.
  destruct (Py.int x) as [n1|], (Py.int y) as [n2|]; simpl.
  - destruct (Z.gtb_spec n1 n2), (Z.ltb_spec n1 n2), (Z.gtb_spec n2 n1), (Z.ltb_spec n2 n1);
      try lia; reflexivity.
  - unfold str_gt. destruct (str_lt y x) eqn:H1, (str_lt x y) eqn:H2; try reflexivity.
    apply str_lt_asym in H1. congruence.
  - unfold str_gt. destruct (str_lt y x) eqn:H1, (str_lt x y) eqn:H2; try reflexivity.
    apply str_lt_asym in H1. congruence.
  - unfold str_gt. destruct (str_lt y x) eqn:H1, (str_lt x y) eqn:H2; try reflexivity.
    apply str_lt_asym in H1. congruence.
Qed.

Lemma um_loop_flip (v1 v2 : list string) (idx : list nat) :
  UpdateManager.compare_loop v2 v1 idx = Z.opp <$> UpdateManager.compare_loop v1 v2 idx.
Proof.
  induction idx as [|i idx IH]; simpl; [reflexivity|].
  rewrite um_step_flip.
  destruct (UpdateManager.compare_step v1 v2 i) as [[r|]|]; simpl; auto.
Qed.

Lemma um_compare_flip (a b : string) :
  UpdateManager.compare_versions a b = - UpdateManager.compare_versions b a.
Proof.
  unfold UpdateManager.compare_versions. cbv zeta.
  rewrite (Z.max_comm (len (split_char "." (lstrip_char "v" a)))).
  rewrite (um_loop_flip (extend (split_char "." (lstrip_char "v" b)) "0" _)).
  destruct (UpdateManager.compare_loop _ _ _); simpl; lia.
Qed.

Lemma ms_compare_flip (a b : string) :
  ModelSync.compare_versions a b = - ModelSync.compare_versions b a.
Proof.
  destruct (segments a) as [x|] eqn:Ha.
  - destruct (segments b) as [y|] eqn:Hb.
    + apply ms_compare_antisym; eauto.
    + rewrite !ms_compare_malformed by auto. reflexivity.
  - rewrite !ms_compare_malformed by auto. reflexivity.
Qed.

Lemma um_step_sign (v1 v2 : list string) (i : nat) (r : Z) :
  UpdateManager.compare_step v1 v2 i = Some (Some r) -> r = 1 \/ r = -1.
Proof.
  unfold UpdateManager.compare_step.
  destruct (v1 !! i) as [x|], (v2 !! i) as [y|]; simpl; try discriminate.
  destruct (Py.int x) as [n1|], (Py.int y) as [n2|];
    repeat match goal with |- context [if ?c then _ else _] => destruct c end;
    intros H; inversion H; auto.
Qed.

Lemma um_loop_sign (v1 v2 : list string) (idx : list nat) (r : Z) :
  UpdateManager.compare_loop v1 v2 idx = Some r -> r = 1 \/ r = -1 \/ r = 0.
Proof.
  induction idx as [|i idx IH]; simpl.
  - intros H. inversion H. auto.
  - destruct (UpdateManager.compare_step v1 v2 i) as [[s|]|] eqn:Hs; try discriminate.
    + intros H. inversion H; subst. apply um_step_sign in Hs. tauto.
    + exact IH.
Qed.

Lemma um_compare_sign (a b : string) :
  UpdateManager.compare_versions a b = 1 \/ UpdateManager.compare_versions a b = -1 \/
  UpdateManager.compare_versions a b = 0.
Proof.
  unfold UpdateManager.compare_versions. cbv zeta.
  destruct (UpdateManager.compare_loop _ _ _) as [r|] eqn:H; [|auto].
  apply um_loop_sign in H. exact H.
Qed.

Lemma ms_loop_sign (v1 v2 : list Z) (idx : list nat) (r : Z) :
  ModelSync.compare_loop v1 v2 idx = Some r -> r = 1 \/ r = -1 \/ r = 0.
Proof.
  induction idx as [|i idx IH]; simpl.
  - intros H. inversion H. auto.
  - unfold ModelSync.compare_step.
    destruct (v1 !! i) as [x|], (v2 !! i) as [y|]; simpl; try discriminate.
    destruct (x >? y); [intros H; inversion H; auto|].
    destruct (x <? y); [intros H; inversion H; auto|]. exact IH.
Qed.

Lemma ms_compare_sign (a b : string) :
  ModelSync.compare_versions a b = 1 \/ ModelSync.compare_versions a b = -1 \/
  ModelSync.compare_versions a b = 0.
Proof.
  unfold ModelSync.compare_versions.
  destruct (ModelSync.compare_versions_try a b) as [r|] eqn:H; [|auto].
  unfold ModelSync.compare_versions_try in H.
  destruct (mapM Py.int (split_char "." a)); simpl in H; [|discriminate].
  destruct (mapM Py.int (split_char "." b)); simpl in H; [|discriminate].
  apply ms_loop_sign in H. exact H.
Qed.

Lemma ms_compare_same (a : string) : ModelSync.compare_versions a a = 0.
Proof. pose proof (ms_compare_flip a a). lia. Qed.

End CompareEverywhere.

(** X1.  Whatever the two strings are, well formed or not, both
    [compare_versions] return -1, 0 or 1, swapping the arguments negates
    the result, and a version compared with itself gives 0. *)
Theorem compare_versions_antisymmetric_on_all_strings (a b : string) :
  UpdateManager.compare_versions a b = - UpdateManager.compare_versions b a /\
  ModelSync.compare_versions a b = - ModelSync.compare_versions b a /\
  UpdateManager.compare_versions a a = 0 /\
  ModelSync.compare_versions a a = 0 /\
  -1 <= UpdateManager.compare_versions a b <= 1 /\
  -1 <= ModelSync.compare_versions a b <= 1.
Proof.
  split; [apply um_compare_flip|]. split; [apply ms_compare_flip|].
  split; [pose proof (um_compare_flip a a); lia|].
  split; [apply ms_compare_same|].
  pose proof (um_compare_sign a b). pose proof (ms_compare_sign a b). lia.
Qed.

(** The application resolver is not an order on all strings: once a
    segment is not a number the comparison falls back to text, and
    [10 > 9 > 1a > 10]. *)
Example compare_versions_cycle_with_text_segment :
  UpdateManager.compare_versions "10" "9" = 1 /\
  UpdateManager.compare_versions "9" "1a" = 1 /\
  UpdateManager.compare_versions "1a" "10" = 1.
Proof. repeat split; vm_compute; reflexivity. Qed.

(** ** Which models are offered for an update *)
Section Offers.
Import Py Props ModelSync.

(** What [check_for_model_updates] decides for one model. *)
Lemma offered_iff (cfg : config) (w : world) (name : string) :
  name ∈ check_for_model_updates cfg w <->
  exists mc, (name, mc) ∈ models cfg /\
    compare_versions (default "1.0.0" (mc_version mc))
      (default "0.0.0" (get_model_versions w !! name)) > 0.
Proof.
  unfold check_for_model_updates. rewrite list_elem_of_fmap. split.
  - intros ([n mc] & -> & Hin). apply list_elem_of_filter in Hin as [Hgt Hin].
    exists mc. split; [exact Hin|exact Hgt].
  - intros (mc & Hin & Hgt). exists (name, mc). split; [reflexivity|].
    apply list_elem_of_filter. split; [exact Hgt|exact Hin].
Qed.

Lemma models_lookup_unique (cfg : config) (name : string) (mc : model_config) :
  NoDup (fst <$> models cfg) -> (name, mc) ∈ models cfg ->
  models_lookup cfg name = Some mc.
Proof.
  unfold models_lookup. induction (models cfg) as [|[n c] l IH]; intros Hnd Hin.
  - inversion Hin.
  - rewrite fmap_cons in Hnd. apply NoDup_cons in Hnd as [Hn Hnd]. simpl.
    apply elem_of_cons in Hin as [Heq|Hin].
    + inversion Heq; subst. rewrite String.eqb_refl. reflexivity.
    + destruct (String.eqb_spec n name) as [->|Hne]; [|apply IH; auto].
      exfalso. apply Hn. apply list_elem_of_fmap. exists (name, mc). auto.
Qed.

End Offers.

(** X2.  Once [download_model] has succeeded for a model and the ledger
    could be written, [check_for_model_updates] no longer offers that
    model, and what it says of every other model is unchanged (the names
    of the configured models being distinct, as the keys of a dictionary
    are). *)
Theorem updated_model_not_offered_again (E : ModelSync.env) (cfg : ModelSync.config)
  (model_name : string) (w : ModelSync.world) :
  NoDup (fst <$> ModelSync.models cfg) ->
  ModelSync.denied E ModelSync.LocVersionFile = false ->
  fst (ModelSync.download_model E cfg model_name w) = Some true ->
  (model_name ∉ ModelSync.check_for_model_updates cfg
                  (snd (ModelSync.download_model E cfg model_name w))) /\
  (forall other, other <> model_name ->
     (other ∈ ModelSync.check_for_model_updates cfg
                (snd (ModelSync.download_model E cfg model_name w)) <->
      other ∈ ModelSync.check_for_model_updates cfg w)).
Proof.
  intros Hnd Hden Hok.
  destruct (download_model_cases E cfg model_name w) as [[Hf _]|[_ Hex]]; [congruence|].
  destruct Hex as (mc & version & type & w_pre & w_got & w_in & w_out &
                   Hlk & Hver & _ & _ & _ & _ & _ & _ & _ & _ & _ & Hledger).
  rewrite Hden in Hledger.
  assert (Hget : ModelSync.get_model_versions (snd (ModelSync.download_model E cfg model_name w))
                 = <[model_name := version]> (ModelSync.get_model_versions w)).
  { unfold ModelSync.get_model_versions at 1. rewrite Hledger. reflexivity. }
  split.
  - rewrite offered_iff. intros (mc' & Hin & Hgt).
    rewrite (models_lookup_unique cfg model_name mc' Hnd Hin) in Hlk.
    inversion Hlk; subst mc'. rewrite Hget, lookup_insert_eq, Hver in Hgt. simpl in Hgt.
    rewrite ms_compare_same in Hgt. lia.
  - intros other Hne. rewrite !offered_iff, Hget, lookup_insert_ne by congruence.
    reflexivity.
Qed.

Lemma updated_model_not_offered_again_witness :
  ModelSync.check_for_model_updates Scenario.m1_cfg Scenario.m1_world = ["m1"] /\
  bool_decide
    ("m1" ∈ ModelSync.check_for_model_updates Scenario.m1_cfg
              (snd (ModelSync.download_model Scenario.delivering_env Scenario.m1_cfg "m1"
                      Scenario.m1_world))) = false.
Proof.
  split; [vm_compute; reflexivity|].
  apply bool_decide_eq_false.
  apply (updated_model_not_offered_again Scenario.delivering_env Scenario.m1_cfg "m1"
           Scenario.m1_world).
  - apply NoDup_singleton.
  - reflexivity.
  - vm_compute. reflexivity.
Defined.

(** X3.  A model whose configured version, or whose version in the
    ledger, has a segment that is not an integer (a [v] prefix, a suffix
    such as [-beta]) is never offered for an update: the comparison
    answers 0 for it. *)
Theorem unparsable_version_never_offered (cfg : ModelSync.config) (w : ModelSync.world)
  (name : string) (mc : ModelSync.model_config) :
  NoDup (fst <$> ModelSync.models cfg) ->
  (name, mc) ∈ ModelSync.models cfg ->
  Props.segments (default "1.0.0" (ModelSync.mc_version mc)) = None \/
  Props.segments (default "0.0.0" (ModelSync.get_model_versions w !! name)) = None ->
  name ∉ ModelSync.check_for_model_updates cfg w.
Proof.
  intros Hnd Hin Hbad. rewrite offered_iff. intros (mc' & Hin' & Hgt).
  assert (mc' = mc) as ->.
  { apply (models_lookup_unique cfg name) in Hin, Hin'; auto. congruence. }
  rewrite ms_compare_malformed in Hgt by exact Hbad. lia.
Qed.

Lemma unparsable_version_never_offered_witness :
  ModelSync.get_model_versions Scenario.m1_world !! "m1" = Some "1.0.0" /\
  bool_decide ("m1" ∈ ModelSync.check_for_model_updates Scenario.v_cfg Scenario.m1_world)
  = false.
Proof.
  split; [vm_compute; reflexivity|].
  apply bool_decide_eq_false.
  apply (unparsable_version_never_offered Scenario.v_cfg Scenario.m1_world "m1"
           (Scenario.m1_variant "v2.0.0" "file" EmptyString)).
  - apply NoDup_singleton.
  - apply list_elem_of_singleton. reflexivity.
  - left. vm_compute. reflexivity.
Defined.

(** ** The transfer of one file *)
Section Transfer.
Import Py Props ModelSync.
Variable E : env.

(** The run of [download_file] when the request is answered with a body:
    what was kept and everything received are at the path, and the result
    tells whether the stream went to its end. *)
Lemma download_file_run (url local_path : string) (resume : bool) (w : world)
  (response : response) :
  (forall entries, cache w !! local_path <> Some (Dir entries)) ->
  truthy (dirname local_path) = true ->
  denied E (LocCacheDir (dirname local_path)) = false ->
  denied E (LocCacheFile local_path) = false ->
  http_get E (get_google_drive_direct_url url)
    (if Py.len (kept w local_path resume) >? 0
     then Some (Py.len (kept w local_path resume)) else None) = Some response ->
  contains "text/html" (default EmptyString (content_type response)) = false ->
  ((400 <=? status_code response) && (status_code response <? 600)) = false ->
  fst (download_file E url local_path resume w) = Some (negb (stream_breaks response)) /\
  cache (snd (download_file E url local_path resume w))
  = <[local_path := File (kept w local_path resume ++ concat (body_chunks response))]> (cache w).
Proof.
  intros Hnodir Hname Hdir Hfile Hget Hhtml Hstatus.
  assert (Hpos : match cache w !! local_path with
                 | Some n => if resume then getsize E local_path n else 0
                 | None => 0
                 end = Py.len (kept w local_path resume)).
  { unfold kept. destruct (cache w !! local_path) as [[c|entries]|] eqn:Hc.
    - destruct resume; reflexivity.
    - exfalso. eapply Hnodir. reflexivity.
    - reflexivity. }
  unfold download_file, Eff.try_except, download_file_try. cbv zeta.
  erewrite bind_some by reflexivity. cbv beta.
  rewrite Hpos, Hname, Hdir, Hget. cbn [negb orb].
  set (k := kept w local_path resume) in *.
  set (w1 := if Py.len k >? 0
             then set_log (log w ++ [download_status (MsgResuming (Py.len k))]) w else w).
  assert (H1 : (if Py.len k >? 0 then emit (download_status (MsgResuming (Py.len k)))
                else Eff.ret tt) w = (Some tt, w1)).
  { unfold w1. destruct (Py.len k >? 0); reflexivity. }
  assert (Hc1 : cache w1 = cache w) by (unfold w1; destruct (Py.len k >? 0); reflexivity).
  erewrite bind_some by exact H1. cbv beta.
  erewrite bind_some by reflexivity. cbv beta.
  erewrite bind_some by reflexivity. cbv beta.
  rewrite Hhtml.
  erewrite bind_some by reflexivity. cbv beta.
  rewrite Hstatus.
  erewrite bind_some by reflexivity. cbv beta.
  assert (Hopen : exists w2, open_write E local_path (resume && (Py.len k >? 0)) w1 = (Some tt, w2)
                             /\ cache w2 = <[local_path := File k]> (cache w)).
  { unfold open_write. erewrite bind_some by reflexivity. cbv beta.
    rewrite Hfile, Hc1. unfold k, kept in *.
    destruct (cache w !! local_path) as [[c|entries]|] eqn:Hc.
    - destruct resume; simpl.
      + destruct (Py.len c >? 0) eqn:Hlen.
        * eexists. split; [reflexivity|]. rewrite Hc1. symmetry. apply insert_id, Hc.
        * assert (c = []) as ->.
          { destruct c; [reflexivity|]. unfold Py.len in Hlen. simpl length in Hlen.
            destruct (Z.gtb_spec (Z.of_nat (S (length c))) 0); [discriminate|lia]. }
          eexists. split; [reflexivity|]. simpl. rewrite Hc1. reflexivity.
      + eexists. split; [reflexivity|]. simpl. rewrite Hc1. reflexivity.
    - exfalso. eapply Hnodir. reflexivity.
    - eexists. split; [reflexivity|]. simpl. rewrite Hc1. reflexivity. }
  destruct Hopen as (w2 & Hopen & Hc2).
  erewrite bind_some by exact Hopen. cbv beta.
  destruct (write_chunks_cache local_path (get_file_size E (get_google_drive_direct_url url))
              (body_chunks response) (Py.len k) w2 k) as [Hr Hcache].
  { rewrite Hc2. apply lookup_insert_eq. }
  destruct (write_chunks local_path (get_file_size E (get_google_drive_direct_url url))
              (body_chunks response) (Py.len k) w2) as [r w3] eqn:Hw.
  simpl in Hr, Hcache. subst r.
  erewrite bind_some by exact Hw. cbv beta.
  rewrite Hc2, insert_insert_eq in Hcache.
  destruct (stream_breaks response).
  - erewrite bind_none by reflexivity. simpl. split; [reflexivity|exact Hcache].
  - erewrite bind_some by reflexivity. cbv beta.
    erewrite bind_some by reflexivity. cbv beta.
    simpl. split; [reflexivity|exact Hcache].
Qed.


(** The run of [download_file] when it fails before the file is opened. *)
Lemma download_file_fails_early (url local_path : string) (resume : bool) (w : world) :
  truthy (dirname local_path) = false \/
  denied E (LocCacheDir (dirname local_path)) = true \/
  (forall address range,
     match http_get E address range with
     | None => True
     | Some response =>
         ((400 <=? status_code response) && (status_code response <? 600)) = true
     end) ->
  fst (download_file E url local_path resume w) = Some false /\
  cache (snd (download_file E url local_path resume w)) = cache w /\
  exists evs,
    log (snd (download_file E url local_path resume w))
    = log w ++ evs ++ [download_error ErrDownloadFile] /\
    (evs = [] \/ exists initial_pos, evs = [download_status (MsgResuming initial_pos)]).
Proof.
  intros Hcase.
  unfold download_file, Eff.try_except, download_file_try. cbv zeta.
  erewrite bind_some by reflexivity. cbv beta.
  set (initial_pos := match cache w !! local_path with
                      | Some n => if resume then getsize E local_path n else 0
                      | None => 0
                      end).
  set (evs := if initial_pos >? 0 then [download_status (MsgResuming initial_pos)] else []).
  set (w1 := set_log (log w ++ evs) w).
  assert (H1 : (if initial_pos >? 0 then emit (download_status (MsgResuming initial_pos))
                else Eff.ret tt) w = (Some tt, w1)).
  { unfold w1, evs. destruct (initial_pos >? 0); [reflexivity|].
    rewrite app_nil_r. destruct w; reflexivity. }
  erewrite bind_some by exact H1. cbv beta.
  assert (Hevs : evs = [] \/ exists p, evs = [download_status (MsgResuming p)]).
  { unfold evs. destruct (initial_pos >? 0); eauto. }
  assert (Hend : forall k : Eff.M world bool,
            k w1 = (None, w1) ->
            fst (let '(r, w') := k w1 in
                 match r with
                 | Some a => (Some a, w')
                 | None => Eff.bind (emit (download_error ErrDownloadFile))
                             (fun _ => Eff.ret false) w'
                 end) = Some false /\
            cache (snd (let '(r, w') := k w1 in
                        match r with
                        | Some a => (Some a, w')
                        | None => Eff.bind (emit (download_error ErrDownloadFile))
                                    (fun _ => Eff.ret false) w'
                        end)) = cache w /\
            exists evs0,
              log (snd (let '(r, w') := k w1 in
                        match r with
                        | Some a => (Some a, w')
                        | None => Eff.bind (emit (download_error ErrDownloadFile))
                                    (fun _ => Eff.ret false) w'
                        end)) = log w ++ evs0 ++ [download_error ErrDownloadFile] /\
              (evs0 = [] \/ exists p, evs0 = [download_status (MsgResuming p)])).
  { intros k Hk. rewrite Hk. simpl. split; [reflexivity|]. split; [reflexivity|].
    exists evs. split; [rewrite <- app_assoc; reflexivity|exact Hevs]. }
  apply Hend.
  destruct (negb (truthy (dirname local_path)) || denied E (LocCacheDir (dirname local_path)))
    eqn:Hdir.
  { erewrite bind_none by reflexivity. reflexivity. }
  destruct Hcase as [Hn|[Hd|Hreq]].
  - rewrite Hn in Hdir. discriminate Hdir.
  - rewrite Hd, orb_true_r in Hdir. discriminate Hdir.
  - erewrite bind_some by reflexivity. cbv beta.
    pose proof (Hreq (get_google_drive_direct_url url)
                  (if initial_pos >? 0 then Some initial_pos else None)) as Hst.
    destruct (http_get E (get_google_drive_direct_url url)
                (if initial_pos >? 0 then Some initial_pos else None)) as [answer|];
      [|erewrite bind_none by reflexivity; reflexivity].
    erewrite bind_some by reflexivity. cbv beta.
    destruct (contains "text/html" (default EmptyString (content_type answer)));
      [destruct (contains "download_warning" (text answer));
       [destruct (search_confirm (text answer)) as [link|]|]|];
      try (erewrite bind_some by reflexivity; cbv beta; rewrite Hst;
           erewrite bind_none by reflexivity; reflexivity).
    pose proof (Hreq ("https://drive.google.com" ++ link)%string None) as Hconfirm.
    destruct (http_get E ("https://drive.google.com" ++ link)%string None) as [confirmed|];
      [|erewrite bind_none by reflexivity; reflexivity].
    erewrite bind_some by reflexivity. cbv beta. rewrite Hconfirm.
    erewrite bind_none by reflexivity. reflexivity.
Qed.


End Transfer.

(** X4.  When there is nothing to resume from ([resume] is off, or the
    file is missing or empty) and the request succeeds, [download_file]
    returns [True] and the file holds exactly the bytes received, in
    order; no other file of the cache changes. *)
Theorem download_file_stores_the_response (E : ModelSync.env) (url local_path : string)
  (resume : bool) (w : ModelSync.world) (response : ModelSync.response) :
  (forall entries, ModelSync.cache w !! local_path <> Some (Py.Dir entries)) ->
  Props.kept w local_path resume = [] ->
  Py.truthy (Py.dirname local_path) = true ->
  ModelSync.denied E (ModelSync.LocCacheDir (Py.dirname local_path)) = false ->
  ModelSync.denied E (ModelSync.LocCacheFile local_path) = false ->
  ModelSync.http_get E (ModelSync.get_google_drive_direct_url url) None = Some response ->
  Py.contains "text/html" (default EmptyString (ModelSync.content_type response)) = false ->
  ((400 <=? ModelSync.status_code response) && (ModelSync.status_code response <? 600))
  = false ->
  ModelSync.stream_breaks response = false ->
  fst (ModelSync.download_file E url local_path resume w) = Some true /\
  ModelSync.cache (snd (ModelSync.download_file E url local_path resume w))
  = <[local_path := Py.File (concat (ModelSync.body_chunks response))]> (ModelSync.cache w).
Proof.
  intros Hnodir Hkept Hname Hdir Hfile Hget Hhtml Hstatus Hbreak.
  destruct (download_file_run E url local_path resume w response) as [Hr Hc]; auto.
  { rewrite Hkept. exact Hget. }
  rewrite Hr, Hc, Hkept, Hbreak. split; reflexivity.
Qed.

Lemma download_file_stores_the_response_witness :
  fst (ModelSync.download_file Scenario.delivering_env "https://example.org/m1.bin"
         Scenario.m1_temp_path false Scenario.m1_downloaded) = Some true /\
  ModelSync.cache
    (snd (ModelSync.download_file Scenario.delivering_env "https://example.org/m1.bin"
            Scenario.m1_temp_path false Scenario.m1_downloaded))
  = <[Scenario.m1_temp_path := Py.File (concat [Scenario.bytes "new"])]>
      (ModelSync.cache Scenario.m1_downloaded).
Proof.
  apply (download_file_stores_the_response Scenario.delivering_env
           "https://example.org/m1.bin" Scenario.m1_temp_path false Scenario.m1_downloaded
           (Scenario.plain 200 [Scenario.bytes "new"])).
  - intros entries H. vm_compute in H. discriminate H.
  - vm_compute. reflexivity.
  - reflexivity.
  - reflexivity.
  - reflexivity.
  - vm_compute. reflexivity.
  - reflexivity.
  - reflexivity.
  - reflexivity.
Defined.

(** X5.  A download that is interrupted and then resumed yields the whole
    file when the server honours the range: the first call returns
    [False] but leaves the bytes received on disk, and the second call,
    which asks for the rest, returns [True] with the complete content. *)
Theorem interrupted_download_completed_by_resume (E : ModelSync.env) (url local_path : string)
  (w : ModelSync.world) (content : list byte) (k : nat)
  (first second : ModelSync.response) :
  ModelSync.cache w !! local_path = None ->
  Py.truthy (Py.dirname local_path) = true ->
  ModelSync.denied E (ModelSync.LocCacheDir (Py.dirname local_path)) = false ->
  ModelSync.denied E (ModelSync.LocCacheFile local_path) = false ->
  ModelSync.http_get E (ModelSync.get_google_drive_direct_url url) None = Some first ->
  Py.contains "text/html" (default EmptyString (ModelSync.content_type first)) = false ->
  ((400 <=? ModelSync.status_code first) && (ModelSync.status_code first <? 600)) = false ->
  ModelSync.stream_breaks first = true ->
  concat (ModelSync.body_chunks first) = take k content ->
  take k content <> [] ->
  ModelSync.http_get E (ModelSync.get_google_drive_direct_url url)
    (Some (Py.len (take k content))) = Some second ->
  Py.contains "text/html" (default EmptyString (ModelSync.content_type second)) = false ->
  ((400 <=? ModelSync.status_code second) && (ModelSync.status_code second <? 600)) = false ->
  ModelSync.stream_breaks second = false ->
  concat (ModelSync.body_chunks second) = drop k content ->
  fst (ModelSync.download_file E url local_path true w) = Some false /\
  ModelSync.cache (snd (ModelSync.download_file E url local_path true w)) !! local_path
  = Some (Py.File (take k content)) /\
  fst (ModelSync.download_file E url local_path true
         (snd (ModelSync.download_file E url local_path true w))) = Some true /\
  ModelSync.cache
    (snd (ModelSync.download_file E url local_path true
            (snd (ModelSync.download_file E url local_path true w))))
  = <[local_path := Py.File content]> (ModelSync.cache w).
Proof.
  intros Hnone Hname Hdir Hfile Hget1 Hhtml1 Hst1 Hbr1 Hbody1 Hne Hget2 Hhtml2 Hst2 Hbr2 Hbody2.
  assert (Hk0 : Props.kept w local_path true = []) by (unfold Props.kept; rewrite Hnone; reflexivity).
  destruct (download_file_run E url local_path true w first) as [Hr1 Hc1]; auto.
  { intros entries H. congruence. }
  { rewrite Hk0. exact Hget1. }
  rewrite Hk0, Hbody1 in Hc1. rewrite Hbr1 in Hr1. simpl in Hr1, Hc1.
  set (w1 := snd (ModelSync.download_file E url local_path true w)) in *.
  assert (Hl1 : ModelSync.cache w1 !! local_path = Some (Py.File (take k content)))
    by (rewrite Hc1; apply lookup_insert_eq).
  assert (Hk1 : Props.kept w1 local_path true = take k content)
    by (unfold Props.kept; rewrite Hl1; reflexivity).
  assert (Hpos : (Py.len (take k content) >? 0) = true).
  { destruct (take k content); [contradiction|]. unfold Py.len. simpl length.
    apply Z.gtb_gt. lia. }
  destruct (download_file_run E url local_path true w1 second) as [Hr2 Hc2]; auto.
  { intros entries H. congruence. }
  { rewrite Hk1, Hpos. exact Hget2. }
  rewrite Hk1, Hbody2, take_drop, Hc1, insert_insert_eq in Hc2. rewrite Hbr2 in Hr2.
  auto.
Qed.

Lemma interrupted_download_completed_by_resume_witness :
  fst (ModelSync.download_file Scenario.flaky_env "https://example.org/m.bin"
         "downloads/m.bin" true Scenario.empty_world) = Some false /\
  ModelSync.cache
    (snd (ModelSync.download_file Scenario.flaky_env "https://example.org/m.bin"
            "downloads/m.bin" true Scenario.empty_world)) !! "downloads/m.bin"
  = Some (Py.File (take 3 Scenario.remote_content)) /\
  fst (ModelSync.download_file Scenario.flaky_env "https://example.org/m.bin"
         "downloads/m.bin" true
         (snd (ModelSync.download_file Scenario.flaky_env "https://example.org/m.bin"
                 "downloads/m.bin" true Scenario.empty_world))) = Some true /\
  ModelSync.cache
    (snd (ModelSync.download_file Scenario.flaky_env "https://example.org/m.bin"
            "downloads/m.bin" true
            (snd (ModelSync.download_file Scenario.flaky_env "https://example.org/m.bin"
                    "downloads/m.bin" true Scenario.empty_world))))
  = <["downloads/m.bin" := Py.File Scenario.remote_content]>
      (ModelSync.cache Scenario.empty_world).
Proof.
  apply (interrupted_download_completed_by_resume Scenario.flaky_env
           "https://example.org/m.bin" "downloads/m.bin" Scenario.empty_world
           Scenario.remote_content 3
           {| ModelSync.status_code := 200;
              ModelSync.content_type := Some "application/octet-stream";
              ModelSync.content_length := None;
              ModelSync.text := EmptyString;
              ModelSync.body_chunks := [Scenario.bytes "abc"];
              ModelSync.stream_breaks := true |}
           (Scenario.plain 206 [Scenario.bytes "de"])).
  - vm_compute. reflexivity.
  - reflexivity.
  - reflexivity.
  - reflexivity.
  - vm_compute. reflexivity.
  - reflexivity.
  - reflexivity.
  - reflexivity.
  - vm_compute. reflexivity.
  - intros H. vm_compute in H. discriminate H.
  - vm_compute. reflexivity.
  - reflexivity.
  - reflexivity.
  - reflexivity.
  - vm_compute. reflexivity.
Defined.

(** X6.  When the directory of the local path cannot be made (it has no
    directory part, or its creation is refused), or when every request,
    to whatever address (the URL or a confirmation link) and for whatever
    range, fails or is answered with an error status, be it with an HTML
    page or not, [download_file] returns [False], ends with the signal
    [download_error], and leaves every file of the cache as it was: the
    file is neither created nor truncated. *)
Theorem download_file_failure_leaves_cache (E : ModelSync.env) (url local_path : string)
  (resume : bool) (w : ModelSync.world) :
  Py.truthy (Py.dirname local_path) = false \/
  ModelSync.denied E (ModelSync.LocCacheDir (Py.dirname local_path)) = true \/
  (forall address range,
     match ModelSync.http_get E address range with
     | None => True
     | Some response =>
         ((400 <=? ModelSync.status_code response) && (ModelSync.status_code response <? 600))
         = true
     end) ->
  fst (ModelSync.download_file E url local_path resume w) = Some false /\
  ModelSync.cache (snd (ModelSync.download_file E url local_path resume w))
  = ModelSync.cache w /\
  exists evs,
    ModelSync.log (snd (ModelSync.download_file E url local_path resume w))
    = ModelSync.log w ++ evs ++ [ModelSync.download_error ModelSync.ErrDownloadFile] /\
    (evs = [] \/
     exists initial_pos, evs = [ModelSync.download_status (ModelSync.MsgResuming initial_pos)]).
Proof. apply download_file_fails_early. Qed.

Lemma download_file_failure_leaves_cache_witness :
  (fst (ModelSync.download_file Scenario.delivering_env "https://example.org/m.bin"
          "m.bin" true Scenario.partial_world) = Some false /\
   ModelSync.cache
     (snd (ModelSync.download_file Scenario.delivering_env "https://example.org/m.bin"
             "m.bin" true Scenario.partial_world))
   = ModelSync.cache Scenario.partial_world) /\
  (fst (ModelSync.download_file Scenario.no_cache_dir_env "https://example.org/m.bin"
          "downloads/m.bin" false Scenario.partial_world) = Some false /\
   ModelSync.cache
     (snd (ModelSync.download_file Scenario.no_cache_dir_env "https://example.org/m.bin"
             "downloads/m.bin" false Scenario.partial_world))
   = ModelSync.cache Scenario.partial_world) /\
  (fst (ModelSync.download_file Scenario.forbidden_env "https://example.org/m.bin"
          "downloads/m.bin" true Scenario.partial_world) = Some false /\
   ModelSync.cache
     (snd (ModelSync.download_file Scenario.forbidden_env "https://example.org/m.bin"
             "downloads/m.bin" true Scenario.partial_world))
   = ModelSync.cache Scenario.partial_world /\
   ModelSync.log
     (snd (ModelSync.download_file Scenario.forbidden_env "https://example.org/m.bin"
             "downloads/m.bin" true Scenario.partial_world))
   = [ModelSync.download_status (ModelSync.MsgResuming 3);
      ModelSync.download_error ModelSync.ErrDownloadFile]).
Proof.
  split; [|split].
  - destruct (download_file_failure_leaves_cache Scenario.delivering_env
                "https://example.org/m.bin" "m.bin" true Scenario.partial_world)
      as (Hr & Hc & _).
    + left. reflexivity.
    + split; [exact Hr|exact Hc].
  - destruct (download_file_failure_leaves_cache Scenario.no_cache_dir_env
                "https://example.org/m.bin" "downloads/m.bin" false Scenario.partial_world)
      as (Hr & Hc & _).
    + right. left. reflexivity.
    + split; [exact Hr|exact Hc].
  - destruct (download_file_failure_leaves_cache Scenario.forbidden_env
                "https://example.org/m.bin" "downloads/m.bin" true Scenario.partial_world)
      as (Hr & Hc & _).
    + right. right. intros address range. reflexivity.
    + split; [exact Hr|]. split; [exact Hc|]. vm_compute. reflexivity.
Defined.

(** ** Backing up and installing a model *)
Section BackupModel.
Import Py Props ModelSync.
Variable E : env.

Lemma backup_model_snapshot (cfg : config) (model_name : string) (w : world)
  (mc : model_config) (destination : string) (n : node) :
  backup_old_models cfg = true ->
  models_lookup cfg model_name = Some mc ->
  mc_destination mc = Some destination ->
  dest w !! destination = Some n ->
  fst (backup_model E cfg model_name w) = Some true ->
  exists snapshot,
    backups (snd (backup_model E cfg model_name w))
      !! (model_name, stamp (clock E (ticks w))) = Some snapshot /\
    snapshot !! basename destination = Some n /\
    (forall key, key <> (model_name, stamp (clock E (ticks w))) ->
       backups (snd (backup_model E cfg model_name w)) !! key = backups w !! key).
Proof.
  intros Hb Hlk Hd Hn Hok.
  destruct (backup_model E cfg model_name w) as [r w'] eqn:Hrun. simpl in Hok. subst r. simpl.
  unfold backup_model in Hrun. rewrite Hb in Hrun. cbn [negb] in Hrun.
  unfold Eff.try_except in Hrun.
  destruct (backup_model_try E cfg model_name w) as [[b|] w1] eqn:Ht; [|inversion Hrun].
  inversion Hrun; subst b w1; clear Hrun.
  unfold backup_model_try in Ht. rewrite Hlk in Ht. pure_in Ht. rewrite Hd in Ht.
  pure_in Ht. pure_in Ht. rewrite Hn in Ht. pure_in Ht. cbv zeta in Ht.
  set (key := (model_name, stamp (clock E (ticks w)))) in *.
  assert (Hfin : forall (s : gmap string node) (w2 : world),
            backups w2 = <[key := s]> (backups w) ->
            (let* w := Eff.get
             in match n with
                | File _ =>
                    match default ∅ (backups w !! key) !! basename destination with
                    | Some (Dir _) => Eff.raise
                    | _ =>
                        do* Eff.modify
                              (set_backups
                                 <[key:=<[basename destination:=n]>
                                          (default ∅ (backups w !! key))]>)
                        in Eff.ret true
                    end
                | Dir _ =>
                    match default ∅ (backups w !! key) !! basename destination with
                    | Some _ => Eff.raise
                    | None =>
                        if negb (truthy (basename destination))
                        then Eff.raise
                        else
                         do* Eff.modify
                               (set_backups
                                  <[key:=<[basename destination:=n]>
                                           (default ∅ (backups w !! key))]>)
                         in Eff.ret true
                    end
                end)%eff w2 = (Some true, w') ->
            backups w' = <[key := <[basename destination := n]> s]> (backups w)).
  { intros s w2 Hw2 Hrun. pure_in Hrun. rewrite Hw2, lookup_insert_eq in Hrun.
    change (default ∅ (Some s)) with s in Hrun.
    destruct n as [c|entries].
    - destruct (s !! basename destination) as [[c'|e']|];
        try (pure_in Hrun; inversion Hrun; subst w'; simpl; rewrite Hw2;
             apply insert_insert_eq).
      discriminate Hrun.
    - destruct (s !! basename destination) as [x|]; [discriminate Hrun|].
      destruct (negb (truthy (basename destination))); [discriminate Hrun|].
      pure_in Hrun. inversion Hrun; subst w'; simpl; rewrite Hw2. apply insert_insert_eq. }
  assert (Hw' : exists s, backups w' = <[key := <[basename destination := n]> s]> (backups w)).
  { destruct (backups w !! key) as [s|] eqn:Hk.
    - pure_in Ht.
      destruct (denied E (LocBackupCopy model_name)); [pure_in Ht; discriminate Ht|].
      pure_in Ht. exists s. eapply Hfin; [|exact Ht].
      simpl. symmetry. apply insert_id, Hk.
    - destruct (denied E (LocBackupDir model_name)); [pure_in Ht; discriminate Ht|].
      pure_in Ht.
      destruct (denied E (LocBackupCopy model_name)); [pure_in Ht; discriminate Ht|].
      pure_in Ht. exists ∅. eapply Hfin; [|exact Ht]. reflexivity. }
  destruct Hw' as (s & Hw'). rewrite Hw'.
  eexists. split; [apply lookup_insert_eq|]. split; [apply lookup_insert_eq|].
  intros key0 Hne. apply lookup_insert_ne. congruence.
Qed.

Lemma backup_model_nothing_to_do (cfg : config) (model_name : string) (w : world) :
  backup_old_models cfg = false \/
  (exists mc destination,
     models_lookup cfg model_name = Some mc /\ mc_destination mc = Some destination /\
     dest w !! destination = None) ->
  backup_model E cfg model_name w = (Some true, w).
Proof.
  unfold backup_model. intros [->|(mc & destination & Hlk & Hd & Hn)]; [reflexivity|].
  destruct (negb (backup_old_models cfg)); [reflexivity|].
  unfold Eff.try_except, backup_model_try.
  rewrite Hlk. erewrite bind_some by reflexivity. cbv beta.
  rewrite Hd. erewrite bind_some by reflexivity. cbv beta.
  erewrite bind_some by reflexivity. cbv beta. rewrite Hn. reflexivity.
Qed.

End BackupModel.

(** X7.  When [backup_model] returns [True] for a destination that is on
    disk, with backups enabled, the snapshot directory of this model and
    time stamp holds an identical copy of the destination under its base
    name; the destination itself, the download cache, the ledger and every
    other snapshot are as before. *)
Theorem backup_model_snapshot_holds_copy (E : ModelSync.env) (cfg : ModelSync.config)
  (model_name : string) (w : ModelSync.world) (mc : ModelSync.model_config)
  (destination : string) (n : Py.node) :
  ModelSync.backup_old_models cfg = true ->
  ModelSync.models_lookup cfg model_name = Some mc ->
  ModelSync.mc_destination mc = Some destination ->
  ModelSync.dest w !! destination = Some n ->
  fst (ModelSync.backup_model E cfg model_name w) = Some true ->
  (exists snapshot,
     ModelSync.backups (snd (ModelSync.backup_model E cfg model_name w))
       !! (model_name, Py.stamp (ModelSync.clock E (ModelSync.ticks w))) = Some snapshot /\
     snapshot !! Py.basename destination = Some n /\
     (forall key, key <> (model_name, Py.stamp (ModelSync.clock E (ModelSync.ticks w))) ->
        ModelSync.backups (snd (ModelSync.backup_model E cfg model_name w)) !! key
        = ModelSync.backups w !! key)) /\
  ModelSync.dest (snd (ModelSync.backup_model E cfg model_name w)) = ModelSync.dest w /\
  ModelSync.cache (snd (ModelSync.backup_model E cfg model_name w)) = ModelSync.cache w /\
  ModelSync.version_file (snd (ModelSync.backup_model E cfg model_name w))
  = ModelSync.version_file w.
Proof.
  intros Hb Hlk Hd Hn Hok.
  split; [eapply backup_model_snapshot; eauto|].
  pose proof (backup_model_keeps E cfg model_name w) as Hk.
  unfold Props.keeps in Hk. injection Hk as Hc Hdest Hv _ _. auto.
Qed.

Lemma backup_model_snapshot_holds_copy_witness :
  exists snapshot,
    ModelSync.backups
      (snd (ModelSync.backup_model Scenario.delivering_env Scenario.m1_cfg "m1"
              Scenario.m1_world)) !! ("m1", "20240101_000000") = Some snapshot /\
    snapshot !! "m1" = Some (Py.Dir {[ "m1.bin" := Scenario.bytes "old" ]}).
Proof.
  destruct (backup_model_snapshot_holds_copy Scenario.delivering_env Scenario.m1_cfg "m1"
              Scenario.m1_world Scenario.m1_config "models/m1"
              (Py.Dir {[ "m1.bin" := Scenario.bytes "old" ]}))
    as [(snapshot & Hs & Hn & _) _].
  - reflexivity.
  - reflexivity.
  - reflexivity.
  - vm_compute. reflexivity.
  - vm_compute. reflexivity.
  - exists snapshot. split; [exact Hs|exact Hn].
Defined.

(** X8.  With backups switched off, or when the destination of the model
    is not on disk, [backup_model] returns [True] and changes nothing: no
    snapshot directory is made and the clock is not read. *)
Theorem backup_model_without_anything_to_save (E : ModelSync.env) (cfg : ModelSync.config)
  (model_name : string) (w : ModelSync.world) :
  ModelSync.backup_old_models cfg = false \/
  (exists mc destination,
     ModelSync.models_lookup cfg model_name = Some mc /\
     ModelSync.mc_destination mc = Some destination /\
     ModelSync.dest w !! destination = None) ->
  ModelSync.backup_model E cfg model_name w = (Some true, w).
Proof. apply backup_model_nothing_to_do. Qed.

Lemma backup_model_without_anything_to_save_witness :
  ModelSync.backup_model Scenario.delivering_env Scenario.m1_cfg "m1" Scenario.empty_world
  = (Some true, Scenario.empty_world).
Proof.
  apply (backup_model_without_anything_to_save Scenario.delivering_env Scenario.m1_cfg "m1"
           Scenario.empty_world).
  right. exists Scenario.m1_config, "models/m1". repeat split. 
Defined.

Section InstallModel.
Import Py Props ModelSync.
Variable E : env.

Lemma write_dest_some (destination file_name : string) (data : list byte) (w w' : world) :
  write_dest E destination file_name data w = (Some tt, w') ->
  exists entries, dest w !! destination = Some (Dir entries) /\
    w' = set_dest (insert destination (Dir (<[file_name := data]> entries))) w.
Proof.
  unfold write_dest. intros H. pure_in H.
  destruct (denied E (LocDestFile destination file_name)); [discriminate H|].
  destruct (dest w !! destination) as [[c|entries]|]; try discriminate H.
  exists entries. split; [reflexivity|]. inversion H. reflexivity.
Qed.

Lemma write_members_run (destination : string) (members : list (string * list byte)) :
  forall (w w' : world) (entries : gmap string (list byte)),
  dest w !! destination = Some (Dir entries) ->
  Eff.for_each members (fun m => write_dest E destination (fst m) (snd m)) w = (Some tt, w') ->
  w' = set_dest (insert destination (Dir (write_members members entries))) w.
Proof.
  induction members as [|m members IH]; intros w w' entries Hd H.
  - simpl in H. inversion H; subst w'. unfold write_members. simpl.
    destruct w; unfold set_dest; simpl in *. f_equal. symmetry. apply insert_id, Hd.
  - simpl in H. step_in H u w1 Hm; [|discriminate H]. destruct u.
    apply write_dest_some in Hm as (entries' & Hd' & ->).
    rewrite Hd in Hd'. inversion Hd'; subst entries'.
    apply IH with (entries := <[m.1 := m.2]> entries) in H.
    + rewrite H. unfold write_members. simpl.
      destruct w; unfold set_dest; simpl. f_equal. apply insert_insert_eq.
    + simpl. apply lookup_insert_eq.
Qed.

Lemma install_model_success (cfg : config) (model_name temp_path : string) (w : world)
  (mc : model_config) (destination type : string) :
  models_lookup cfg model_name = Some mc ->
  mc_destination mc = Some destination ->
  mc_type mc = Some type ->
  fst (install_model E cfg model_name temp_path w) = Some true ->
  exists installed,
    snd (install_model E cfg model_name temp_path w)
    = set_dest (insert destination (Dir installed)) w /\
    (type = "file" ->
     exists content, cache w !! temp_path = Some (File content) /\
       installed = <[default (basename temp_path) (mc_filename mc) := content]>
                     (dest_files w destination)) /\
    (type = "zip" ->
     exists content members, cache w !! temp_path = Some (File content) /\
       unzip E content = Some members /\
       installed = write_members members (dest_files w destination)) /\
    (type <> "file" -> type <> "zip" -> installed = dest_files w destination).
Proof.
  intros Hlk Hd Hty Hok.
  destruct (install_model E cfg model_name temp_path w) as [r w'] eqn:Hrun.
  simpl in Hok. subst r. simpl.
  unfold install_model, Eff.try_except in Hrun.
  destruct (install_model_try E cfg model_name temp_path w) as [[b|] w1] eqn:Ht;
    [|discriminate Hrun].
  inversion Hrun; subst b w1; clear Hrun.
  unfold install_model_try in Ht. rewrite Hlk in Ht. pure_in Ht. rewrite Hd in Ht.
  pure_in Ht. pure_in Ht.
  (* the destination directory *)
  step_in Ht u w1 Hmk; [|discriminate Ht]. destruct u.
  assert (Hw1 : w1 = set_dest (insert destination (Dir (dest_files w destination))) w).
  { unfold dest_files. destruct (dest w !! destination) as [[c|entries]|] eqn:Hdest.
    - discriminate Hmk.
    - inversion Hmk; subst w1. destruct w; unfold set_dest; simpl in *. f_equal.
      symmetry. apply insert_id, Hdest.
    - destruct (denied E (LocDestDir destination)); [discriminate Hmk|].
      inversion Hmk. reflexivity. }
  clear Hmk. rewrite Hty in Ht. pure_in Ht.
  step_in Ht u w2 Hbody; [|discriminate Ht]. destruct u. inversion Ht; subst w'; clear Ht.
  assert (Hd1 : dest w1 !! destination = Some (Dir (dest_files w destination)))
    by (rewrite Hw1; simpl; apply lookup_insert_eq).
  assert (Hc1 : cache w1 = cache w) by (rewrite Hw1; reflexivity).
  destruct (String.eqb type "file") eqn:Hf.
  - apply String.eqb_eq in Hf. subst type. unfold read_cache in Hbody. rewrite bind_assoc in Hbody. pure_in Hbody.
    rewrite Hc1 in Hbody.
    destruct (cache w !! temp_path) as [[content|e]|] eqn:Hc; try discriminate Hbody.
    pure_in Hbody. apply write_dest_some in Hbody as (entries & Hd2 & ->).
    rewrite Hd1 in Hd2. inversion Hd2; subst entries.
    eexists. split; [|split; [|split]].
    + rewrite Hw1. destruct w; unfold set_dest; simpl. f_equal. apply insert_insert_eq.
    + intros _. exists content. auto.
    + discriminate.
    + intros H. contradiction.
  - apply String.eqb_neq in Hf. destruct (String.eqb type "zip") eqn:Hz'.
    + apply String.eqb_eq in Hz'. subst type. unfold read_cache in Hbody. rewrite bind_assoc in Hbody. pure_in Hbody.
    rewrite Hc1 in Hbody.
      destruct (cache w !! temp_path) as [[content|e]|] eqn:Hc; try discriminate Hbody.
      pure_in Hbody.
      destruct (unzip E content) as [members|] eqn:Hz; [|discriminate Hbody].
      pure_in Hbody.
      apply (write_members_run destination members w1 w2 _ Hd1) in Hbody.
      eexists. split; [|split; [|split]].
      * rewrite Hbody, Hw1. destruct w; unfold set_dest; simpl. f_equal.
        apply insert_insert_eq.
      * discriminate.
      * intros _. exists content, members. auto.
      * intros _ H. contradiction.
    + apply String.eqb_neq in Hz'. inversion Hbody; subst w2.
      eexists. split; [exact Hw1|]. split; [intros; contradiction|].
      split; [intros; contradiction|]. reflexivity.
Qed.

Lemma install_model_other_type (cfg : config) (model_name temp_path : string) (w : world)
  (mc : model_config) (destination type : string) :
  models_lookup cfg model_name = Some mc ->
  mc_destination mc = Some destination ->
  mc_type mc = Some type ->
  type <> "file" -> type <> "zip" ->
  (forall content, dest w !! destination <> Some (File content)) ->
  (dest w !! destination = None -> denied E (LocDestDir destination) = false) ->
  install_model E cfg model_name temp_path w
  = (Some true, set_dest (insert destination (Dir (dest_files w destination))) w).
Proof.
  intros Hlk Hd Hty Hnf Hnz Hfile Hmk.
  apply String.eqb_neq in Hnf, Hnz.
  unfold install_model, Eff.try_except, install_model_try.
  rewrite Hlk. erewrite bind_some by reflexivity. cbv beta.
  rewrite Hd. erewrite bind_some by reflexivity. cbv beta.
  erewrite bind_some by reflexivity. cbv beta.
  unfold dest_files.
  destruct (dest w !! destination) as [[c|entries]|] eqn:Hdest.
  - exfalso. eapply Hfile. reflexivity.
  - erewrite bind_some by reflexivity. cbv beta. rewrite Hty.
    erewrite bind_some by reflexivity. cbv beta. rewrite Hnf, Hnz.
    erewrite bind_some by reflexivity. cbv beta. unfold Eff.ret. f_equal.
    destruct w; unfold set_dest; simpl in *. f_equal. symmetry. apply insert_id, Hdest.
  - rewrite (Hmk eq_refl).
    erewrite bind_some by reflexivity. cbv beta. rewrite Hty.
    erewrite bind_some by reflexivity. cbv beta. rewrite Hnf, Hnz.
    erewrite bind_some by reflexivity. cbv beta. reflexivity.
Qed.

Lemma download_model_unknown (cfg : config) (model_name : string) (w : world) :
  models_lookup cfg model_name = None ->
  download_model E cfg model_name w
  = (Some false, set_log (log w ++ [sync_error (ErrDownloadModel model_name)]) w).
Proof.
  intros Hlk. unfold download_model, Eff.try_except, download_model_try.
  rewrite Hlk. erewrite bind_none by reflexivity. reflexivity.
Qed.

Lemma download_model_no_url (cfg : config) (model_name : string) (w : world)
  (mc : model_config) :
  models_lookup cfg model_name = Some mc ->
  truthy_opt (mc_url mc) = false ->
  download_model E cfg model_name w
  = (Some false, set_log (log w ++ [sync_error (ErrNoUrl model_name)]) w).
Proof.
  intros Hlk Hurl. unfold download_model, Eff.try_except, download_model_try.
  rewrite Hlk. erewrite bind_some by reflexivity. cbv beta. rewrite Hurl. reflexivity.
Qed.

Lemma sync_thread_nothing_to_do (cfg : config) (models_to_sync : option (list string))
  (w : world) :
  match models_to_sync with
  | None => check_for_model_updates cfg w
  | Some l => l
  end = [] ->
  sync_thread E cfg models_to_sync w
  = (Some tt, set_log (log w ++ [sync_started; sync_progress (Exactly 100) MsgAllUpToDate;
                                  sync_completed]) w).
Proof.
  intros Hl. unfold sync_thread. erewrite bind_some by reflexivity.
  unfold Eff.try_except, sync_thread_try.
  erewrite bind_some by reflexivity. cbv beta.
  change (check_for_model_updates cfg (set_log (log w ++ [sync_started]) w))
    with (check_for_model_updates cfg w).
  rewrite Hl. simpl. rewrite <- !app_assoc. reflexivity.
Qed.


End InstallModel.

(** X9.  Whenever [install_model] returns [True], the destination
    directory is what it was before (empty if it had to be made) with, for
    a model of type [file], the downloaded bytes written under the
    configured file name and, for type [zip], every member of the archive
    written over it in order; files that were already there and are not
    written stay.  Nothing else of the state changes. *)
Theorem install_model_installs_the_download (E : ModelSync.env) (cfg : ModelSync.config)
  (model_name temp_path : string) (w : ModelSync.world) (mc : ModelSync.model_config)
  (destination type : string) :
  ModelSync.models_lookup cfg model_name = Some mc ->
  ModelSync.mc_destination mc = Some destination ->
  ModelSync.mc_type mc = Some type ->
  fst (ModelSync.install_model E cfg model_name temp_path w) = Some true ->
  exists installed,
    snd (ModelSync.install_model E cfg model_name temp_path w)
    = ModelSync.set_dest (insert destination (Py.Dir installed)) w /\
    (type = "file" ->
     exists content,
       ModelSync.cache w !! temp_path = Some (Py.File content) /\
       installed = <[default (Py.basename temp_path) (ModelSync.mc_filename mc) := content]>
                     (Props.dest_files w destination)) /\
    (type = "zip" ->
     exists content members,
       ModelSync.cache w !! temp_path = Some (Py.File content) /\
       ModelSync.unzip E content = Some members /\
       installed = Props.write_members members (Props.dest_files w destination)).
Proof.
  intros Hlk Hd Hty Hok.
  destruct (install_model_success E cfg model_name temp_path w mc destination type
              Hlk Hd Hty Hok) as (installed & Hw & Hfile & Hzip & _).
  exists installed. auto.
Qed.

Lemma install_model_installs_the_download_witness :
  exists installed,
    snd (ModelSync.install_model Scenario.delivering_env Scenario.m1_cfg "m1"
           Scenario.m1_temp_path Scenario.m1_downloaded)
    = ModelSync.set_dest (insert "models/m1" (Py.Dir installed)) Scenario.m1_downloaded /\
    installed = <["m1.bin" := Scenario.bytes "new"]>
                  (Props.dest_files Scenario.m1_downloaded "models/m1").
Proof.
  destruct (install_model_installs_the_download Scenario.delivering_env Scenario.m1_cfg "m1"
              Scenario.m1_temp_path Scenario.m1_downloaded Scenario.m1_config "models/m1"
              "file") as (installed & Hw & Hfile & _).
  - reflexivity.
  - reflexivity.
  - reflexivity.
  - vm_compute. reflexivity.
  - exists installed. split; [exact Hw|].
    destruct (Hfile eq_refl) as (content & Hc & Hi).
    vm_compute in Hc. inversion Hc; subst content. exact Hi.
Defined.

(** X10.  For a model whose configured type is neither [file] nor [zip],
    [install_model] returns [True] although it writes no file: it only
    makes the destination directory when it is missing. *)
Theorem install_model_unknown_type_reports_success (E : ModelSync.env)
  (cfg : ModelSync.config) (model_name temp_path : string) (w : ModelSync.world)
  (mc : ModelSync.model_config) (destination type : string) :
  ModelSync.models_lookup cfg model_name = Some mc ->
  ModelSync.mc_destination mc = Some destination ->
  ModelSync.mc_type mc = Some type ->
  type <> "file" -> type <> "zip" ->
  (forall content, ModelSync.dest w !! destination <> Some (Py.File content)) ->
  (ModelSync.dest w !! destination = None ->
   ModelSync.denied E (ModelSync.LocDestDir destination) = false) ->
  ModelSync.install_model E cfg model_name temp_path w
  = (Some true,
     ModelSync.set_dest (insert destination (Py.Dir (Props.dest_files w destination))) w).
Proof. apply install_model_other_type. Qed.

Lemma install_model_unknown_type_reports_success_witness :
  ModelSync.install_model Scenario.delivering_env Scenario.tar_cfg "m1"
    ".cache/models/downloads/m1.zip" Scenario.m1_downloaded
  = (Some true,
     ModelSync.set_dest
       (insert "models/m1" (Py.Dir (Props.dest_files Scenario.m1_downloaded "models/m1")))
       Scenario.m1_downloaded).
Proof.
  apply (install_model_unknown_type_reports_success Scenario.delivering_env Scenario.tar_cfg
           "m1" ".cache/models/downloads/m1.zip" Scenario.m1_downloaded
           (Scenario.m1_variant "1.1.0" "tar" EmptyString) "models/m1" "tar").
  - reflexivity.
  - reflexivity.
  - reflexivity.
  - discriminate.
  - discriminate.
  - intros content H. vm_compute in H. discriminate H.
  - intros H. reflexivity.
Defined.

(** X11.  For a model that is not in the configuration, or whose URL is
    missing or empty, [download_model] returns [False] and its only effect
    is one [sync_error] signal: nothing is backed up, downloaded or
    written. *)
Theorem download_model_without_source (E : ModelSync.env) (cfg : ModelSync.config)
  (model_name : string) (w : ModelSync.world) :
  (ModelSync.models_lookup cfg model_name = None ->
   ModelSync.download_model E cfg model_name w
   = (Some false,
      ModelSync.set_log
        (ModelSync.log w ++ [ModelSync.sync_error (ModelSync.ErrDownloadModel model_name)])
        w)) /\
  (forall mc,
     ModelSync.models_lookup cfg model_name = Some mc ->
     Py.truthy_opt (ModelSync.mc_url mc) = false ->
     ModelSync.download_model E cfg model_name w
     = (Some false,
        ModelSync.set_log
          (ModelSync.log w ++ [ModelSync.sync_error (ModelSync.ErrNoUrl model_name)]) w)).
Proof.
  split; [apply download_model_unknown|]. intros mc. apply download_model_no_url.
Qed.

Lemma download_model_without_source_witness :
  ModelSync.download_model Scenario.unreachable_env Scenario.failing_cfg "m2"
    Scenario.empty_world
  = (Some false,
     ModelSync.set_log
       (ModelSync.log Scenario.empty_world
        ++ [ModelSync.sync_error (ModelSync.ErrDownloadModel "m2")]) Scenario.empty_world) /\
  ModelSync.download_model Scenario.unreachable_env Scenario.failing_cfg "m1"
    Scenario.empty_world
  = (Some false,
     ModelSync.set_log
       (ModelSync.log Scenario.empty_world ++ [ModelSync.sync_error (ModelSync.ErrNoUrl "m1")])
       Scenario.empty_world).
Proof.
  pose proof (download_model_without_source Scenario.unreachable_env Scenario.failing_cfg "m2"
                Scenario.empty_world) as [H2 _].
  pose proof (download_model_without_source Scenario.unreachable_env Scenario.failing_cfg "m1"
                Scenario.empty_world) as [_ H1].
  split.
  - apply H2. reflexivity.
  - eapply H1; reflexivity.
Defined.

(** X12.  When there is nothing to synchronise (the list given is empty,
    or no model is offered), the batch only sends [sync_started], the
    progress of 100 and [sync_completed]: no model is attempted and the
    last-sync record is not written. *)
Theorem sync_without_models_writes_no_record (E : ModelSync.env) (cfg : ModelSync.config)
  (models_to_sync : option (list string)) (w : ModelSync.world) :
  match models_to_sync with
  | None => ModelSync.check_for_model_updates cfg w
  | Some l => l
  end = [] ->
  ModelSync.sync_thread E cfg models_to_sync w
  = (Some tt,
     ModelSync.set_log
       (ModelSync.log w
        ++ [ModelSync.sync_started;
            ModelSync.sync_progress (ModelSync.Exactly 100) ModelSync.MsgAllUpToDate;
            ModelSync.sync_completed]) w).
Proof. apply sync_thread_nothing_to_do. Qed.

Lemma sync_without_models_writes_no_record_witness :
  ModelSync.sync_thread Scenario.delivering_env Scenario.v_cfg None Scenario.m1_world
  = (Some tt,
     ModelSync.set_log
       (ModelSync.log Scenario.m1_world
        ++ [ModelSync.sync_started;
            ModelSync.sync_progress (ModelSync.Exactly 100) ModelSync.MsgAllUpToDate;
            ModelSync.sync_completed]) Scenario.m1_world).
Proof.
  apply (sync_without_models_writes_no_record Scenario.delivering_env Scenario.v_cfg None
           Scenario.m1_world).
  vm_compute. reflexivity.
Defined.

(** ** When the automatic synchronisation is due *)
Section AutoSync.
Import Py Props ModelSync.
Variable E : env.
Variable fromisoformat : string -> option datetime.

Lemma should_auto_sync_false_iff (cfg : config) (w : world) (now : datetime) :
  should_auto_sync fromisoformat cfg w now = false <->
  auto_update cfg = false \/
  exists last t interval,
    last_sync_file w = Some last /\
    fromisoformat (si_timestamp last) = Some t /\
    timedelta_hours (check_interval_hours cfg) = Some interval /\
    micros now - micros t < interval.
Proof.
  unfold should_auto_sync. destruct (auto_update cfg); simpl; [|split; auto].
  destruct (last_sync_file w) as [last|].
  2:{ split; [discriminate|]. intros [H|(l & t & i & H & _)]; discriminate. }
  destruct (fromisoformat (si_timestamp last)) as [t|] eqn:Ht.
  2:{ split; [discriminate|]. intros [H|(l & t & i & Hl & Hf & _)]; [discriminate|].
      inversion Hl; subst l. congruence. }
  destruct (timedelta_hours (check_interval_hours cfg)) as [interval|] eqn:Hi.
  2:{ split; [discriminate|]. intros [H|(l & t' & i & _ & _ & Hd & _)]; discriminate. }
  destruct (Z.ltb_spec (micros now - micros t) interval) as [Hlt|Hge].
  - split; [|reflexivity]. intros _. right. exists last, t, interval. auto.
  - split; [discriminate|]. intros [H|(l & t' & i & Hl & Hf & Hd & Hlt)]; [discriminate|].
    inversion Hl; subst l. rewrite Ht in Hf. inversion Hf; subst t'.
    inversion Hd; subst i. lia.
Qed.

Lemma sync_thread_stamp (cfg : config) (models_to_sync : option (list string)) (w : world) :
  match models_to_sync with
  | None => check_for_model_updates cfg w
  | Some l => l
  end <> [] ->
  denied E LocLastSyncFile = false ->
  exists n,
    last_sync_file (snd (sync_thread E cfg models_to_sync w))
    = Some {| si_timestamp := iso (clock E n);
              si_models_synced := fst <$> models cfg;
              si_success := true |}.
Proof.
  set (l := match models_to_sync with
            | None => check_for_model_updates cfg w
            | Some l => l
            end).
  intros Hne Hden.
  set (w0 := set_log (log w ++ [sync_started]) w).
  assert (Hl : match models_to_sync with
               | None => check_for_model_updates cfg w0
               | Some l => l
               end = l) by reflexivity.
  destruct (sync_loop_spec E cfg (Py.len l) l 0 w0) as (w1 & evs & Hrun & _).
  exists (ticks w1).
  unfold sync_thread. erewrite bind_some by reflexivity.
  fold w0. unfold Eff.try_except, sync_thread_try.
  erewrite bind_some by reflexivity. cbv beta. rewrite Hl.
  destruct l as [|x l'] eqn:El; [contradiction|]. rewrite <- El in *.
  erewrite bind_some by exact Hrun.
  unfold save_last_sync_info. rewrite bind_assoc.
  erewrite bind_some by reflexivity. cbv beta. rewrite Hden.
  erewrite bind_some by reflexivity. cbv beta.
  erewrite bind_some by reflexivity. cbv beta. reflexivity.
Qed.


End AutoSync.

(** X13.  [should_auto_sync] answers [False] exactly when automatic
    updates are switched off, or when the last-sync record holds a time
    stamp that can be read, the configured interval is a valid duration,
    and less than that interval has passed since the stamp.  In every
    other case (no record, unreadable stamp, interval out of range, the
    interval reached exactly) a synchronisation is due. *)
Theorem should_auto_sync_spec (fromisoformat : string -> option Py.datetime)
  (cfg : ModelSync.config) (w : ModelSync.world) (now : Py.datetime) :
  ModelSync.should_auto_sync fromisoformat cfg w now = false <->
  ModelSync.auto_update cfg = false \/
  exists last t interval,
    ModelSync.last_sync_file w = Some last /\
    fromisoformat (ModelSync.si_timestamp last) = Some t /\
    Py.timedelta_hours (ModelSync.check_interval_hours cfg) = Some interval /\
    Py.micros now - Py.micros t < interval.
Proof. apply should_auto_sync_false_iff. Qed.

(** X14.  A batch that attempted at least one model postpones the next
    automatic synchronisation, whatever became of the models: once
    [sync_thread] has run and its record could be written,
    [should_auto_sync] answers [False] until the configured interval has
    passed (the stamp written by [isoformat] being read back by
    [fromisoformat]). *)
Theorem batch_postpones_auto_sync (E : ModelSync.env)
  (fromisoformat : string -> option Py.datetime) (cfg : ModelSync.config)
  (models_to_sync : option (list string)) (w : ModelSync.world) (now : Py.datetime)
  (interval : Z) :
  match models_to_sync with
  | None => ModelSync.check_for_model_updates cfg w
  | Some l => l
  end <> [] ->
  ModelSync.denied E ModelSync.LocLastSyncFile = false ->
  (forall n, fromisoformat (Py.iso (ModelSync.clock E n)) = Some (ModelSync.clock E n)) ->
  Py.timedelta_hours (ModelSync.check_interval_hours cfg) = Some interval ->
  (forall n, Py.micros now - Py.micros (ModelSync.clock E n) < interval) ->
  ModelSync.should_auto_sync fromisoformat cfg
    (snd (ModelSync.sync_thread E cfg models_to_sync w)) now = false.
Proof.
  intros Hne Hden Hparse Hint Hsoon.
  destruct (sync_thread_stamp E cfg models_to_sync w Hne Hden) as (n & Hrec).
  apply should_auto_sync_false_iff.
  destruct (ModelSync.auto_update cfg) eqn:Hau; [|left; reflexivity].
  right. eexists _, (ModelSync.clock E n), interval.
  split; [exact Hrec|]. split; [apply Hparse|]. split; [exact Hint|apply Hsoon].
Qed.

Lemma batch_postpones_auto_sync_witness :
  fst (ModelSync.download_model Scenario.unreachable_env Scenario.failing_cfg "m3"
         Scenario.empty_world) = Some false /\
  ModelSync.should_auto_sync (fun _ => Some Scenario.epoch) Scenario.failing_cfg
    (snd (ModelSync.sync_thread Scenario.unreachable_env Scenario.failing_cfg
            (Some ["m3"]) Scenario.empty_world)) Scenario.epoch = false.
Proof.
  split; [vm_compute; reflexivity|].
  apply (batch_postpones_auto_sync Scenario.unreachable_env (fun _ => Some Scenario.epoch)
           Scenario.failing_cfg (Some ["m3"]) Scenario.empty_world Scenario.epoch
           (24 * 3600 * 1000000)).
  - discriminate.
  - reflexivity.
  - intros n. reflexivity.
  - reflexivity.
  - intros n. vm_compute. reflexivity.
Defined.

(** ** Cleaning the downloads directory *)
Section CacheCleanup.
Import Py Props ModelSync.
Context {T : Type}.
Variable time_time : T.
Variable minus : T -> Z -> T.
Variable lt : T -> T -> bool.
Variable remove_denied : string -> bool.

Lemma unlink_filter (name : string) (l : list (string * cached (T := T))) :
  unlink name l = filter (fun q => q.1 <> name) l.
Proof.
  unfold unlink. apply list_filter_iff. intros q.
  destruct (String.eqb_spec q.1 name); simpl; intuition.
Qed.

Lemma filter_ext_elem {A} (P Q : A -> Prop) `{forall x, Decision (P x)} `{forall x, Decision (Q x)}
  (l : list A) :
  (forall x, x ∈ l -> (P x <-> Q x)) -> filter P l = filter Q l.
Proof.
  induction l as [|x l IH]; intros HPQ; [reflexivity|].
  assert (Hl : filter P l = filter Q l).
  { apply IH. intros y Hy. apply HPQ. right. exact Hy. }
  destruct (decide (P x)) as [HP|HP].
  - rewrite filter_cons_True by exact HP.
    rewrite filter_cons_True by (apply HPQ; [left|exact HP]). rewrite Hl. reflexivity.
  - rewrite filter_cons_False by exact HP.
    rewrite filter_cons_False by (intros HQ; apply HP, HPQ; [left|exact HQ]). exact Hl.
Qed.

(** The loop only takes entries away; an entry stays when no entry of
    its name handed to the loop is both old and deletable. *)
Lemma cleanup_loop_keeps (cutoff_time : T) (todo : list (string * cached (T := T))) :
  forall (dir : list (string * cached (T := T))) r st,
  Eff.for_each todo
    (fun p =>
       if lt (c_ctime (snd p)) cutoff_time then
         if c_is_file (snd p) then
           if remove_denied (fst p) then Eff.raise
           else Eff.modify (fmap (unlink (fst p)))
         else
           if remove_denied (fst p) then Eff.ret tt
           else Eff.modify (fmap (unlink (fst p)))
       else Eff.ret tt) (Some dir) = (r, st) ->
  exists dir', st = Some dir' /\ sublist dir' dir /\
    (forall p, p ∈ dir ->
       (forall q, q ∈ todo -> q.1 = p.1 ->
          lt (c_ctime q.2) cutoff_time = false \/ remove_denied q.1 = true) ->
       p ∈ dir') /\
    ((forall name, remove_denied name = false) ->
     r = Some tt /\
     dir' = filter (fun p => p.1 ∉ (fst <$> filter (fun q => lt (c_ctime q.2) cutoff_time = true) todo)) dir).
Proof.
  induction todo as [|[name c] todo IH]; intros dir r st H.
  - simpl in H. inversion H; subst. exists dir. split; [reflexivity|].
    split; [reflexivity|]. split; [auto|]. intros _. split; [reflexivity|].
    symmetry. apply filter_all. intros p _. apply not_elem_of_nil.
  - cbn [Eff.for_each] in H. cbn [fst snd] in H.
    assert (Hcase :
      (lt (c_ctime c) cutoff_time = true /\ c_is_file c = true /\ remove_denied name = true /\
       r = None /\ st = Some dir) \/
      (lt (c_ctime c) cutoff_time = true /\ remove_denied name = false /\
       Eff.for_each todo
         (fun p =>
            if lt (c_ctime (snd p)) cutoff_time then
              if c_is_file (snd p) then
                if remove_denied (fst p) then Eff.raise
                else Eff.modify (fmap (unlink (fst p)))
              else
                if remove_denied (fst p) then Eff.ret tt
                else Eff.modify (fmap (unlink (fst p)))
            else Eff.ret tt) (Some (unlink name dir)) = (r, st)) \/
      ((lt (c_ctime c) cutoff_time = false \/ remove_denied name = true) /\
       Eff.for_each todo
         (fun p =>
            if lt (c_ctime (snd p)) cutoff_time then
              if c_is_file (snd p) then
                if remove_denied (fst p) then Eff.raise
                else Eff.modify (fmap (unlink (fst p)))
              else
                if remove_denied (fst p) then Eff.ret tt
                else Eff.modify (fmap (unlink (fst p)))
            else Eff.ret tt) (Some dir) = (r, st))).
    { destruct (lt (c_ctime c) cutoff_time) eqn:Hold.
      - destruct (c_is_file c) eqn:Hf.
        + destruct (remove_denied name) eqn:Hd.
          * left. inversion H. auto.
          * right. left. auto.
        + destruct (remove_denied name) eqn:Hd.
          * right. right. auto.
          * right. left. auto.
      - right. right. auto. }
    clear H. destruct Hcase as [(Hold & Hf & Hd & -> & ->)|[(Hold & Hd & Hrest)|(Hkeep & Hrest)]].
    + exists dir. split; [reflexivity|]. split; [reflexivity|]. split; [auto|].
      intros Hno. rewrite Hno in Hd. discriminate.
    + destruct (IH _ _ _ Hrest) as (dir' & -> & Hsub & Hstay & Hall).
      exists dir'. split; [reflexivity|]. split; [|split].
      * etransitivity; [exact Hsub|]. rewrite unlink_filter. apply sublist_filter.
      * intros p Hp Hq. apply Hstay.
        -- rewrite unlink_filter. apply list_elem_of_filter. split; [|exact Hp].
           intros Heq. destruct (Hq (name, c)) as [Hx|Hx]; [left|simpl; auto| |];
             simpl in Hx; congruence.
        -- intros q Hin. apply Hq. right. exact Hin.
      * intros Hno. destruct (Hall Hno) as [-> ->]. split; [reflexivity|].
        rewrite unlink_filter, list_filter_filter. apply list_filter_iff. intros p.
        rewrite filter_cons_True by exact Hold.
        rewrite fmap_cons, not_elem_of_cons. simpl. intuition.
    + destruct (IH _ _ _ Hrest) as (dir' & -> & Hsub & Hstay & Hall).
      exists dir'. split; [reflexivity|]. split; [exact Hsub|]. split.
      * intros p Hp Hq. apply Hstay; [exact Hp|]. intros q Hin. apply Hq. right. exact Hin.
      * intros Hno. destruct (Hall Hno) as [-> ->]. split; [reflexivity|].
        destruct Hkeep as [Hnew|Hd]; [|rewrite Hno in Hd; discriminate].
        rewrite filter_cons_False by (simpl; congruence). reflexivity.
Qed.


Lemma cleanup_cache_run (max_age_days : Z) (listing : list (string * cached (T := T))) :
  NoDup (fst <$> listing) ->
  exists listing',
    cleanup_cache time_time minus lt remove_denied max_age_days (Some listing)
    = (Some tt, Some listing') /\
    sublist listing' listing /\
    (forall p, p ∈ listing ->
       lt (c_ctime p.2) (minus time_time (max_age_days * 24 * 60 * 60)) = false \/
       remove_denied p.1 = true ->
       p ∈ listing') /\
    ((forall name, remove_denied name = false) ->
     listing' = filter (fun p => lt (c_ctime p.2)
                                   (minus time_time (max_age_days * 24 * 60 * 60)) = false)
                  listing).
Proof.
  intros Hnd. unfold cleanup_cache, Eff.try_except.
  erewrite bind_some by reflexivity. cbv beta iota zeta.
  set (cutoff_time := minus time_time (max_age_days * 24 * 60 * 60)).
  match goal with
  | |- context [Eff.for_each listing ?body (Some listing)] =>
      destruct (Eff.for_each listing body (Some listing)) as [r st] eqn:Hrun
  end.
  destruct (cleanup_loop_keeps cutoff_time listing listing r st Hrun)
    as (listing' & -> & Hsub & Hstay & Hall).
  assert (Hsame : forall p q : string * cached (T := T),
            p ∈ listing -> q ∈ listing -> q.1 = p.1 -> q = p).
  { intros p q Hp Hq Heq. clear -Hnd Hp Hq Heq.
    induction listing as [|x l IH]; [inversion Hp|].
    rewrite fmap_cons in Hnd. apply NoDup_cons in Hnd as [Hx Hnd].
    apply elem_of_cons in Hp as [->|Hp]; apply elem_of_cons in Hq as [->|Hq]; auto.
    - exfalso. apply Hx. rewrite <- Heq. apply list_elem_of_fmap. eauto.
    - exfalso. apply Hx. rewrite Heq. apply list_elem_of_fmap. eauto. }
  exists listing'. split; [destruct r as [[]|]; reflexivity|].
  split; [exact Hsub|]. split.
  - intros p Hp Hkeep. apply Hstay; [exact Hp|].
    intros q Hq Heq. rewrite (Hsame p q Hp Hq Heq). exact Hkeep.
  - intros Hno. destruct (Hall Hno) as [_ ->].
    apply filter_ext_elem. intros p Hp. rewrite list_elem_of_fmap. split.
    + intros Hnot. destruct (lt (c_ctime p.2) cutoff_time) eqn:Hold; [|reflexivity].
      exfalso. apply Hnot. exists p. split; [reflexivity|].
      apply list_elem_of_filter. auto.
    + intros Hnew (q & Heq & Hq). apply list_elem_of_filter in Hq as [Hold Hq].
      rewrite (Hsame p q Hp Hq (eq_sym Heq)) in Hold. congruence.
Qed.

End CacheCleanup.

(** X15.  [cleanup_cache] lets no exception escape and only deletes: what
    is left is a sub-listing of the downloads directory that still holds
    every entry not older than the cut-off and every entry whose deletion
    is refused; when no deletion is refused, exactly the entries older
    than the cut-off are gone. *)
Theorem cleanup_cache_deletes_only_old_entries {T : Type} (time_time : T)
  (minus : T -> Z -> T) (lt : T -> T -> bool) (remove_denied : string -> bool)
  (max_age_days : Z) (listing : list (string * ModelSync.cached (T := T))) :
  NoDup (fst <$> listing) ->
  exists listing',
    ModelSync.cleanup_cache time_time minus lt remove_denied max_age_days (Some listing)
    = (Some tt, Some listing') /\
    sublist listing' listing /\
    (forall p, p ∈ listing ->
       lt (ModelSync.c_ctime p.2) (minus time_time (max_age_days * 24 * 60 * 60)) = false \/
       remove_denied p.1 = true ->
       p ∈ listing') /\
    ((forall name, remove_denied name = false) ->
     listing' = filter (fun p => lt (ModelSync.c_ctime p.2)
                                   (minus time_time (max_age_days * 24 * 60 * 60)) = false)
                  listing).
Proof. apply cleanup_cache_run. Qed.

Lemma cleanup_cache_deletes_only_old_entries_witness :
  ModelSync.cleanup_cache 1000000 Z.sub Z.ltb (fun _ => false) 7
    (Some Scenario.downloads_listing)
  = (Some tt,
     Some [("new.bin", {| ModelSync.c_ctime := 999900; ModelSync.c_is_file := true |})]).
Proof.
  destruct (cleanup_cache_deletes_only_old_entries 1000000 Z.sub Z.ltb (fun _ => false) 7
              Scenario.downloads_listing) as (listing' & Hrun & _ & _ & Hall).
  - apply (bool_decide_unpack (NoDup (fst <$> Scenario.downloads_listing))).
    vm_compute. exact I.
  - rewrite Hrun, Hall by reflexivity. vm_compute. reflexivity.
Defined.

(** A file whose deletion is refused ends the loop: the old entries that
    come after it in the listing stay, while a refused directory does
    not stop it. *)
Example cleanup_cache_stops_at_refused_file :
  snd (ModelSync.cleanup_cache 1000000 Z.sub Z.ltb (String.eqb "old.bin") 7
         (Some Scenario.downloads_listing))
  = Some Scenario.downloads_listing /\
  snd (ModelSync.cleanup_cache 1000000 Z.sub Z.ltb (String.eqb "old_dir") 7
         (Some (rev Scenario.downloads_listing)))
  = Some [("old_dir", {| ModelSync.c_ctime := 50; ModelSync.c_is_file := false |});
          ("new.bin", {| ModelSync.c_ctime := 999900; ModelSync.c_is_file := true |})].
Proof. split; vm_compute; reflexivity. Qed.

(** ** The configuration file *)
Section Dicts.
Import Py.
Context {V : Type}.

Lemma dict_merge_lookup (a b : gmap string V) (k : string) :
  dict_merge a b !! k = match b !! k with Some v => Some v | None => a !! k end.
Proof.
  unfold dict_merge. destruct (b !! k) as [v|] eqn:Hb.
  - apply lookup_union_Some_l, Hb.
  - apply lookup_union_r, Hb.
Qed.

Lemma dict_merge_same (a : gmap string V) : dict_merge a a = a.
Proof. unfold dict_merge. apply map_eq. intros k. rewrite lookup_union.
  destruct (a !! k); reflexivity. Qed.

Lemma dict_merge_covered (a b : gmap string V) :
  (forall k, is_Some (a !! k) -> is_Some (b !! k)) -> dict_merge a b = b.
Proof.
  intros H. apply map_eq. intros k. rewrite dict_merge_lookup.
  destruct (b !! k) as [v|] eqn:Hb; [reflexivity|].
  destruct (a !! k) as [x|] eqn:Ha; [|reflexivity].
  destruct (H k) as [y Hy]; [eauto|]. congruence.
Qed.


End Dicts.

(** X16.  [load_config] reads the file over the defaults key by key at the
    top level only: a key of the file wins, a key the file lacks comes
    from the defaults, and the file is left as it is.  A missing or
    unreadable file gives the defaults and is replaced by them when it can
    be written.  Loading again gives the same configuration. *)
Theorem load_config_merges_top_level_keys (config_file_denied : bool) (file : Py.json_file) :
  (forall config, file = Some (Some config) ->
     snd (ModelSync.load_config config_file_denied file) = file /\
     forall k, fst (ModelSync.load_config config_file_denied file) !! k
               = match config !! k with
                 | Some v => Some v
                 | None => ModelSync.default_config !! k
                 end) /\
  ((file = None \/ file = Some None) ->
     fst (ModelSync.load_config config_file_denied file) = ModelSync.default_config /\
     snd (ModelSync.load_config config_file_denied file)
     = if config_file_denied then file else Some (Some ModelSync.default_config)) /\
  ModelSync.load_config config_file_denied
    (snd (ModelSync.load_config config_file_denied file))
  = ModelSync.load_config config_file_denied file.
Proof.
  split; [|split].
  - intros config ->. simpl. split; [reflexivity|]. intros k. apply dict_merge_lookup.
  - intros [->| ->]; split; reflexivity.
  - destruct file as [[config|]|]; simpl; [reflexivity| |];
      unfold ModelSync.save_config; destruct config_file_denied; simpl;
      rewrite ?dict_merge_same; reflexivity.
Qed.

(** The merge is not recursive: a file that lists one model loses the four
    default models, and keeps the default switches. *)
Example config_file_with_one_model_drops_the_defaults :
  fst (ModelSync.load_config false
         (Some (Some {[ "models" := Py.JObj [("m1", Py.JObj [("url", Py.JStr "u")])] ]})))
    !! "models"
  = Some (Py.JObj [("m1", Py.JObj [("url", Py.JStr "u")])]) /\
  fst (ModelSync.load_config false
         (Some (Some {[ "models" := Py.JObj [("m1", Py.JObj [("url", Py.JStr "u")])] ]})))
    !! "auto_update"
  = Some (Py.JBool true).
Proof. split; vm_compute; reflexivity. Qed.

(** ** Google Drive links *)
Section DriveUrl.
Import Py Props ModelSync.

Lemma append_nil_r (s : string) : s +:+ EmptyString = s.
Proof.
  induction s as [|c s IH]; [reflexivity|].
  change (String c (s +:+ EmptyString) = String c s). f_equal. exact IH.
Qed.

Lemma append_assoc (a b c : string) : (a +:+ b) +:+ c = a +:+ (b +:+ c).
Proof.
  induction a as [|x a IH]; [reflexivity|].
  change (String x ((a +:+ b) +:+ c) = String x (a +:+ (b +:+ c))). f_equal. exact IH.
Qed.

Lemma rev_append_string_app (s acc : string) :
  rev_append_string s acc = rev_string s +:+ acc.
Proof.
  unfold rev_string. revert acc. induction s as [|c s IH]; intros acc; simpl; [reflexivity|].
  rewrite IH, (IH (String c EmptyString)).
  rewrite append_assoc. reflexivity.
Qed.

Lemma rev_string_cons (c : ascii) (s : string) :
  rev_string (String c s) = rev_string s +:+ String c EmptyString.
Proof. unfold rev_string at 1. simpl. apply rev_append_string_app. Qed.

Lemma rev_string_app (a b : string) : rev_string (a +:+ b) = rev_string b +:+ rev_string a.
Proof.
  induction a as [|c a IH].
  - change (rev_string b = rev_string b +:+ EmptyString). symmetry. apply append_nil_r.
  - change (rev_string (String c (a +:+ b)) = rev_string b +:+ rev_string (String c a)).
    rewrite !rev_string_cons, IH. apply append_assoc.
Qed.

Lemma rev_string_involutive (s : string) : rev_string (rev_string s) = s.
Proof.
  induction s as [|c s IH]; [reflexivity|].
  rewrite rev_string_cons, rev_string_app, IH. reflexivity.
Qed.

(** While no separator can start, [split_go] gathers the characters. *)
Lemma split_go_gather (sep : string) (c0 : ascii) (sep' : string) (s : string) :
  sep = String c0 sep' -> lacks c0 s = true ->
  forall cur t, split_go sep 0 cur (s +:+ t) = split_go sep 0 (rev_string s +:+ cur) t.
Proof.
  intros -> . induction s as [|c s IH]; intros Hl cur t; [reflexivity|].
  simpl in Hl. apply andb_true_iff in Hl as [Hc Hl].
  change (String c s +:+ t) with (String c (s +:+ t)).
  cbn [split_go starts_with]. rewrite Ascii.eqb_sym. apply negb_true_iff in Hc. rewrite Hc.
  cbn [andb]. rewrite (IH Hl). rewrite rev_string_cons, append_assoc. reflexivity.
Qed.

(** The first piece always begins with what was gathered so far. *)
Lemma split_go_head (sep : string) (s : string) :
  forall pending cur, exists y tl, split_go sep pending cur s = (rev_string cur +:+ y) :: tl.
Proof.
  induction s as [|c s IH]; intros pending cur.
  - exists EmptyString, []. simpl. rewrite append_nil_r. reflexivity.
  - destruct pending as [|k]; cbn [split_go].
    + destruct (starts_with sep (String c s)).
      * exists EmptyString. eexists. rewrite append_nil_r. reflexivity.
      * destruct (IH 0%nat (String c cur)) as (y & tl & ->).
        exists (String c y), tl. rewrite rev_string_cons, append_assoc. reflexivity.
    + apply IH.
Qed.

Lemma split_char_lacks (c : ascii) (s : string) : lacks c s = true -> split_char c s = [s].
Proof.
  induction s as [|d s IH]; [reflexivity|]. simpl. intros H.
  apply andb_true_iff in H as [Hd Hs]. apply negb_true_iff in Hd. rewrite Hd, (IH Hs).
  reflexivity.
Qed.

Lemma split_char_first (c : ascii) (s y : string) :
  lacks c s = true -> (y = EmptyString \/ exists y', y = String c y') ->
  split_char c (s +:+ y) !! 0%nat = Some s.
Proof.
  intros Hs [->|(y' & ->)].
  - rewrite append_nil_r, split_char_lacks by exact Hs. reflexivity.
  - rewrite split_char_app, split_char_lacks by exact Hs. reflexivity.
Qed.


Lemma split_go_head_after (sep sep' : string) (c0 : ascii) (cur t : string) :
  sep = String c0 sep' ->
  (t = EmptyString \/ exists t', t = String c0 t') ->
  exists y tl, split_go sep 0 cur t = (rev_string cur +:+ y) :: tl /\
    (y = EmptyString \/ exists y', y = String c0 y').
Proof.
  intros Hsep [->|(t' & ->)].
  - exists EmptyString, []. simpl. rewrite append_nil_r. auto.
  - cbn [split_go]. destruct (starts_with sep (String c0 t')).
    + exists EmptyString. eexists. rewrite append_nil_r. auto.
    + destruct (split_go_head sep t' 0%nat (String c0 cur)) as (y & tl & ->).
      exists (String c0 y), tl. rewrite rev_string_cons, append_assoc. eauto.
Qed.

Lemma split_go_no_sep (sep : string) (s : string) :
  forall cur, contains sep s = false -> split_go sep 0 cur s = [rev_string cur +:+ s].
Proof.
  induction s as [|c s IH]; intros cur H.
  - simpl. rewrite append_nil_r. reflexivity.
  - cbn [contains] in H. apply orb_false_iff in H as [H1 H2].
    cbn [split_go]. rewrite H1, (IH _ H2), rev_string_cons, append_assoc. reflexivity.
Qed.

Lemma contains_lacks (c : ascii) (p s : string) :
  lacks c s = true -> contains (String c p) s = false.
Proof.
  induction s as [|d s IH]; [reflexivity|]. simpl. intros H.
  apply andb_true_iff in H as [Hd Hs]. apply negb_true_iff in Hd.
  rewrite Ascii.eqb_sym, Hd, (IH Hs). reflexivity.
Qed.

Lemma sharing_prefix (x : string) :
  contains "drive.google.com" ("https://drive.google.com/file/d/" +:+ x) = true /\
  contains "/file/d/" ("https://drive.google.com/file/d/" +:+ x) = true /\
  split_str "/file/d/" ("https://drive.google.com/file/d/" +:+ x)
  = "https://drive.google.com" :: split_go "/file/d/" 0 EmptyString x.
Proof. repeat split; vm_compute; reflexivity. Qed.

Lemma direct_prefix (x : string) :
  contains "drive.google.com" ("https://drive.google.com/uc?export=download&id=" +:+ x) = true /\
  contains "/file/d/" ("https://drive.google.com/uc?export=download&id=" +:+ x)
  = contains "/file/d/" x /\
  contains "id=" ("https://drive.google.com/uc?export=download&id=" +:+ x) = true /\
  split_str "id=" ("https://drive.google.com/uc?export=download&id=" +:+ x)
  = "https://drive.google.com/uc?export=download&" :: split_go "id=" 0 EmptyString x.
Proof. repeat split; vm_compute; reflexivity. Qed.

Lemma direct_url_of_sharing (id tail : string) :
  lacks "/" id = true ->
  (tail = EmptyString \/ exists t, tail = String "/" t) ->
  get_google_drive_direct_url ("https://drive.google.com/file/d/" +:+ id +:+ tail)
  = "https://drive.google.com/uc?export=download&id=" +:+ id.
Proof.
  intros Hid Htail. unfold get_google_drive_direct_url.
  destruct (sharing_prefix (id +:+ tail)) as (-> & -> & ->).
  cbn [lookup list_lookup]. 
  rewrite (split_go_gather "/file/d/" "/" "file/d/" id eq_refl Hid).
  destruct (split_go_head_after "/file/d/" "file/d/" "/" (rev_string id +:+ EmptyString) tail
              eq_refl Htail) as (y & tl & -> & Hy).
  rewrite append_nil_r, rev_string_involutive.
  change (((id +:+ y) :: tl) !! 0%nat ≫= (fun rest : string => split_char "/" rest !! 0%nat))
    with (split_char "/" (id +:+ y) !! 0%nat).
  rewrite (split_char_first "/" id y Hid Hy). reflexivity.
Qed.

Lemma direct_url_fixed (id : string) :
  lacks "/" id = true -> lacks "&" id = true -> contains "id=" id = false ->
  get_google_drive_direct_url ("https://drive.google.com/uc?export=download&id=" +:+ id)
  = "https://drive.google.com/uc?export=download&id=" +:+ id.
Proof.
  intros Hslash Hamp Hid. unfold get_google_drive_direct_url.
  destruct (direct_prefix id) as (-> & -> & -> & ->).
  rewrite (contains_lacks "/" "file/d/" id Hslash).
  cbn [lookup list_lookup].
  rewrite (split_go_no_sep "id=" id EmptyString Hid).
  change (rev_string EmptyString +:+ id) with id.
  change ([id] !! 0%nat ≫= (fun rest : string => split_char "&" rest !! 0%nat))
    with (split_char "&" id !! 0%nat).
  rewrite (split_char_lacks "&" id Hamp). reflexivity.
Qed.

Lemma other_url_unchanged (url : string) :
  contains "drive.google.com" url = false \/
  (contains "/file/d/" url = false /\ contains "id=" url = false) ->
  get_google_drive_direct_url url = url.
Proof.
  unfold get_google_drive_direct_url. intros [->|[-> ->]]; [reflexivity|].
  destruct (contains "drive.google.com" url); reflexivity.
Qed.


End DriveUrl.

(** X17.  [get_google_drive_direct_url] turns a sharing link
    [https://drive.google.com/file/d/<id>], with or without a path after
    the id, into the direct link
    [https://drive.google.com/uc?export=download&id=<id>]; it maps such a
    direct link to itself, and returns every URL that does not mention
    [drive.google.com] unchanged. *)
Theorem drive_sharing_link_becomes_direct_link :
  (forall id tail : string,
     Props.lacks "/" id = true ->
     (tail = EmptyString \/ exists t, tail = String "/" t) ->
     ModelSync.get_google_drive_direct_url
       ("https://drive.google.com/file/d/" +:+ id +:+ tail)
     = "https://drive.google.com/uc?export=download&id=" +:+ id) /\
  (forall id : string,
     Props.lacks "/" id = true -> Props.lacks "&" id = true ->
     Py.contains "id=" id = false ->
     ModelSync.get_google_drive_direct_url
       ("https://drive.google.com/uc?export=download&id=" +:+ id)
     = "https://drive.google.com/uc?export=download&id=" +:+ id) /\
  (forall url : string,
     Py.contains "drive.google.com" url = false ->
     ModelSync.get_google_drive_direct_url url = url).
Proof.
  split; [exact direct_url_of_sharing|]. split; [exact direct_url_fixed|].
  intros url H. apply other_url_unchanged. left. exact H.
Qed.

Lemma drive_sharing_link_becomes_direct_link_witness :
  ModelSync.get_google_drive_direct_url
    "https://drive.google.com/file/d/1AbC_d9/view?usp=sharing"
  = "https://drive.google.com/uc?export=download&id=1AbC_d9" /\
  ModelSync.get_google_drive_direct_url
    "https://drive.google.com/uc?export=download&id=1AbC_d9"
  = "https://drive.google.com/uc?export=download&id=1AbC_d9".
Proof.
  destruct drive_sharing_link_becomes_direct_link as (Hshare & Hdirect & _).
  split.
  - apply (Hshare "1AbC_d9" "/view?usp=sharing"); [reflexivity|].
    right. eexists. reflexivity.
  - apply (Hdirect "1AbC_d9"); reflexivity.
Defined.

(** ** [download_model] from end to end *)
Section ModelTrace.
Import Py Props ModelSync.
Variable E : env.

Lemma install_model_needs_destination (cfg : config) (model_name temp_path : string)
  (w : world) (mc : model_config) :
  models_lookup cfg model_name = Some mc ->
  mc_destination mc = None ->
  fst (install_model E cfg model_name temp_path w) = Some false.
Proof.
  intros Hlk Hd. unfold install_model, Eff.try_except, install_model_try.
  rewrite Hlk. erewrite bind_some by reflexivity. cbv beta. rewrite Hd.
  erewrite bind_none by reflexivity. reflexivity.
Qed.

(** A successful [download_model], step by step. *)
Lemma download_model_success (cfg : config) (model_name : string) (w : world) :
  fst (download_model E cfg model_name w) = Some true ->
  exists mc version type destination installed w_pre w_got,
    models_lookup cfg model_name = Some mc /\
    mc_version mc = Some version /\
    mc_type mc = Some type /\
    mc_destination mc = Some destination /\
    cache w_pre = cache w /\
    download_file E (default EmptyString (mc_url mc))
      (temp_path_of model_name mc type) true w_pre = (Some true, w_got) /\
    cache (snd (download_model E cfg model_name w)) = cache w_got /\
    dest (snd (download_model E cfg model_name w))
    = <[destination := Dir installed]> (dest w) /\
    (type = "file" ->
     exists content,
       cache w_got !! temp_path_of model_name mc type = Some (File content) /\
       installed = <[default (basename (temp_path_of model_name mc type)) (mc_filename mc)
                     := content]> (dest_files w destination)) /\
    (type = "zip" ->
     exists content members,
       cache w_got !! temp_path_of model_name mc type = Some (File content) /\
       unzip E content = Some members /\
       installed = write_members members (dest_files w destination)) /\
    (type <> "file" -> type <> "zip" -> installed = dest_files w destination) /\
    (truthy_opt (mc_hash mc) = true ->
     verify_file_integrity E w_got (temp_path_of model_name mc type) (mc_hash mc) = true) /\
    version_file (snd (download_model E cfg model_name w))
    = (if denied E LocVersionFile then version_file w
       else Some (<[model_name := version]> (get_model_versions w))).
Proof.
  intros Hok.
  destruct (download_model E cfg model_name w) as [r w'] eqn:Hrun. simpl in Hok. subst r.
  simpl. unfold download_model, Eff.try_except in Hrun.
  destruct (download_model_try E cfg model_name w) as [[b|] w1] eqn:H.
  2:{ pure_in Hrun. discriminate Hrun. }
  inversion Hrun; subst b w1. clear Hrun.
  unfold download_model_try in H.
  destruct (models_lookup cfg model_name) as [mc|] eqn:Hlk; pure_in H; [|discriminate H].
  destruct (negb (truthy_opt (mc_url mc))) eqn:Hurl.
  { pure_in H. discriminate H. }
  pure_in H.
  step_in H backed wb Hb; [|discriminate H].
  pose proof (backup_model_keeps E cfg model_name
    (set_log (log w ++ [sync_progress (Exactly (-1)) (MsgBackingUp model_name)]) w)) as Kb.
  rewrite Hb in Kb. unfold keeps in Kb. simpl in Kb.
  injection Kb as Kb_cache Kb_dest Kb_ver Kb_sync Kb_log.
  destruct (mc_type mc) as [type|] eqn:Hty; pure_in H; [|discriminate H].
  destruct (denied E (LocCacheDir (dirname (temp_path_of model_name mc type)))); pure_in H;
    [discriminate H|].
  pure_in H.
  set (w_pre := set_log (log wb ++ [sync_progress (Exactly (-1)) (MsgDownloading model_name)]) wb)
    in *.
  step_in H success w_got Hd; [|discriminate H].
  pose proof (download_file_keeps E (default EmptyString (mc_url mc))
    (temp_path_of model_name mc type) true w_pre) as Kd.
  rewrite Hd in Kd. unfold keeps in Kd. simpl in Kd.
  injection Kd as Kd_dest Kd_backups Kd_ver Kd_sync Kd_ticks.
  destruct success; cbn [negb] in H; [|discriminate H].
  step_in H intact w_ver Hv; [|discriminate H].
  assert (Hver : cache w_ver = cache w_got /\ dest w_ver = dest w_got /\
                 version_file w_ver = version_file w_got /\
                 (truthy_opt (mc_hash mc) = true -> intact = true ->
                  verify_file_integrity E w_got (temp_path_of model_name mc type) (mc_hash mc)
                  = true)).
  { destruct (truthy_opt (mc_hash mc)) eqn:Hh.
    - pure_in Hv. pure_in Hv.
      destruct (verify_file_integrity E _ _ _) eqn:Hvf.
      + inversion Hv; subst.
        split; [reflexivity|]. split; [reflexivity|]. split; [reflexivity|]. intros _ _.
        rewrite <- Hvf. apply verify_cache_only. reflexivity.
      + pure_in Hv. inversion Hv; subst.
        split; [reflexivity|]. split; [reflexivity|]. split; [reflexivity|].
        intros _ Hx. discriminate Hx.
    - inversion Hv; subst.
      split; [reflexivity|]. split; [reflexivity|]. split; [reflexivity|].
      intros Hx. discriminate Hx. }
  destruct Hver as (Vc & Vd & Vv & Vh).
  destruct intact; cbn [negb] in H; [|discriminate H].
  pure_in H.
  set (w_in := set_log (log w_ver ++ [sync_progress (Exactly (-1)) (MsgInstalling model_name)]) w_ver)
    in *.
  step_in H installed_ok w_out Hi; [|discriminate H].
  destruct installed_ok; cbn [negb] in H; [|discriminate H].
  destruct (mc_destination mc) as [destination|] eqn:Hdest.
  2:{ pose proof (install_model_needs_destination cfg model_name
                    (temp_path_of model_name mc type) w_in mc Hlk Hdest) as Hx.
      rewrite Hi in Hx. discriminate Hx. }
  destruct (install_model_success E cfg model_name (temp_path_of model_name mc type) w_in
              mc destination type Hlk Hdest Hty) as (installed & Hout & Hfile & Hzip & Hother).
  { rewrite Hi. reflexivity. }
  rewrite Hi in Hout. simpl in Hout.
  pure_in H.
  destruct (mc_version mc) as [version|] eqn:Hversion; pure_in H; [|discriminate H].
  assert (Hfiles : dest_files w_in destination = dest_files w destination).
  { unfold dest_files. simpl. rewrite Vd, Kd_dest. simpl. rewrite Kb_dest. reflexivity. }
  assert (Hcin : cache w_in = cache w_got) by (simpl; exact Vc).
  exists mc, version, type, destination, installed, w_pre, w_got.
  do 4 (split; [first [reflexivity|assumption]|]).
  split; [simpl; exact Kb_cache|]. split; [first [reflexivity|assumption]|].
  assert (Hvin : version_file w_out = version_file w).
  { rewrite Hout. simpl. rewrite Vv, Kd_ver. simpl. exact Kb_ver. }
  assert (Hw' : cache w' = cache w_got /\ dest w' = <[destination := Dir installed]> (dest w) /\
                version_file w'
                = (if denied E LocVersionFile then version_file w
                   else Some (<[model_name := version]> (get_model_versions w)))).
  { unfold save_model_versions in H. unfold get_model_versions in *. rewrite Hvin in H.
    destruct (denied E LocVersionFile); pure_in H; pure_in H; inversion H; subst w';
      simpl; rewrite ?Hvin; rewrite Hout; simpl; rewrite Vc, Vd, Kd_dest; simpl;
      rewrite Kb_dest; auto. }
  destruct Hw' as (Hc' & Hd' & Hv').
  split; [exact Hc'|]. split; [exact Hd'|].
  rewrite <- Hfiles, <- Hcin.
  split; [tauto|]. split; [tauto|]. split; [tauto|]. split; [|exact Hv'].
  intros Hh. apply Vh; [exact Hh|reflexivity].
Qed.


Lemma try_bind_some {S A B} (m : Eff.M S A) (k : A -> Eff.M S B) (h : Eff.M S B)
  (s s1 : S) (a : A) :
  m s = (Some a, s1) -> Eff.try_except (Eff.bind m k) h s = Eff.try_except (k a) h s1.
Proof. intros H. unfold Eff.try_except, Eff.bind. rewrite H. reflexivity. Qed.

Lemma download_model_keeps_backup (cfg : config) (model_name : string) (w : world)
  (mc : model_config) :
  models_lookup cfg model_name = Some mc ->
  truthy_opt (mc_url mc) = true ->
  backups (snd (download_model E cfg model_name w))
  = backups (snd (backup_model E cfg model_name
                    (set_log (log w ++ [sync_progress (Exactly (-1)) (MsgBackingUp model_name)])
                       w))).
Proof.
  intros Hlk Hurl.
  set (w0 := set_log (log w ++ [sync_progress (Exactly (-1)) (MsgBackingUp model_name)]) w).
  assert (Hrest : forall (k : bool -> Eff.M world bool) (h : Eff.M world bool),
            (forall b, respects (keeps backups) (k b)) -> respects (keeps backups) h ->
            backups (snd (Eff.try_except (Eff.bind (backup_model E cfg model_name) k) h w0))
            = backups (snd (backup_model E cfg model_name w0))).
  { intros k h Hk Hh. unfold Eff.try_except, Eff.bind.
    destruct (backup_model E cfg model_name w0) as [[b|] wb]; simpl.
    - specialize (Hk b wb). unfold keeps in Hk.
      destruct (k b wb) as [[r|] w2]; simpl in *; [exact Hk|].
      specialize (Hh w2). unfold keeps in Hh. rewrite Hh. exact Hk.
    - apply Hh. }
  unfold download_model, download_model_try.
  rewrite Hlk. erewrite try_bind_some by reflexivity. cbv beta.
  rewrite Hurl. cbn [negb].
  erewrite try_bind_some by reflexivity. fold w0.
  apply Hrest.
  - intros b. cbv zeta.
    unfold install_model, install_model_try, download_file, download_file_try,
      emit, open_write, write_chunk, write_dest, read_cache, save_model_versions. cbv zeta.
    repeat first
      [ apply write_chunks_keeps; [reflexivity|reflexivity]
      | respects_step keeps_pre
      | apply respects_modify; intros ?; reflexivity
      | (intros ?; reflexivity) ].
  - unfold emit. keeps_tac idtac.
Qed.


Lemma download_model_rejects (cfg : config) (model_name : string) (w : world)
  (mc : model_config) (type : string) (w_got : world) :
  models_lookup cfg model_name = Some mc ->
  truthy_opt (mc_url mc) = true ->
  mc_type mc = Some type ->
  denied E (LocCacheDir (dirname (temp_path_of model_name mc type))) = false ->
  download_file E (default EmptyString (mc_url mc)) (temp_path_of model_name mc type) true
    (set_log
       (log (snd (backup_model E cfg model_name
                    (set_log (log w ++ [sync_progress (Exactly (-1)) (MsgBackingUp model_name)])
                       w)))
        ++ [sync_progress (Exactly (-1)) (MsgDownloading model_name)])
       (snd (backup_model E cfg model_name
               (set_log (log w ++ [sync_progress (Exactly (-1)) (MsgBackingUp model_name)])
                  w))))
  = (Some true, w_got) ->
  truthy_opt (mc_hash mc) = true ->
  verify_file_integrity E w_got (temp_path_of model_name mc type) (mc_hash mc) = false ->
  download_model E cfg model_name w
  = (Some false,
     set_log (log w_got ++ [sync_progress (Exactly (-1)) (MsgVerifying model_name);
                             sync_error (ErrCorrupt model_name)]) w_got) /\
  dest w_got = dest w /\ version_file w_got = version_file w.
Proof.
  intros Hlk Hurl Hty Hdir Hd Hhash Hverify.
  set (w0 := set_log (log w ++ [sync_progress (Exactly (-1)) (MsgBackingUp model_name)]) w) in *.
  pose proof (backup_model_keeps E cfg model_name w0) as Kb.
  destruct (backup_model_total E cfg model_name w0) as [backed Hb].
  destruct (backup_model E cfg model_name w0) as [rb wb] eqn:Hrun. simpl in Hb, Hd, Kb.
  subst rb. unfold keeps in Kb. simpl in Kb.
  injection Kb as Kb_cache Kb_dest Kb_ver Kb_sync Kb_log.
  pose proof (download_file_keeps E (default EmptyString (mc_url mc))
    (temp_path_of model_name mc type) true
    (set_log (log wb ++ [sync_progress (Exactly (-1)) (MsgDownloading model_name)]) wb)) as Kd.
  rewrite Hd in Kd. unfold keeps in Kd. simpl in Kd.
  injection Kd as Kd_dest Kd_backups Kd_ver Kd_sync Kd_ticks.
  split; [|split; congruence].
  unfold download_model, Eff.try_except, download_model_try.
  rewrite Hlk. erewrite bind_some by reflexivity. cbv beta.
  rewrite Hurl. cbn [negb].
  erewrite bind_some by reflexivity. fold w0.
  erewrite bind_some by exact Hrun. cbv beta.
  rewrite Hty. erewrite bind_some by reflexivity. cbv beta. rewrite Hdir.
  erewrite bind_some by reflexivity. cbv beta.
  erewrite bind_some by reflexivity. cbv beta.
  erewrite bind_some by exact Hd. cbv beta. cbn [negb].
  rewrite Hhash.
  rewrite bind_assoc. erewrite bind_some by reflexivity. cbv beta.
  rewrite bind_assoc. erewrite bind_some by reflexivity. cbv beta.
  rewrite (verify_cache_only E _ w_got) by reflexivity. rewrite Hverify.
  rewrite bind_assoc. erewrite bind_some by reflexivity. cbv beta.
  erewrite bind_some by reflexivity. cbv beta. cbn [negb].
  unfold Eff.ret. simpl. rewrite <- app_assoc. reflexivity.
Qed.


End ModelTrace.

(** X18.  A download whose SHA-256 differs from the configured hash is
    rejected: [download_model] returns [False] after the signals of the
    verification and of the corrupt file, nothing is installed and the
    ledger keeps the old version.  The rejected file stays in the download
    cache. *)
Theorem download_model_rejects_corrupt_download (E : ModelSync.env) (cfg : ModelSync.config)
  (model_name : string) (w : ModelSync.world) (mc : ModelSync.model_config) (type : string)
  (backed : bool) (wb w_got : ModelSync.world) :
  ModelSync.models_lookup cfg model_name = Some mc ->
  Py.truthy_opt (ModelSync.mc_url mc) = true ->
  ModelSync.mc_type mc = Some type ->
  ModelSync.denied E
    (ModelSync.LocCacheDir (Py.dirname (ModelSync.temp_path_of model_name mc type))) = false ->
  ModelSync.backup_model E cfg model_name
    (ModelSync.set_log
       (ModelSync.log w
        ++ [ModelSync.sync_progress (ModelSync.Exactly (-1)) (ModelSync.MsgBackingUp model_name)])
       w)
  = (Some backed, wb) ->
  ModelSync.download_file E (default EmptyString (ModelSync.mc_url mc))
    (ModelSync.temp_path_of model_name mc type) true
    (ModelSync.set_log
       (ModelSync.log wb
        ++ [ModelSync.sync_progress (ModelSync.Exactly (-1))
              (ModelSync.MsgDownloading model_name)]) wb)
  = (Some true, w_got) ->
  Py.truthy_opt (ModelSync.mc_hash mc) = true ->
  ModelSync.verify_file_integrity E w_got (ModelSync.temp_path_of model_name mc type)
    (ModelSync.mc_hash mc) = false ->
  ModelSync.download_model E cfg model_name w
  = (Some false,
     ModelSync.set_log
       (ModelSync.log w_got
        ++ [ModelSync.sync_progress (ModelSync.Exactly (-1))
              (ModelSync.MsgVerifying model_name);
            ModelSync.sync_error (ModelSync.ErrCorrupt model_name)]) w_got) /\
  ModelSync.dest w_got = ModelSync.dest w /\
  ModelSync.version_file w_got = ModelSync.version_file w.
Proof.
  intros Hlk Hurl Hty Hdir Hb Hd Hhash Hverify.
  apply (download_model_rejects E cfg model_name w mc type w_got Hlk Hurl Hty Hdir);
    [|exact Hhash|exact Hverify].
  rewrite Hb. exact Hd.
Qed.

Lemma download_model_rejects_corrupt_download_witness :
  fst (ModelSync.download_model Scenario.delivering_env Scenario.hashed_cfg "m1"
         Scenario.m1_world) = Some false /\
  ModelSync.dest
    (snd (ModelSync.download_model Scenario.delivering_env Scenario.hashed_cfg "m1"
            Scenario.m1_world)) = ModelSync.dest Scenario.m1_world /\
  ModelSync.cache
    (snd (ModelSync.download_model Scenario.delivering_env Scenario.hashed_cfg "m1"
            Scenario.m1_world)) !! Scenario.m1_temp_path
  = Some (Py.File (Scenario.bytes "new")).
Proof.
  destruct (download_model_rejects_corrupt_download Scenario.delivering_env
              Scenario.hashed_cfg "m1" Scenario.m1_world
              (Scenario.m1_variant "1.1.0" "file" "00") "file" true
              (snd (ModelSync.backup_model Scenario.delivering_env Scenario.hashed_cfg "m1"
                      (ModelSync.set_log
                         (ModelSync.log Scenario.m1_world
                          ++ [ModelSync.sync_progress (ModelSync.Exactly (-1))
                                (ModelSync.MsgBackingUp "m1")]) Scenario.m1_world)))
              (snd (ModelSync.download_file Scenario.delivering_env
                      "https://example.org/m1.bin" Scenario.m1_temp_path true
                      (snd (ModelSync.emit
                              (ModelSync.sync_progress (ModelSync.Exactly (-1))
                                 (ModelSync.MsgDownloading "m1"))
                              (snd (ModelSync.backup_model Scenario.delivering_env
                                      Scenario.hashed_cfg "m1"
                                      (snd (ModelSync.emit
                                              (ModelSync.sync_progress (ModelSync.Exactly (-1))
                                                 (ModelSync.MsgBackingUp "m1"))
                                              Scenario.m1_world)))))))))
    as (Hrun & _ & _).
  - reflexivity.
  - reflexivity.
  - reflexivity.
  - reflexivity.
  - vm_compute. reflexivity.
  - vm_compute. reflexivity.
  - reflexivity.
  - vm_compute. reflexivity.
  - rewrite Hrun. vm_compute. repeat split; reflexivity.
Defined.

(** X19.  When [download_model] returns [True], the model is configured
    with a version, a type and a destination; the download succeeded and
    the downloaded file is still in the cache; if a hash is configured the
    file has it.  The destination directory holds what was there before
    plus the file under its configured name (type [file]) or the members
    of the archive (type [zip]), and is merely created for any other type.
    The ledger records the configured version, unless the ledger file
    cannot be written, in which case it is as before. *)
Theorem download_model_success_installs_what_it_verified (E : ModelSync.env)
  (cfg : ModelSync.config) (model_name : string) (w : ModelSync.world) :
  fst (ModelSync.download_model E cfg model_name w) = Some true ->
  exists mc version type destination installed w_pre w_got,
    ModelSync.models_lookup cfg model_name = Some mc /\
    ModelSync.mc_version mc = Some version /\
    ModelSync.mc_type mc = Some type /\
    ModelSync.mc_destination mc = Some destination /\
    ModelSync.cache w_pre = ModelSync.cache w /\
    ModelSync.download_file E (default EmptyString (ModelSync.mc_url mc))
      (ModelSync.temp_path_of model_name mc type) true w_pre = (Some true, w_got) /\
    ModelSync.cache (snd (ModelSync.download_model E cfg model_name w))
    = ModelSync.cache w_got /\
    ModelSync.dest (snd (ModelSync.download_model E cfg model_name w))
    = <[destination := Py.Dir installed]> (ModelSync.dest w) /\
    (type = "file" ->
     exists content,
       ModelSync.cache w_got !! ModelSync.temp_path_of model_name mc type
       = Some (Py.File content) /\
       installed
       = <[default (Py.basename (ModelSync.temp_path_of model_name mc type))
             (ModelSync.mc_filename mc) := content]> (Props.dest_files w destination)) /\
    (type = "zip" ->
     exists content members,
       ModelSync.cache w_got !! ModelSync.temp_path_of model_name mc type
       = Some (Py.File content) /\
       ModelSync.unzip E content = Some members /\
       installed = Props.write_members members (Props.dest_files w destination)) /\
    (type <> "file" -> type <> "zip" -> installed = Props.dest_files w destination) /\
    (Py.truthy_opt (ModelSync.mc_hash mc) = true ->
     ModelSync.verify_file_integrity E w_got (ModelSync.temp_path_of model_name mc type)
       (ModelSync.mc_hash mc) = true) /\
    ModelSync.version_file (snd (ModelSync.download_model E cfg model_name w))
    = (if ModelSync.denied E ModelSync.LocVersionFile then ModelSync.version_file w
       else Some (<[model_name := version]> (ModelSync.get_model_versions w))).
Proof. apply download_model_success. Qed.

Lemma download_model_success_installs_what_it_verified_witness :
  exists installed,
    ModelSync.dest
      (snd (ModelSync.download_model Scenario.delivering_env Scenario.v_cfg "m1"
              Scenario.m1_world))
    = <["models/m1" := Py.Dir installed]> (ModelSync.dest Scenario.m1_world) /\
    ModelSync.version_file
      (snd (ModelSync.download_model Scenario.delivering_env Scenario.v_cfg "m1"
              Scenario.m1_world))
    = Some (<["m1" := "v2.0.0"]> (ModelSync.get_model_versions Scenario.m1_world)).
Proof.
  destruct (download_model_success_installs_what_it_verified Scenario.delivering_env
              Scenario.v_cfg "m1" Scenario.m1_world)
    as (mc & version & type & destination & installed & w_pre & w_got & Hlk & Hv & _ & Hd
        & _ & _ & _ & Hdest & _ & _ & _ & _ & Hledger).
  - vm_compute. reflexivity.
  - vm_compute in Hlk. injection Hlk as <-.
    vm_compute in Hv. injection Hv as <-. vm_compute in Hd. injection Hd as <-.
    exists installed. split; [exact Hdest|exact Hledger].
Defined.

(** X20.  The snapshot taken at the start of [download_model] outlives the
    call: with backups enabled and the destination on disk, once the
    backup step has succeeded the old model can be found in its snapshot
    afterwards, whether the download, the verification and the
    installation then succeed or fail. *)
Theorem download_model_keeps_the_old_model (E : ModelSync.env) (cfg : ModelSync.config)
  (model_name : string) (w : ModelSync.world) (mc : ModelSync.model_config)
  (destination : string) (n : Py.node) :
  ModelSync.backup_old_models cfg = true ->
  ModelSync.models_lookup cfg model_name = Some mc ->
  Py.truthy_opt (ModelSync.mc_url mc) = true ->
  ModelSync.mc_destination mc = Some destination ->
  ModelSync.dest w !! destination = Some n ->
  fst (ModelSync.backup_model E cfg model_name
         (ModelSync.set_log
            (ModelSync.log w
             ++ [ModelSync.sync_progress (ModelSync.Exactly (-1))
                   (ModelSync.MsgBackingUp model_name)]) w)) = Some true ->
  exists snapshot,
    ModelSync.backups (snd (ModelSync.download_model E cfg model_name w))
      !! (model_name, Py.stamp (ModelSync.clock E (ModelSync.ticks w))) = Some snapshot /\
    snapshot !! Py.basename destination = Some n.
Proof.
  intros Hb Hlk Hurl Hd Hn Hok.
  rewrite (download_model_keeps_backup E cfg model_name w mc Hlk Hurl).
  destruct (backup_model_snapshot E cfg model_name
              (ModelSync.set_log
                 (ModelSync.log w
                  ++ [ModelSync.sync_progress (ModelSync.Exactly (-1))
                        (ModelSync.MsgBackingUp model_name)]) w)
              mc destination n Hb Hlk Hd Hn Hok)
    as (snapshot & Hs & Hcopy & _).
  exists snapshot. split; [exact Hs|exact Hcopy].
Qed.

Lemma download_model_keeps_the_old_model_witness :
  fst (ModelSync.download_model Scenario.unreachable_env Scenario.m1_cfg "m1"
         Scenario.m1_world) = Some false /\
  exists snapshot,
    ModelSync.backups
      (snd (ModelSync.download_model Scenario.unreachable_env Scenario.m1_cfg "m1"
              Scenario.m1_world)) !! ("m1", "20240101_000000") = Some snapshot /\
    snapshot !! "m1" = Some (Py.Dir {[ "m1.bin" := Scenario.bytes "old" ]}).
Proof.
  split; [vm_compute; reflexivity|].
  apply (download_model_keeps_the_old_model Scenario.unreachable_env Scenario.m1_cfg "m1"
           Scenario.m1_world Scenario.m1_config "models/m1"
           (Py.Dir {[ "m1.bin" := Scenario.bytes "old" ]})).
  - reflexivity.
  - reflexivity.
  - reflexivity.
  - reflexivity.
  - vm_compute. reflexivity.
  - vm_compute. reflexivity.
Defined.

(** ** Looking for a new release *)
Section Check.
Import Py Props UpdateManager.
Variable E : env.

(** The state after [save_last_check]. *)
Lemma check_for_updates_run (w : world) :
  match latest_release E with
  | None =>
      check_for_updates E w
      = (Some false,
         set_log (log w ++ [status_updated MsgChecking; error_occurred ErrRequest]) w)
  | Some r =>
      exists w1,
        ticks w1 = S (ticks w) /\
        exe w1 = exe w /\ exe_new w1 = exe_new w /\ cache w1 = cache w /\
        backup_dir w1 = backup_dir w /\
        last_check_file w1 =
          (if denied E LocLastCheckFile then last_check_file w
           else Some {| ci_timestamp := iso (clock E (ticks w));
                        ci_latest_version := default EmptyString (tag_name r);
                        ci_current_version := current_version E |}) /\
        log w1 = log w ++ [status_updated MsgChecking] /\
        check_for_updates E w =
          match tag_name r with
          | None => (None, w1)
          | Some tag =>
              if compare_versions (lstrip_char "v" tag) (lstrip_char "v" (current_version E)) >? 0
              then (Some true, set_log (log w1 ++ [update_available r]) w1)
              else (Some false, set_log (log w1 ++ [status_updated MsgUpToDate]) w1)
          end
  end.
Proof.
  unfold check_for_updates, get_latest_release.
  destruct (latest_release E) as [r|] eqn:Hr.
  - rewrite bind_assoc. erewrite bind_some by reflexivity. cbv beta.
    rewrite bind_assoc. unfold save_last_check. rewrite bind_assoc.
    erewrite bind_some by reflexivity. cbv beta.
    set (w0 := set_ticks (S (ticks w)) (set_log (log w ++ [status_updated MsgChecking]) w)).
    destruct (denied E LocLastCheckFile).
    + exists w0. do 7 (split; [reflexivity|]).
      erewrite bind_some by reflexivity. cbv beta.
      erewrite bind_some by reflexivity. cbv beta iota.
      destruct (tag_name r) as [tag|]; [|reflexivity].
      erewrite bind_some by reflexivity. cbv beta.
      destruct (compare_versions _ _ >? 0); reflexivity.
    + exists (set_last_check_file
                (Some {| ci_timestamp := iso (clock E (ticks w));
                         ci_latest_version := default EmptyString (tag_name r);
                         ci_current_version := current_version E |}) w0).
      do 7 (split; [reflexivity|]).
      erewrite bind_some by reflexivity. cbv beta.
      erewrite bind_some by reflexivity. cbv beta iota.
      destruct (tag_name r) as [tag|]; [|reflexivity].
      erewrite bind_some by reflexivity. cbv beta.
      destruct (compare_versions _ _ >? 0); reflexivity.
  - cbv [Eff.bind emit Eff.modify Eff.ret set_log log]. cbn.
    rewrite <- app_assoc. reflexivity.
Qed.


End Check.

(** X21.  [check_for_updates] returns [True] exactly when the tag of the
    latest release, without its leading [v]s, compares greater than the
    running version, and then announces the release with one
    [update_available] signal; otherwise it says that the application is
    up to date.  Either way the check is recorded: [get_last_check_info]
    gives the time of the check, the tag and the running version, unless
    the record cannot be written.  When the release cannot be fetched the
    answer is [False] with an error signal, and no record is written. *)
Theorem check_for_updates_offers_newer_release (E : UpdateManager.env)
  (w : UpdateManager.world) :
  (UpdateManager.latest_release E = None ->
   UpdateManager.check_for_updates E w
   = (Some false,
      UpdateManager.set_log
        (UpdateManager.log w
         ++ [UpdateManager.status_updated UpdateManager.MsgChecking;
             UpdateManager.error_occurred UpdateManager.ErrRequest]) w)) /\
  (forall r tag,
     UpdateManager.latest_release E = Some r ->
     UpdateManager.tag_name r = Some tag ->
     fst (UpdateManager.check_for_updates E w)
     = Some (UpdateManager.compare_versions (Py.lstrip_char "v" tag)
               (Py.lstrip_char "v" (UpdateManager.current_version E)) >? 0) /\
     UpdateManager.log (snd (UpdateManager.check_for_updates E w))
     = UpdateManager.log w
       ++ [UpdateManager.status_updated UpdateManager.MsgChecking;
           if UpdateManager.compare_versions (Py.lstrip_char "v" tag)
                (Py.lstrip_char "v" (UpdateManager.current_version E)) >? 0
           then UpdateManager.update_available r
           else UpdateManager.status_updated UpdateManager.MsgUpToDate] /\
     UpdateManager.get_last_check_info (snd (UpdateManager.check_for_updates E w))
     = (if UpdateManager.denied E UpdateManager.LocLastCheckFile
        then UpdateManager.last_check_file w
        else Some {| UpdateManager.ci_timestamp :=
                       Py.iso (UpdateManager.clock E (UpdateManager.ticks w));
                     UpdateManager.ci_latest_version := tag;
                     UpdateManager.ci_current_version := UpdateManager.current_version E |}) /\
     UpdateManager.exe (snd (UpdateManager.check_for_updates E w)) = UpdateManager.exe w /\
     UpdateManager.exe_new (snd (UpdateManager.check_for_updates E w))
     = UpdateManager.exe_new w /\
     UpdateManager.cache (snd (UpdateManager.check_for_updates E w))
     = UpdateManager.cache w /\
     UpdateManager.backup_dir (snd (UpdateManager.check_for_updates E w))
     = UpdateManager.backup_dir w).
Proof.
  pose proof (check_for_updates_run E w) as H.
  split.
  - intros Hr. rewrite Hr in H. exact H.
  - intros r tag Hr Htag. rewrite Hr in H.
    destruct H as (w1 & _ & Hexe & Hnew & Hcache & Hdir & Hlast & Hlog & Hrun).
    rewrite Htag in Hrun, Hlast. rewrite Hrun.
    unfold UpdateManager.get_last_check_info.
    destruct (UpdateManager.compare_versions _ _ >? 0); simpl;
      rewrite Hlog, <- app_assoc; auto 10.
Qed.

Lemma check_for_updates_offers_newer_release_witness :
  fst (UpdateManager.check_for_updates Scenario.online_env Scenario.app_world) = Some true /\
  UpdateManager.log (snd (UpdateManager.check_for_updates Scenario.online_env
                            Scenario.app_world))
  = [UpdateManager.status_updated UpdateManager.MsgChecking;
     UpdateManager.update_available Scenario.release_1_1] /\
  UpdateManager.get_last_check_info
    (snd (UpdateManager.check_for_updates Scenario.online_env Scenario.app_world))
  = Some {| UpdateManager.ci_timestamp := "2024-01-01T00:00:00";
            UpdateManager.ci_latest_version := "v1.1.0";
            UpdateManager.ci_current_version := "1.0.0" |}.
Proof.
  destruct (check_for_updates_offers_newer_release Scenario.online_env Scenario.app_world)
    as [_ H].
  destruct (H Scenario.release_1_1 "v1.1.0" eq_refl eq_refl) as (Hr & Hlog & Hlast & _).
  rewrite Hr, Hlog, Hlast. vm_compute. repeat split; reflexivity.
Defined.

(** ** Downloading an update *)
Section Download.
Import Py Props UpdateManager.
Variable F : fetcher.

Lemma find_asset_found (assets : list asset) (a : asset) :
  find_asset assets = Some (Some a) ->
  exists before after n,
    assets = before ++ a :: after /\
    asset_name a = Some n /\ is_update_name n = true /\
    Forall (fun b => exists m, asset_name b = Some m /\ is_update_name m = false) before.
Proof.
  induction assets as [|b assets IH]; simpl; [discriminate|].
  destruct (asset_name b) as [m|] eqn:Hm; [|discriminate].
  destruct (ends_with ".exe" (lower m) || ends_with ".zip" (lower m)) eqn:Hs.
  - intros H. inversion H; subst b. exists [], assets, m. repeat split; auto.
  - intros H. destruct (IH H) as (before & after & n & -> & Hn & Hu & Hb).
    exists (b :: before), after, n. repeat split; auto. constructor; [|exact Hb]. eauto.
Qed.

Lemma find_asset_none (assets : list asset) :
  find_asset assets = Some None <->
  Forall (fun b => exists m, asset_name b = Some m /\ is_update_name m = false) assets.
Proof.
  induction assets as [|b assets IH]; simpl.
  - split; [constructor|reflexivity].
  - destruct (asset_name b) as [m|] eqn:Hm.
    + destruct (ends_with ".exe" (lower m) || ends_with ".zip" (lower m)) eqn:Hs.
      * split; [discriminate|]. intros H. inversion H as [|? ? (m' & Hm' & Hu) _]; subst.
        unfold is_update_name in Hu. congruence.
      * rewrite IH. split.
        -- intros H. constructor; [eauto|exact H].
        -- intros H. inversion H. assumption.
    + split; [discriminate|]. intros H. inversion H as [|? ? (m' & Hm' & _) _]; subst.
      congruence.
Qed.

Lemma save_chunks_run (download_path : string) (file_size : Z) (chunks : list (list byte)) :
  forall (downloaded_size : Z) (st : download_state) (content : list byte),
  cache (disk st) !! download_path = Some content ->
  exists evs,
    save_chunks download_path file_size chunks downloaded_size st
    = (Some (downloaded_size + Py.len (concat chunks)),
       {| disk := set_cache (insert download_path (content ++ concat chunks)) (disk st);
          signals := signals st ++ evs |}) /\
    Forall (progress_of file_size) evs.
Proof.
  induction chunks as [|chunk chunks IH]; intros ds st content Hc.
  - exists []. split; [|constructor]. simpl. unfold Py.len. simpl.
    rewrite Z.add_0_r, !app_nil_r. unfold Eff.ret. f_equal.
    destruct st as [d sg]. simpl in *. f_equal. destruct d; unfold set_cache; simpl in *.
    f_equal. symmetry. apply insert_id, Hc.
  - destruct chunk as [|b chunk]; [apply IH, Hc|].
    cbn [save_chunks].
    set (st1 := {| disk := set_cache (insert download_path (content ++ b :: chunk)) (disk st);
                   signals := signals st |}).
    assert (H1 : write_cache
                   (fun c => <[download_path := default [] (c !! download_path) ++ b :: chunk]> c)
                   st = (Some tt, st1)).
    { unfold write_cache, Eff.modify, st1, set_cache. rewrite Hc. reflexivity. }
    erewrite bind_some by exact H1. cbv beta zeta.
    set (ev1 := if file_size >? 0
                then [progress_updated (ds + Py.len (b :: chunk)) file_size] else []).
    set (st2 := {| disk := disk st1; signals := signals st ++ ev1 |}).
    assert (H2 : (if file_size >? 0
                  then signal (progress_updated (ds + Py.len (b :: chunk)) file_size)
                  else Eff.ret tt) st1 = (Some tt, st2)).
    { unfold st2, ev1. destruct (file_size >? 0); [reflexivity|].
      rewrite app_nil_r. reflexivity. }
    erewrite bind_some by exact H2. cbv beta.
    destruct (IH (ds + Py.len (b :: chunk)) st2 (content ++ b :: chunk)) as (evs & Hrun & Hevs).
    { apply lookup_insert_eq. }
    exists (ev1 ++ evs). split.
    + rewrite Hrun. f_equal.
      * f_equal. change (concat ((b :: chunk) :: chunks)) with ((b :: chunk) ++ concat chunks).
        unfold Py.len. rewrite length_app. lia.
      * unfold st2, st1. cbn [disk signals]. rewrite <- !app_assoc. f_equal.
        change (concat ((b :: chunk) :: chunks)) with ((b :: chunk) ++ concat chunks).
        destruct (disk st); unfold set_cache; simpl. f_equal. apply insert_insert_eq.
    + apply Forall_app. split; [|exact Hevs]. unfold ev1.
      destruct (file_size >? 0); repeat constructor. eexists. reflexivity.
Qed.



Lemma download_update_run (assets : list asset) (st : download_state) (a : asset)
  (n url : string) (response : asset_response) :
  find_asset assets = Some (Some a) ->
  asset_name a = Some n ->
  browser_download_url a = Some url ->
  truthy url = true ->
  fetch F url = Some response ->
  ((400 <=? asset_status_code response) && (asset_status_code response <? 600)) = false ->
  cache_write_denied F n = false ->
  exists evs,
    Forall (progress_of (asset_size a)) evs /\
    download_update F assets st =
      let st1 :=
        {| disk := set_cache (insert n (concat (asset_chunks response))) (disk st);
           signals := signals st ++ [asset_status (MsgDownloadingAsset n)] ++ evs |} in
      if asset_stream_breaks response
      then (Some None, add_signals [asset_error ErrDownloading] st1)
      else if (asset_size a >? 0)
              && negb (Py.len (concat (asset_chunks response)) =? asset_size a)
      then (Some None, add_signals [asset_error ErrDownloadCorrupt] st1)
      else (Some (Some n),
            add_signals [asset_status MsgDownloadDone; update_downloaded n] st1).
Proof.
  intros Hfind Hname Hurl Htruthy Hfetch Hstatus Hden.
  set (st0 := {| disk := set_cache (insert n []) (disk st);
                 signals := signals st ++ [asset_status (MsgDownloadingAsset n)] |}).
  destruct (save_chunks_run n (asset_size a) (asset_chunks response) 0 st0 [])
    as (evs & Hsave & Hevs).
  { apply lookup_insert_eq. }
  exists evs. split; [exact Hevs|].
  unfold download_update, Eff.try_except, download_update_try.
  rewrite Hfind. erewrite bind_some by reflexivity. cbv beta iota.
  rewrite Hname. erewrite bind_some by reflexivity. cbv beta zeta.
  rewrite Hurl. cbn [truthy_opt]. rewrite Htruthy. cbn [negb].
  erewrite bind_some by reflexivity. cbv beta.
  cbn [default from_option id]. rewrite Hfetch.
  erewrite bind_some by reflexivity. cbv beta. rewrite Hstatus.
  erewrite bind_some by reflexivity. cbv beta. rewrite Hden.
  erewrite bind_some by reflexivity. cbv beta.
  erewrite bind_some by exact Hsave. cbv beta.
  assert (Hdisk : set_cache (insert n ([] ++ concat (asset_chunks response))) (disk st0)
                  = set_cache (insert n (concat (asset_chunks response))) (disk st)).
  { unfold st0. cbn [disk]. destruct (disk st); unfold set_cache; simpl. f_equal.
    apply insert_insert_eq. }
  rewrite Hdisk. unfold st0. cbn [signals]. rewrite <- !app_assoc.
  destruct (asset_stream_breaks response).
  - erewrite bind_none by reflexivity. reflexivity.
  - erewrite bind_some by reflexivity. cbv beta.
    erewrite bind_some by reflexivity. cbv beta.
    cbn [disk cache set_cache]. rewrite lookup_insert_eq. cbn [default from_option id].
    destruct ((asset_size a >? 0)
              && negb (Py.len (concat (asset_chunks response)) =? asset_size a)).
    + unfold add_signals. cbn. rewrite <- !app_assoc. reflexivity.
    + unfold add_signals. cbn. rewrite <- !app_assoc. reflexivity.
Qed.

Lemma download_update_conditions (assets : list asset) (st : download_state) (path : string) :
  fst (download_update F assets st) = Some (Some path) ->
  exists a n url response,
    find_asset assets = Some (Some a) /\
    asset_name a = Some n /\
    browser_download_url a = Some url /\
    truthy url = true /\
    fetch F url = Some response /\
    ((400 <=? asset_status_code response) && (asset_status_code response <? 600)) = false /\
    cache_write_denied F n = false.
Proof.
  intros Hok.
  destruct (download_update F assets st) as [r st'] eqn:Hrun. simpl in Hok. subst r.
  unfold download_update, Eff.try_except in Hrun.
  destruct (download_update_try F assets st) as [[b|] s1] eqn:Ht.
  2:{ pure_in Hrun. discriminate Hrun. }
  inversion Hrun; subst b s1. clear Hrun.
  unfold download_update_try in Ht.
  destruct (find_asset assets) as [[a|]|] eqn:Hfind.
  3:{ pure_in Ht. discriminate Ht. }
  2:{ pure_in Ht. cbv iota in Ht. pure_in Ht. discriminate Ht. }
  pure_in Ht. cbv iota in Ht.
  destruct (asset_name a) as [n|] eqn:Hname; [|pure_in Ht; discriminate Ht].
  pure_in Ht. cbv zeta in Ht.
  destruct (browser_download_url a) as [url|] eqn:Hurl; cbn [truthy_opt negb] in Ht.
  2:{ pure_in Ht. discriminate Ht. }
  destruct (truthy url) eqn:Htruthy; cbn [negb] in Ht.
  2:{ pure_in Ht. discriminate Ht. }
  pure_in Ht. cbn [default from_option id] in Ht.
  destruct (fetch F url) as [response|] eqn:Hfetch; [|pure_in Ht; discriminate Ht].
  pure_in Ht.
  destruct ((400 <=? asset_status_code response) && (asset_status_code response <? 600))
    eqn:Hstatus; [pure_in Ht; discriminate Ht|].
  pure_in Ht.
  destruct (cache_write_denied F n) eqn:Hden; [pure_in Ht; discriminate Ht|].
  exists a, n, url, response. auto 10.
Qed.

Lemma download_update_success (assets : list asset) (st : download_state) (path : string) :
  fst (download_update F assets st) = Some (Some path) ->
  exists a url response evs,
    find_asset assets = Some (Some a) /\
    asset_name a = Some path /\
    browser_download_url a = Some url /\
    fetch F url = Some response /\
    asset_stream_breaks response = false /\
    (asset_size a > 0 -> Py.len (concat (asset_chunks response)) = asset_size a) /\
    Forall (progress_of (asset_size a)) evs /\
    snd (download_update F assets st)
    = {| disk := set_cache (insert path (concat (asset_chunks response))) (disk st);
         signals := signals st ++ [asset_status (MsgDownloadingAsset path)] ++ evs
                    ++ [asset_status MsgDownloadDone; update_downloaded path] |}.
Proof.
  intros Hok.
  destruct (download_update_conditions assets st path Hok)
    as (a & n & url & response & Hfind & Hname & Hurl & Htruthy & Hfetch & Hstatus & Hden).
  destruct (download_update_run assets st a n url response Hfind Hname Hurl Htruthy Hfetch
              Hstatus Hden) as (evs & Hevs & Hrun).
  rewrite Hrun in Hok |- *. cbv zeta in Hok |- *.
  destruct (asset_stream_breaks response) eqn:Hbreak; [discriminate Hok|].
  destruct ((asset_size a >? 0)
            && negb (Py.len (concat (asset_chunks response)) =? asset_size a)) eqn:Hsize;
    [discriminate Hok|].
  simpl in Hok. inversion Hok; subst n.
  exists a, url, response, evs. repeat (split; [first [reflexivity|assumption]|]).
  split.
  - intros Hpos. apply andb_false_iff in Hsize as [Hs|Hs].
    + destruct (Z.gtb_spec (asset_size a) 0); [discriminate|lia].
    + apply negb_false_iff, Z.eqb_eq in Hs. exact Hs.
  - split; [exact Hevs|]. unfold add_signals. cbn. rewrite <- !app_assoc. reflexivity.
Qed.


Lemma download_update_no_source (assets : list asset) (st : download_state) :
  (find_asset assets = Some None ->
   download_update F assets st = (Some None, add_signals [asset_error ErrNoAsset] st)) /\
  (forall a, find_asset assets = Some (Some a) ->
     truthy_opt (browser_download_url a) = false ->
     download_update F assets st = (Some None, add_signals [asset_error ErrNoDownloadUrl] st)).
Proof.
  split.
  - intros Hfind. unfold download_update, Eff.try_except, download_update_try.
    rewrite Hfind. reflexivity.
  - intros a Hfind Hurl.
    destruct (find_asset_found assets a Hfind) as (_ & _ & n & _ & Hname & _).
    unfold download_update, Eff.try_except, download_update_try.
    rewrite Hfind. erewrite bind_some by reflexivity. cbv beta iota.
    rewrite Hname. erewrite bind_some by reflexivity. cbv beta zeta.
    rewrite Hurl. reflexivity.
Qed.

End Download.

(** X22.  Without a usable source [download_update] gives [None] after a
    single error signal and touches no file: when no asset has a name
    ending, in any letter case, with [.exe] or [.zip] (in particular when
    the release has no asset), and when the asset found has no download
    URL or an empty one. *)
Theorem download_update_without_source (F : UpdateManager.fetcher)
  (assets : list UpdateManager.asset) (st : UpdateManager.download_state) :
  (Forall (fun b => exists m, UpdateManager.asset_name b = Some m /\
                              Props.is_update_name m = false) assets ->
   UpdateManager.download_update F assets st
   = (Some None,
      Props.add_signals [UpdateManager.asset_error UpdateManager.ErrNoAsset] st)) /\
  (forall a,
     UpdateManager.find_asset assets = Some (Some a) ->
     Py.truthy_opt (UpdateManager.browser_download_url a) = false ->
     UpdateManager.download_update F assets st
     = (Some None,
        Props.add_signals [UpdateManager.asset_error UpdateManager.ErrNoDownloadUrl] st)).
Proof.
  destruct (download_update_no_source F assets st) as [Hnone Hurl].
  split; [|exact Hurl].
  intros Hall. apply Hnone. apply find_asset_none. exact Hall.
Qed.

Lemma download_update_without_source_witness :
  UpdateManager.download_update (Scenario.asset_server "exe-1.1.0")
    (Scenario.release_assets "CHANGES.md") Scenario.download_start
  = (Some None,
     Props.add_signals [UpdateManager.asset_error UpdateManager.ErrNoAsset]
       Scenario.download_start) /\
  UpdateManager.download_update (Scenario.asset_server "exe-1.1.0")
    Scenario.assets_without_url Scenario.download_start
  = (Some None,
     Props.add_signals [UpdateManager.asset_error UpdateManager.ErrNoDownloadUrl]
       Scenario.download_start).
Proof.
  destruct (download_update_without_source (Scenario.asset_server "exe-1.1.0")
              (Scenario.release_assets "CHANGES.md") Scenario.download_start) as [Hname _].
  destruct (download_update_without_source (Scenario.asset_server "exe-1.1.0")
              Scenario.assets_without_url Scenario.download_start) as [_ Hurl].
  split.
  - apply Hname. repeat constructor.
    + exists "notes.txt". split; reflexivity.
    + exists "CHANGES.md". split; reflexivity.
  - apply (Hurl {| UpdateManager.asset_name := Some "VoiceApp.exe";
                   UpdateManager.browser_download_url := None;
                   UpdateManager.asset_size := 9 |}); reflexivity.
Defined.

(** X23.  When [download_update] returns a path, the file at that path
    holds exactly the bytes the server sent for the first asset whose
    name ends, in any letter case, with [.exe] or [.zip]; the path is that
    asset's name; the transfer was complete, and the size on disk equals
    the declared size whenever one is declared.  Nothing else on disk
    changes, and the signals are: the start of the download, progress
    values, the end of the download and [update_downloaded] with the
    path. *)
Theorem download_update_success_means_complete_file (F : UpdateManager.fetcher)
  (assets : list UpdateManager.asset) (st : UpdateManager.download_state) (path : string) :
  fst (UpdateManager.download_update F assets st) = Some (Some path) ->
  exists a before after url response evs,
    assets = before ++ a :: after /\
    Forall (fun b => exists m, UpdateManager.asset_name b = Some m /\
                               Props.is_update_name m = false) before /\
    UpdateManager.asset_name a = Some path /\
    Props.is_update_name path = true /\
    UpdateManager.browser_download_url a = Some url /\
    UpdateManager.fetch F url = Some response /\
    UpdateManager.asset_stream_breaks response = false /\
    (UpdateManager.asset_size a > 0 ->
     Py.len (concat (UpdateManager.asset_chunks response)) = UpdateManager.asset_size a) /\
    Forall (Props.progress_of (UpdateManager.asset_size a)) evs /\
    snd (UpdateManager.download_update F assets st)
    = {| UpdateManager.disk :=
           UpdateManager.set_cache
             (insert path (concat (UpdateManager.asset_chunks response)))
             (UpdateManager.disk st);
         UpdateManager.signals :=
           UpdateManager.signals st
           ++ [UpdateManager.asset_status (UpdateManager.MsgDownloadingAsset path)] ++ evs
           ++ [UpdateManager.asset_status UpdateManager.MsgDownloadDone;
               UpdateManager.update_downloaded path] |}.
Proof.
  intros Hok.
  destruct (download_update_success F assets st path Hok)
    as (a & url & response & evs & Hfind & Hname & Hurl & Hfetch & Hbreak & Hsize & Hevs & Hrun).
  destruct (find_asset_found assets a Hfind) as (before & after & n & Hsplit & Hn & Hup & Hbefore).
  assert (n = path) by congruence. subst n.
  exists a, before, after, url, response, evs. auto 12.
Qed.

Lemma download_update_success_means_complete_file_witness :
  exists evs,
    snd (UpdateManager.download_update (Scenario.asset_server "exe-1.1.0")
           (Scenario.release_assets "VoiceApp.exe") Scenario.download_start)
    = {| UpdateManager.disk :=
           UpdateManager.set_cache (insert "VoiceApp.exe" (Scenario.bytes "exe-1.1.0"))
             Scenario.app_world;
         UpdateManager.signals :=
           [UpdateManager.asset_status (UpdateManager.MsgDownloadingAsset "VoiceApp.exe")]
           ++ evs
           ++ [UpdateManager.asset_status UpdateManager.MsgDownloadDone;
               UpdateManager.update_downloaded "VoiceApp.exe"] |}.
Proof.
  destruct (download_update_success_means_complete_file (Scenario.asset_server "exe-1.1.0")
              (Scenario.release_assets "VoiceApp.exe") Scenario.download_start "VoiceApp.exe")
    as (a & before & after & url & response & evs & _ & _ & _ & _ & _ & Hfetch & _ & _ & _
        & Hrun).
  - vm_compute. reflexivity.
  - injection Hfetch as <-. exists evs. exact Hrun.
Defined.

(** X24.  A download that breaks off, or whose size differs from the
    declared one, is reported and gives [None], but the file is left in
    the cache with the bytes received, replacing what was at that path.
    The size is only compared when the declared size is positive: with a
    declared size of 0 or less any complete transfer is accepted. *)
Theorem download_update_failure_leaves_the_file (F : UpdateManager.fetcher)
  (assets : list UpdateManager.asset) (st : UpdateManager.download_state)
  (a : UpdateManager.asset) (n url : string) (response : UpdateManager.asset_response) :
  UpdateManager.find_asset assets = Some (Some a) ->
  UpdateManager.asset_name a = Some n ->
  UpdateManager.browser_download_url a = Some url ->
  Py.truthy url = true ->
  UpdateManager.fetch F url = Some response ->
  ((400 <=? UpdateManager.asset_status_code response)
   && (UpdateManager.asset_status_code response <? 600)) = false ->
  UpdateManager.cache_write_denied F n = false ->
  UpdateManager.cache (UpdateManager.disk (snd (UpdateManager.download_update F assets st)))
  = <[n := concat (UpdateManager.asset_chunks response)]>
      (UpdateManager.cache (UpdateManager.disk st)) /\
  (fst (UpdateManager.download_update F assets st) = Some (Some n) <->
   UpdateManager.asset_stream_breaks response = false /\
   (UpdateManager.asset_size a > 0 ->
    Py.len (concat (UpdateManager.asset_chunks response)) = UpdateManager.asset_size a)) /\
  (fst (UpdateManager.download_update F assets st) = Some (Some n) \/
   fst (UpdateManager.download_update F assets st) = Some None /\
   exists evs m,
     UpdateManager.signals (snd (UpdateManager.download_update F assets st))
     = UpdateManager.signals st ++ evs ++ [UpdateManager.asset_error m]).
Proof.
  intros Hfind Hname Hurl Htruthy Hfetch Hstatus Hden.
  destruct (download_update_run F assets st a n url response Hfind Hname Hurl Htruthy Hfetch
              Hstatus Hden) as (evs & _ & Hrun).
  cbv zeta in Hrun. rewrite Hrun. clear Hrun.
  destruct (UpdateManager.asset_stream_breaks response).
  - split; [reflexivity|]. split.
    + split; [discriminate|]. intros [H _]. discriminate H.
    + right. split; [reflexivity|]. eexists _, _. cbn. rewrite <- app_assoc. reflexivity.
  - destruct (Z.gtb_spec (UpdateManager.asset_size a) 0) as [Hpos|Hnon]; cbn [andb].
    + destruct (Z.eqb_spec (Py.len (concat (UpdateManager.asset_chunks response)))
                  (UpdateManager.asset_size a)) as [Heq|Hne]; cbn [negb].
      * split; [reflexivity|]. split; [|left; reflexivity].
        split; [auto|reflexivity].
      * split; [reflexivity|]. split.
        -- split; [discriminate|]. intros [_ H]. exfalso. apply Hne, H. lia.
        -- right. split; [reflexivity|]. eexists _, _. cbn. rewrite <- app_assoc. reflexivity.
    + split; [reflexivity|]. split; [|left; reflexivity].
      split; [|reflexivity]. intros _. split; [reflexivity|]. intros H. lia.
Qed.

Lemma download_update_failure_leaves_the_file_witness :
  fst (UpdateManager.download_update Scenario.breaking_server
         (Scenario.release_assets "update.exe") Scenario.download_start) = Some None /\
  UpdateManager.cache
    (UpdateManager.disk
       (snd (UpdateManager.download_update Scenario.breaking_server
               (Scenario.release_assets "update.exe") Scenario.download_start)))
  = <["update.exe" := Scenario.bytes "exe-"]> (UpdateManager.cache Scenario.app_world).
Proof.
  split; [vm_compute; reflexivity|].
  refine (proj1 (download_update_failure_leaves_the_file Scenario.breaking_server
                   (Scenario.release_assets "update.exe") Scenario.download_start
                   {| UpdateManager.asset_name := Some "update.exe";
                      UpdateManager.browser_download_url := Some "https://example.org/app";
                      UpdateManager.asset_size := 9 |}
                   "update.exe" "https://example.org/app"
                   {| UpdateManager.asset_status_code := 200;
                      UpdateManager.asset_chunks := [Scenario.bytes "exe-"];
                      UpdateManager.asset_stream_breaks := true |} _ _ _ _ _ _ _));
    reflexivity.
Defined.

(** ** Installing an update *)
Section InstallUpdate.
Import Py Props UpdateManager.
Variable E : env.

Lemma extract_members_run (members : list (string * list byte)) :
  forall (w w' : world),
  Eff.for_each members (extract_member E) w = (Some tt, w') ->
  w' = set_update_extract (extract_all members) w.
Proof.
  induction members as [|m members IH]; intros w w' H.
  - simpl in H. inversion H; subst w'. destruct w; reflexivity.
  - simpl in H. step_in H u w1 Hm; [|discriminate H]. destruct u.
    unfold extract_member in Hm.
    destruct (denied E (LocExtract m.1)); [discriminate Hm|].
    inversion Hm; subst w1. apply IH in H. rewrite H. destruct w; reflexivity.
Qed.

Lemma install_update_success (update_file : string) (w : world) :
  fst (install_update E update_file w) = Some true ->
  exists wb,
    create_backup E (set_log (log w ++ [status_updated MsgInstalling]) w) = (Some true, wb) /\
    exe (snd (install_update E update_file w)) = exe w /\
    backup_dir (snd (install_update E update_file w)) = backup_dir wb /\
    if ends_with ".exe" update_file then
      exists content,
        cache w !! update_file = Some content /\
        exe_new (snd (install_update E update_file w)) = Some content /\
        update_extract (snd (install_update E update_file w)) = update_extract w /\
        log (snd (install_update E update_file w))
        = log wb ++ [helper_started (exe_path E ++ ".new") (exe_path E);
                     status_updated MsgInstallDone]
    else if ends_with ".zip" update_file then
      exists content members exe_file,
        cache w !! update_file = Some content /\
        unzip E content = Some members /\
        update_extract (snd (install_update E update_file w))
        = extract_all members (update_extract w) /\
        find (fun m => ends_with ".exe" (fst m))
          (update_extract (snd (install_update E update_file w))) = Some exe_file /\
        exe_new (snd (install_update E update_file w)) = Some (snd exe_file) /\
        log (snd (install_update E update_file w))
        = log wb ++ [helper_started (exe_path E ++ ".new") (exe_path E);
                     status_updated MsgInstallDone]
    else
      exe_new (snd (install_update E update_file w)) = exe_new w /\
      update_extract (snd (install_update E update_file w)) = update_extract w /\
      cache (snd (install_update E update_file w)) = cache w /\
      log (snd (install_update E update_file w)) = log wb ++ [status_updated MsgInstallDone].
Proof.
  intros Hok.
  destruct (install_update E update_file w) as [r w'] eqn:Hrun. simpl in Hok. subst r. simpl.
  unfold install_update, Eff.try_except in Hrun.
  destruct (install_update_try E update_file w) as [[b|] w1] eqn:Ht; [|discriminate Hrun].
  inversion Hrun; subst b w1; clear Hrun.
  unfold install_update_try in Ht. pure_in Ht.
  set (w0 := set_log (log w ++ [status_updated MsgInstalling]) w) in *.
  pose proof (create_backup_keeps E w0) as Hk.
  step_in Ht backed wb Hb.
  2:{ destruct (create_backup_total E w0) as [? Hx]. rewrite Hb in Hx. discriminate Hx. }
  try rewrite Hb in Hk. unfold keeps in Hk. simpl in Hk.
  injection Hk as Hexe Hnew Hfiles Hcache Hextract _.
  destruct backed; cbn [negb] in Ht; [|discriminate Ht].
  exists wb. split; [reflexivity|].
  destruct (ends_with ".exe" update_file).
  - unfold read_cache in Ht. rewrite !bind_assoc in Ht. pure_in Ht.
    rewrite Hcache in Ht.
    destruct (cache w !! update_file) as [content|] eqn:Hc; [|discriminate Ht].
    pure_in Ht. unfold stage in Ht. rewrite !bind_assoc in Ht.
    destruct (denied E LocExeNew); [discriminate Ht|]. pure_in Ht.
    unfold create_update_script in Ht. rewrite !bind_assoc in Ht.
    destruct (denied E LocScript); [discriminate Ht|]. pure_in Ht.
    destruct (denied E LocSpawn); [discriminate Ht|]. pure_in Ht.
    pure_in Ht. cbv iota in Ht. pure_in Ht. inversion Ht; subst w'. simpl.
    split; [exact Hexe|]. split; [reflexivity|].
    exists content. split; [reflexivity|]. split; [reflexivity|].
    split; [exact Hextract|]. rewrite <- app_assoc. reflexivity.
  - destruct (ends_with ".zip" update_file).
    + unfold read_cache in Ht. rewrite !bind_assoc in Ht. pure_in Ht.
      rewrite Hcache in Ht.
      destruct (cache w !! update_file) as [content|] eqn:Hc; [|discriminate Ht].
      pure_in Ht. rewrite !bind_assoc in Ht.
      destruct (unzip E content) as [members|] eqn:Hz; [|discriminate Ht].
      pure_in Ht. rewrite !bind_assoc in Ht.
      step_in Ht u w2 Hx; [|discriminate Ht]. destruct u.
      apply extract_members_run in Hx. subst w2.
      rewrite !bind_assoc in Ht. pure_in Ht.
      cbn [update_extract set_update_extract] in Ht. rewrite Hextract in Ht.
      destruct (find _ (extract_all members (update_extract w))) as [exe_file|] eqn:Hfind.
      2:{ rewrite !bind_assoc in Ht. pure_in Ht. pure_in Ht. cbv iota in Ht. discriminate Ht. }
      unfold stage in Ht. rewrite !bind_assoc in Ht.
      destruct (denied E LocExeNew); [discriminate Ht|]. pure_in Ht.
      unfold create_update_script in Ht. rewrite !bind_assoc in Ht.
      destruct (denied E LocScript); [discriminate Ht|]. pure_in Ht.
      destruct (denied E LocSpawn); [discriminate Ht|]. pure_in Ht.
      pure_in Ht. cbv iota in Ht. pure_in Ht. inversion Ht; subst w'. simpl.
      split; [exact Hexe|]. split; [reflexivity|].
      exists content, members, exe_file.
      rewrite Hextract. repeat (split; [first [reflexivity|assumption]|]).
      rewrite <- app_assoc. reflexivity.
    + pure_in Ht. cbv iota in Ht. pure_in Ht. inversion Ht; subst w'. simpl.
      repeat (split; [assumption|]). split; [reflexivity|]. auto.
Qed.


End InstallUpdate.

(** X25.  [install_update] returns [True] only after a successful backup,
    and never touches the running executable.  For a path ending in
    [.exe] the staged executable is the content of that file; for a path
    ending in [.zip] the archive is extracted into [update_extract] and
    the staged executable is the first [.exe] found there; in both cases
    the helper process is started.  For any other path nothing is staged
    and no helper is started, and the installation is still reported as
    done. *)
Theorem install_update_success_stages_the_update (E : UpdateManager.env)
  (update_file : string) (w : UpdateManager.world) :
  fst (UpdateManager.install_update E update_file w) = Some true ->
  exists wb,
    UpdateManager.create_backup E
      (UpdateManager.set_log
         (UpdateManager.log w ++ [UpdateManager.status_updated UpdateManager.MsgInstalling]) w)
    = (Some true, wb) /\
    UpdateManager.exe (snd (UpdateManager.install_update E update_file w))
    = UpdateManager.exe w /\
    UpdateManager.backup_dir (snd (UpdateManager.install_update E update_file w))
    = UpdateManager.backup_dir wb /\
    if Py.ends_with ".exe" update_file then
      exists content,
        UpdateManager.cache w !! update_file = Some content /\
        UpdateManager.exe_new (snd (UpdateManager.install_update E update_file w))
        = Some content /\
        UpdateManager.update_extract (snd (UpdateManager.install_update E update_file w))
        = UpdateManager.update_extract w /\
        UpdateManager.log (snd (UpdateManager.install_update E update_file w))
        = UpdateManager.log wb
          ++ [UpdateManager.helper_started (UpdateManager.exe_path E ++ ".new")
                (UpdateManager.exe_path E);
              UpdateManager.status_updated UpdateManager.MsgInstallDone]
    else if Py.ends_with ".zip" update_file then
      exists content members exe_file,
        UpdateManager.cache w !! update_file = Some content /\
        UpdateManager.unzip E content = Some members /\
        UpdateManager.update_extract (snd (UpdateManager.install_update E update_file w))
        = Props.extract_all members (UpdateManager.update_extract w) /\
        find (fun m => Py.ends_with ".exe" (fst m))
          (UpdateManager.update_extract (snd (UpdateManager.install_update E update_file w)))
        = Some exe_file /\
        UpdateManager.exe_new (snd (UpdateManager.install_update E update_file w))
        = Some (snd exe_file) /\
        UpdateManager.log (snd (UpdateManager.install_update E update_file w))
        = UpdateManager.log wb
          ++ [UpdateManager.helper_started (UpdateManager.exe_path E ++ ".new")
                (UpdateManager.exe_path E);
              UpdateManager.status_updated UpdateManager.MsgInstallDone]
    else
      UpdateManager.exe_new (snd (UpdateManager.install_update E update_file w))
      = UpdateManager.exe_new w /\
      UpdateManager.update_extract (snd (UpdateManager.install_update E update_file w))
      = UpdateManager.update_extract w /\
      UpdateManager.cache (snd (UpdateManager.install_update E update_file w))
      = UpdateManager.cache w /\
      UpdateManager.log (snd (UpdateManager.install_update E update_file w))
      = UpdateManager.log wb ++ [UpdateManager.status_updated UpdateManager.MsgInstallDone].
Proof. apply install_update_success. Qed.

Lemma install_update_success_stages_the_update_witness :
  UpdateManager.exe_new
    (snd (UpdateManager.install_update Scenario.installer_env "update.exe" Scenario.app_world))
  = Some (Scenario.bytes "exe-1.1.0") /\
  UpdateManager.exe
    (snd (UpdateManager.install_update Scenario.installer_env "update.exe" Scenario.app_world))
  = Some (Scenario.bytes "exe-1.0.0").
Proof.
  destruct (install_update_success_stages_the_update Scenario.installer_env "update.exe"
              Scenario.app_world) as (wb & _ & Hexe & _ & Hstaged).
  - vm_compute. reflexivity.
  - change (Py.ends_with ".exe" "update.exe") with true in Hstaged. cbv iota in Hstaged.
    destruct Hstaged as (content & Hc & Hnew & _).
    split; [|exact Hexe].
    rewrite Hnew. rewrite <- Hc. vm_compute. reflexivity.
Defined.

(** X26.  When the backup fails, [install_update] stops there: it reports
    failure, and the executable, the staged copy, the application files,
    the cache and the extraction directory are as before; no helper
    process is started. *)
Theorem install_update_without_backup_changes_nothing (E : UpdateManager.env)
  (update_file : string) (w : UpdateManager.world) :
  fst (UpdateManager.create_backup E
         (UpdateManager.set_log
            (UpdateManager.log w ++ [UpdateManager.status_updated UpdateManager.MsgInstalling])
            w)) = Some false ->
  fst (UpdateManager.install_update E update_file w) = Some false /\
  UpdateManager.exe (snd (UpdateManager.install_update E update_file w))
  = UpdateManager.exe w /\
  UpdateManager.exe_new (snd (UpdateManager.install_update E update_file w))
  = UpdateManager.exe_new w /\
  UpdateManager.app_files (snd (UpdateManager.install_update E update_file w))
  = UpdateManager.app_files w /\
  UpdateManager.cache (snd (UpdateManager.install_update E update_file w))
  = UpdateManager.cache w /\
  UpdateManager.update_extract (snd (UpdateManager.install_update E update_file w))
  = UpdateManager.update_extract w /\
  exists evs,
    UpdateManager.log (snd (UpdateManager.install_update E update_file w))
    = UpdateManager.log w ++ evs /\
    Forall Props.starts_no_helper evs.
Proof. apply install_update_aborts_on_backup_failure. Qed.

Lemma install_update_without_backup_changes_nothing_witness :
  fst (UpdateManager.install_update Scenario.no_backup_env "update.exe" Scenario.app_world)
  = Some false /\
  UpdateManager.exe_new
    (snd (UpdateManager.install_update Scenario.no_backup_env "update.exe" Scenario.app_world))
  = None.
Proof.
  destruct (install_update_without_backup_changes_nothing Scenario.no_backup_env "update.exe"
              Scenario.app_world) as (Hr & _ & Hnew & _).
  - vm_compute. reflexivity.
  - split; [exact Hr|exact Hnew].
Defined.

(** ** What a backup holds *)
Section BackupContent.
Import Py Props UpdateManager.
Variable E : env.

Lemma copy_to_backup_run before name e file_name content (w w' : world) :
  assoc name before = None ->
  backup_dir w = Some (before ++ [(name, e)]) ->
  copy_to_backup E name file_name content w = (Some tt, w') ->
  backup_dir w' = Some (before ++ [(name, set_files (insert file_name content) e)]).
Proof.
  intros Hfresh Hb H. unfold copy_to_backup in H. pure_in H.
  destruct (denied E (LocBackupFile name file_name)); [discriminate H|].
  rewrite Hb in H. simpl in H. rewrite (assoc_app_fresh name e before Hfresh) in H.
  rewrite (assoc_set_app_fresh name e _ before Hfresh) in H.
  inversion H. reflexivity.
Qed.

Lemma copy_opt_run before name e file_name (o : option (list byte)) (w w' : world) :
  assoc name before = None ->
  backup_dir w = Some (before ++ [(name, e)]) ->
  match o with
  | Some content => copy_to_backup E name file_name content
  | None => Eff.ret tt
  end w = (Some tt, w') ->
  backup_dir w' = Some (before ++ [(name, set_files (opt_insert file_name o) e)]).
Proof.
  intros Hfresh Hb H. destruct o as [c|].
  - eapply copy_to_backup_run; eauto.
  - inversion H; subst w'. rewrite Hb. destruct e; reflexivity.
Qed.

Lemma create_backup_content (w : world) :
  fst (create_backup E w) = Some true ->
  assoc ("backup_" +:+ stamp (clock E (ticks w))) (listing w) = None ->
  exists e,
    backup_dir (snd (create_backup E w))
    = Some (listing w ++ [("backup_" +:+ stamp (clock E (ticks w)), e)]) /\
    is_dir e = true /\
    exists info,
      files e = <["backup_info.json" := info]>
                  (opt_insert "key_cache.json" (app_files w !! "key_cache.json")
                    (opt_insert "config.json" (app_files w !! "config.json")
                      (opt_insert "version.json" (app_files w !! "version.json")
                        (opt_insert (basename (exe_path E)) (exe w) ∅)))).
Proof.
  intros Hok Hfresh.
  destruct (create_backup E w) as [r w'] eqn:Hrun. simpl in Hok. subst r. simpl.
  unfold create_backup, Eff.try_except in Hrun.
  destruct (create_backup_try E w) as [[b|] w1] eqn:Ht; [|discriminate Hrun].
  inversion Hrun; subst b w1; clear Hrun.
  unfold create_backup_try in Ht.
  pure_in Ht. pure_in Ht. cbv zeta in Ht. pure_in Ht.
  cbn [backup_dir set_ticks set_log ticks exe app_files] in Ht.
  change (default [] (backup_dir w)) with (listing w) in Ht.
  rewrite Hfresh in Ht.
  set (name := "backup_" +:+ stamp (clock E (ticks w))) in *.
  destruct (denied E (LocBackupDir name)); [pure_in Ht; discriminate Ht|].
  pure_in Ht.
  match type of Ht with
  | _ (set_backup_dir (Some (_ ++ [(_, ?e0)])) ?wz) = _ =>
      set (e := e0) in *; set (w0 := wz) in *
  end.
  assert (Hb0 : backup_dir (set_backup_dir (Some (listing w ++ [(name, e)])) w0)
                = Some (listing w ++ [(name, e)])) by reflexivity.
  step_in Ht u w2 H1; [destruct u|discriminate Ht].
  apply (copy_opt_run _ _ _ _ _ _ _ Hfresh Hb0) in H1.
  unfold important_files in Ht. cbn [Eff.for_each] in Ht. rewrite !bind_assoc in Ht.
  step_in Ht u w3 H2; [destruct u|discriminate Ht].
  apply (copy_opt_run _ _ _ _ _ _ _ Hfresh H1) in H2.
  rewrite !bind_assoc in Ht.
  step_in Ht u w4 H3; [destruct u|discriminate Ht].
  apply (copy_opt_run _ _ _ _ _ _ _ Hfresh H2) in H3.
  rewrite !bind_assoc in Ht.
  step_in Ht u w5 H4; [destruct u|discriminate Ht].
  apply (copy_opt_run _ _ _ _ _ _ _ Hfresh H3) in H4.
  pure_in Ht. pure_in Ht.
  step_in Ht u w6 H5; [destruct u|discriminate Ht].
  eapply copy_to_backup_run in H5; [|exact Hfresh|exact H4].
  pure_in Ht. inversion Ht; subst w'. simpl. rewrite H5.
  eexists. split; [reflexivity|]. split; [reflexivity|].
  eexists. reflexivity.
Qed.

End BackupContent.

(** X27.  A successful [create_backup] adds one directory, named after the
    time of the call, to the backup directory and leaves the other entries
    as they are.  The new directory holds the running executable under its
    base name and those of [version.json], [config.json] and
    [key_cache.json] that exist, each with its content, and
    [backup_info.json]; nothing else. *)
Theorem create_backup_copies_the_important_files (E : UpdateManager.env)
  (w : UpdateManager.world) :
  fst (UpdateManager.create_backup E w) = Some true ->
  UpdateManager.assoc
    ("backup_" +:+ Py.stamp (UpdateManager.clock E (UpdateManager.ticks w)))
    (Props.listing w) = None ->
  exists e,
    UpdateManager.backup_dir (snd (UpdateManager.create_backup E w))
    = Some (Props.listing w
            ++ [("backup_" +:+ Py.stamp (UpdateManager.clock E (UpdateManager.ticks w)), e)]) /\
    UpdateManager.is_dir e = true /\
    exists info,
      UpdateManager.files e
      = <["backup_info.json" := info]>
          (Props.opt_insert "key_cache.json" (UpdateManager.app_files w !! "key_cache.json")
             (Props.opt_insert "config.json" (UpdateManager.app_files w !! "config.json")
                (Props.opt_insert "version.json" (UpdateManager.app_files w !! "version.json")
                   (Props.opt_insert (Py.basename (UpdateManager.exe_path E))
                      (UpdateManager.exe w) ∅)))).
Proof. apply create_backup_content. Qed.

Lemma create_backup_copies_the_important_files_witness :
  exists e info,
    UpdateManager.backup_dir
      (snd (UpdateManager.create_backup Scenario.installer_env Scenario.app_world))
    = Some [("backup_20240101_000000", e)] /\
    UpdateManager.files e
    = <["backup_info.json" := info]>
        (<["version.json" := Scenario.bytes "1.0.0"]>
           (<["VoiceApp.exe" := Scenario.bytes "exe-1.0.0"]> ∅)).
Proof.
  destruct (create_backup_copies_the_important_files Scenario.installer_env Scenario.app_world)
    as (e & Hdir & _ & info & Hfiles).
  - vm_compute. reflexivity.
  - reflexivity.
  - exists e, info. split; [exact Hdir|exact Hfiles].
Defined.

(** ** Pruning with a negative count *)
Section CleanupAny.
Import Py Props UpdateManager.
Variable E : env.

(** Pruning, for any position [n] at which the slice cuts the ranking. *)
Lemma cleanup_cuts_ranking (keep_count : Z) (n : nat) (w : world) :
  slice_from keep_count (ranked (listing w)) = drop n (ranked (listing w)) ->
  NoDup (fst <$> listing w) ->
  (forall name, denied E (LocRemove name) = false) ->
  Permutation (snapshots (listing (cleanup_old_backups E keep_count w)))
    (take n (ranked (listing w))) /\
  (forall q, q ∈ listing (cleanup_old_backups E keep_count w) <->
             q ∈ listing w /\ q ∉ drop n (ranked (listing w))) /\
  (forall k r, k ∈ take n (ranked (listing w)) -> r ∈ drop n (ranked (listing w)) ->
     created k >= created r).
Proof.
  intros Hslice Hnd Hden.
  set (kept := take n (ranked (listing w))).
  set (removed := drop n (ranked (listing w))).
  set (after := listing (cleanup_old_backups E keep_count w)).
  assert (Hrank : ranked (listing w) ≡ₚ snapshots (listing w))
    by apply sort_desc_perm.
  assert (Hsub : snapshots (listing w) `sublist_of` listing w) by apply sublist_filter.
  assert (Hnd_l : NoDup (listing w)) by (eapply NoDup_fmap_1; exact Hnd).
  assert (Hnd_r : NoDup (ranked (listing w))).
  { rewrite Hrank. eapply sublist_NoDup; eauto. }
  assert (Hsplit : ranked (listing w) = kept ++ removed)
    by (symmetry; apply take_drop).
  assert (Hdel : deleted E (slice_from keep_count (ranked (listing w))) = fst <$> removed).
  { rewrite Hslice. unfold deleted. apply filter_all. intros x _. apply Hden. }
  assert (Hafter : forall q, q ∈ after <-> q ∈ listing w /\ q ∉ removed).
  { intros q. unfold after. rewrite cleanup_listing, Hdel, list_elem_of_filter.
    split.
    - intros [H1 H2]. split; [exact H2|].
      intros Hin. apply H1. apply list_elem_of_fmap. eauto.
    - intros [H1 H2]. split; [|exact H1].
      intros Hin. apply list_elem_of_fmap in Hin as (p & Hp1 & Hp2).
      apply H2. replace q with p; [exact Hp2|].
      symmetry. apply (unique_by_name (listing w)); auto.
      eapply elem_of_sublist; [|exact Hsub]. rewrite <- Hrank, Hsplit.
      apply elem_of_app. auto. }
  split; [|split; [exact Hafter|]].
  - apply NoDup_Permutation.
    + apply NoDup_filter. unfold after. rewrite cleanup_listing. apply NoDup_filter, Hnd_l.
    + rewrite Hsplit in Hnd_r. apply NoDup_app in Hnd_r. tauto.
    + intros q. unfold snapshots at 1. rewrite list_elem_of_filter, Hafter.
      rewrite Hsplit in Hnd_r. apply NoDup_app in Hnd_r as (_ & Hdisj & _).
      split.
      * intros (Hs & Hl & Hr).
        assert (q ∈ ranked (listing w)) as Hq
          by (rewrite Hrank; apply list_elem_of_filter; auto).
        rewrite Hsplit in Hq. apply elem_of_app in Hq as [Hq|Hq]; [exact Hq|contradiction].
      * intros Hq.
        assert (q ∈ snapshots (listing w)) as Hq'
          by (rewrite <- Hrank, Hsplit; apply elem_of_app; auto).
        apply list_elem_of_filter in Hq' as [Hs Hl].
        split; [exact Hs|]. split; [exact Hl|]. apply Hdisj, Hq.
  - intros k r Hkk Hr. apply (descending_split created kept removed); auto.
    rewrite <- Hsplit. apply sort_desc_descending.
Qed.

Lemma slice_from_negative_drop {A} (k : Z) (l : list A) :
  k < 0 -> slice_from k l = drop (length l - Z.to_nat (- k)) l.
Proof. intros H. unfold slice_from. destruct (Z.ltb_spec k 0); [reflexivity|lia]. Qed.


End CleanupAny.

(** X28.  With a negative [keep_count] the slice [backups[keep_count:]]
    counts from the end: [cleanup_old_backups] then removes the
    [-keep_count] oldest snapshots (all of them when there are fewer) and
    keeps the others, instead of keeping none. *)
Theorem cleanup_with_negative_count_drops_oldest (E : UpdateManager.env) (keep_count : Z)
  (w : UpdateManager.world) :
  keep_count < 0 ->
  NoDup (fst <$> Props.listing w) ->
  (forall name, UpdateManager.denied E (UpdateManager.LocRemove name) = false) ->
  let n := (length (Props.ranked (Props.listing w)) - Z.to_nat (- keep_count))%nat in
  Permutation
    (Props.snapshots (Props.listing (UpdateManager.cleanup_old_backups E keep_count w)))
    (take n (Props.ranked (Props.listing w))) /\
  length (Props.snapshots (Props.listing (UpdateManager.cleanup_old_backups E keep_count w)))
  = n /\
  (forall k r, k ∈ take n (Props.ranked (Props.listing w)) ->
               r ∈ drop n (Props.ranked (Props.listing w)) ->
               Props.created k >= Props.created r).
Proof.
  intros Hneg Hnd Hden n.
  destruct (cleanup_cuts_ranking E keep_count n w) as (Hperm & _ & Hord); auto.
  { apply slice_from_negative_drop, Hneg. }
  split; [exact Hperm|]. split; [|exact Hord].
  rewrite Hperm, length_take. unfold n. lia.
Qed.

Lemma cleanup_with_negative_count_drops_oldest_witness :
  length
    (Props.snapshots
       (Props.listing
          (UpdateManager.cleanup_old_backups Scenario.installer_env (-1)
             (Props.after_installs Scenario.installer_env Scenario.four_updates
                Scenario.app_world))))
  = 3%nat.
Proof.
  destruct (cleanup_with_negative_count_drops_oldest Scenario.installer_env (-1)
              (Props.after_installs Scenario.installer_env Scenario.four_updates
                 Scenario.app_world)) as (_ & Hlen & _).
  - lia.
  - apply (bool_decide_unpack (NoDup _)). vm_compute. exact I.
  - intros name. reflexivity.
  - rewrite Hlen. vm_compute. reflexivity.
Defined.

(** X29.  Downloading and installing compose: when [download_update]
    returns a path and [install_update] of that path returns [True], the
    staged executable is, for a name ending in [.exe], byte for byte what
    the server sent for the asset, and for a name ending in [.zip] the
    first [.exe] of the extracted archive.  The download accepts a name
    in any letter case but the installation only the lower-case endings:
    for a name such as [Setup.EXE] nothing is staged although both calls
    succeed. *)
Theorem downloaded_update_is_what_gets_staged (F : UpdateManager.fetcher)
  (E : UpdateManager.env) (assets : list UpdateManager.asset)
  (st : UpdateManager.download_state) (path : string) :
  fst (UpdateManager.download_update F assets st) = Some (Some path) ->
  fst (UpdateManager.install_update E path
         (UpdateManager.disk (snd (UpdateManager.download_update F assets st)))) = Some true ->
  exists a url response,
    UpdateManager.find_asset assets = Some (Some a) /\
    UpdateManager.asset_name a = Some path /\
    UpdateManager.browser_download_url a = Some url /\
    UpdateManager.fetch F url = Some response /\
    (Py.ends_with ".exe" path = true ->
     UpdateManager.exe_new
       (snd (UpdateManager.install_update E path
               (UpdateManager.disk (snd (UpdateManager.download_update F assets st)))))
     = Some (concat (UpdateManager.asset_chunks response))) /\
    (Py.ends_with ".exe" path = false -> Py.ends_with ".zip" path = true ->
     exists members exe_file,
       UpdateManager.unzip E (concat (UpdateManager.asset_chunks response)) = Some members /\
       find (fun m => Py.ends_with ".exe" (fst m))
         (Props.extract_all members (UpdateManager.update_extract (UpdateManager.disk st)))
       = Some exe_file /\
       UpdateManager.exe_new
         (snd (UpdateManager.install_update E path
                 (UpdateManager.disk (snd (UpdateManager.download_update F assets st)))))
       = Some (snd exe_file)) /\
    (Py.ends_with ".exe" path = false -> Py.ends_with ".zip" path = false ->
     UpdateManager.exe_new
       (snd (UpdateManager.install_update E path
               (UpdateManager.disk (snd (UpdateManager.download_update F assets st)))))
     = UpdateManager.exe_new (UpdateManager.disk st)).
Proof.
  intros Hdl Hin.
  destruct (download_update_success F assets st path Hdl)
    as (a & url & response & evs & Hfind & Hname & Hurl & Hfetch & _ & _ & _ & Hrun).
  rewrite Hrun in Hin |- *. cbn [UpdateManager.disk] in Hin |- *.
  set (w := UpdateManager.set_cache
              (insert path (concat (UpdateManager.asset_chunks response)))
              (UpdateManager.disk st)) in *.
  destruct (install_update_success E path w Hin) as (wb & _ & _ & _ & Hcases).
  assert (Hc : UpdateManager.cache w !! path
               = Some (concat (UpdateManager.asset_chunks response))).
  { unfold w. destruct (UpdateManager.disk st). apply lookup_insert_eq. }
  assert (Hx : UpdateManager.update_extract w
               = UpdateManager.update_extract (UpdateManager.disk st)).
  { unfold w. destruct (UpdateManager.disk st). reflexivity. }
  assert (Hn : UpdateManager.exe_new w = UpdateManager.exe_new (UpdateManager.disk st)).
  { unfold w. destruct (UpdateManager.disk st). reflexivity. }
  exists a, url, response. do 4 (split; [assumption|]).
  destruct (Py.ends_with ".exe" path).
  - destruct Hcases as (content & Hcontent & Hnew & _).
    split; [|split; intros; discriminate].
    intros _. rewrite Hnew. congruence.
  - split; [intros; discriminate|].
    destruct (Py.ends_with ".zip" path).
    + destruct Hcases as (content & members & exe_file & Hcontent & Hunzip & Hext & Hfound
                          & Hnew & _).
      split; [|intros; discriminate].
      intros _ _. exists members, exe_file.
      assert (content = concat (UpdateManager.asset_chunks response)) by congruence.
      subst content. rewrite Hext, Hx in Hfound. auto.
    + destruct Hcases as (Hnew & _).
      split; [intros; discriminate|]. intros _ _. rewrite Hnew. exact Hn.
Qed.

Lemma downloaded_update_is_what_gets_staged_witness :
  UpdateManager.exe_new
    (snd (UpdateManager.install_update Scenario.installer_env "VoiceApp.exe"
            (UpdateManager.disk
               (snd (UpdateManager.download_update (Scenario.asset_server "exe-1.1.0")
                       (Scenario.release_assets "VoiceApp.exe") Scenario.download_start)))))
  = Some (Scenario.bytes "exe-1.1.0").
Proof.
  destruct (downloaded_update_is_what_gets_staged (Scenario.asset_server "exe-1.1.0")
              Scenario.installer_env (Scenario.release_assets "VoiceApp.exe")
              Scenario.download_start "VoiceApp.exe")
    as (a & url & response & _ & _ & _ & Hfetch & Hexe & _).
  - vm_compute. reflexivity.
  - vm_compute. reflexivity.
  - injection Hfetch as <-. apply Hexe. reflexivity.
Defined.

(** An asset named in upper case is downloaded, and its installation is
    reported as done, with nothing staged. *)
Example upper_case_asset_is_downloaded_but_not_staged :
  fst (UpdateManager.download_update (Scenario.asset_server "exe-1.1.0")
         (Scenario.release_assets "Setup.EXE") Scenario.download_start)
  = Some (Some "Setup.EXE") /\
  fst (UpdateManager.install_update Scenario.installer_env "Setup.EXE"
         (UpdateManager.disk
            (snd (UpdateManager.download_update (Scenario.asset_server "exe-1.1.0")
                    (Scenario.release_assets "Setup.EXE") Scenario.download_start))))
  = Some true /\
  UpdateManager.exe_new
    (snd (UpdateManager.install_update Scenario.installer_env "Setup.EXE"
            (UpdateManager.disk
               (snd (UpdateManager.download_update (Scenario.asset_server "exe-1.1.0")
                       (Scenario.release_assets "Setup.EXE") Scenario.download_start)))))
  = None.
Proof. repeat split; vm_compute; reflexivity. Qed.

(** ** The settings of the scheduler *)

(** X30.  [load_settings] reads the file over the defaults key by key and
    leaves the file as it is; without a readable file it gives the
    defaults and writes them.  An exception escapes exactly when the file
    is missing and the cache directory cannot be created.  Settings that
    have every default key are read back as they were saved. *)
Theorem load_settings_defaults_and_failure (cache_dir_denied settings_write_denied : bool)
  (file : Py.json_file) :
  (fst (AutoUpdater.load_settings cache_dir_denied settings_write_denied file) = None <->
   file = None /\ cache_dir_denied = true) /\
  (forall settings, file = Some (Some settings) ->
     snd (AutoUpdater.load_settings cache_dir_denied settings_write_denied file) = file /\
     exists loaded,
       fst (AutoUpdater.load_settings cache_dir_denied settings_write_denied file)
       = Some loaded /\
       forall k, loaded !! k = match settings !! k with
                               | Some v => Some v
                               | None => AutoUpdater.default_settings_dict !! k
                               end) /\
  (forall settings,
     AutoUpdater.makedirs_fails cache_dir_denied file = false ->
     settings_write_denied = false ->
     (forall k, is_Some (AutoUpdater.default_settings_dict !! k) -> is_Some (settings !! k)) ->
     fst (AutoUpdater.load_settings cache_dir_denied settings_write_denied
            (AutoUpdater.save_settings_given cache_dir_denied settings_write_denied
               settings file))
     = Some settings).
Proof.
  split; [|split].
  - destruct file as [[settings|]|]; simpl.
    + split; [discriminate|]. intros [H _]. discriminate.
    + split; [discriminate|]. intros [H _]. discriminate.
    + destruct cache_dir_denied; simpl; split; auto; try discriminate.
      intros [_ H]. discriminate.
  - intros settings ->. simpl. split; [reflexivity|]. eexists. split; [reflexivity|].
    intros k. apply dict_merge_lookup.
  - intros settings Hmk -> Hcov. unfold AutoUpdater.save_settings_given. rewrite Hmk. simpl.
    rewrite dict_merge_covered by exact Hcov. reflexivity.
Qed.

Lemma load_settings_defaults_and_failure_witness :
  fst (AutoUpdater.load_settings false false
         (AutoUpdater.save_settings_given false false
            (<["silent_update" := Py.JBool true]> AutoUpdater.default_settings_dict) None))
  = Some (<["silent_update" := Py.JBool true]> AutoUpdater.default_settings_dict) /\
  fst (AutoUpdater.load_settings true false None) = None.
Proof.
  destruct (load_settings_defaults_and_failure false false None) as (_ & _ & Hround).
  destruct (load_settings_defaults_and_failure true false None) as (Hfail & _).
  split.
  - apply Hround; [reflexivity|reflexivity|].
    intros k [v Hk]. destruct (decide (k = "silent_update")) as [->|Hne].
    + rewrite lookup_insert_eq. eauto.
    + rewrite lookup_insert_ne by congruence. eauto.
  - apply Hfail. split; reflexivity.
Defined.
